(** * Udacity-DeepRL, Collaborate/Compete: the Saver and Logger bookkeeping

    A shallow embedding of [Projects/Collaborate_Compete/data_handling.py]
    (classes [Saver] and [Logger], and what [gather_args] does after
    parsing) and of [Projects/Collaborate_Compete/main.py] ([main], [train]
    and [eval] as far as the [Saver] and the [Logger] are concerned), with
    the properties the specification states about them and further
    properties the code shows.

    Conventions of the embedding:
    - a Python [str] is a [string] of 8-bit characters (file names, user input
      and log lines are taken to be ASCII);
    - a Python [int] is a [Z];
    - a Python or numpy float is an exact rational [Qc]: rounding is not
      modelled there, so statements about scores and averages are statements
      about the arithmetic the code writes down; the smoothing [_moving_avg]
      is modelled a second time over an arbitrary arithmetic ([Smooth]), with
      the rationals and IEEE 754 binary64 as instances;
    - a call that may raise returns a [result], whose [Raise] carries the
      exception;
    - the directory the [Saver] works in is a tree of [entry]s, the log files
      the [Logger] appends to are a finite map from path to contents, and the
      console is the list of lines still to be typed plus the prompts shown. *)

From stdpp Require Import gmap strings.
From Stdlib Require Import String Ascii List ZArith Lia Bool QArith Qcanon.
From Stdlib Require Import DecimalString DecimalPos Sorted Permutation.
From Stdlib Require Floats Uint63.
Import ListNotations.

Open Scope string_scope.
Open Scope Z_scope.

(** ** Exceptions and results *)

Inductive exn : Type :=
| AssertionError (msg : string)
| KeyboardInterrupt (msg : string)
| NameError (name : string)
| AttributeError
| IndexError
| ValueError
| ZeroDivisionError
| KeyError
| TypeError
| FileNotFoundError
| EOFError.

Inductive result (A : Type) : Type :=
| Ok (a : A)
| Raise (e : exn).

Arguments Ok {A} a.
Arguments Raise {A} e.

(** Sequencing: the first exception ends the computation. With these
    instances [x ← r; k] reads as two Python statements. *)
#[export] Instance result_ret : MRet result := fun _ a => Ok a.

#[export] Instance result_bind : MBind result := fun _ _ k r =>
  match r with
  | Ok a => k a
  | Raise e => Raise e
  end.

(** A list comprehension whose body may raise: elements are evaluated left to
    right and the first exception ends the comprehension. *)
Fixpoint comprehension {A B : Type} (f : A -> result B) (l : list A) : result (list B) :=
  match l with
  | [] => Ok []
  | a :: l' => b ← f a; bs ← comprehension f l'; Ok (b :: bs)
  end.

(** ** Strings *)

Module Str.

(** [sub in s] *)
Fixpoint contains (sub s : string) : bool :=
  String.prefix sub s ||
  match s with
  | EmptyString => false
  | String _ s' => contains sub s'
  end.

Definition is_digit (c : ascii) : bool :=
  (48 <=? nat_of_ascii c)%nat && (nat_of_ascii c <=? 57)%nat.

(** The longest run of decimal digits at the start of [s]. *)
Fixpoint take_digits (s : string) : string :=
  match s with
  | String c s' => if is_digit c then String c (take_digits s') else EmptyString
  | EmptyString => EmptyString
  end.

(** The pattern [_v(\d+)] matched at the start of [s]; group 1. *)
Definition match_v_here (s : string) : option string :=
  match s with
  | String c1 (String c2 rest) =>
      if Ascii.eqb c1 "_" && Ascii.eqb c2 "v"
      then match take_digits rest with
           | EmptyString => None
           | d => Some d
           end
      else None
  | _ => None
  end.

(** [re.search("_v(\d+)", s)]: the leftmost match, [None] when there is
    none; the value is [group(1)]. *)
Fixpoint re_search_v (s : string) : option string :=
  match match_v_here s with
  | Some d => Some d
  | None =>
      match s with
      | EmptyString => None
      | String _ s' => re_search_v s'
      end
  end.

Definition digit_val (c : ascii) : Z := Z.of_nat (nat_of_ascii c - 48).

(** [int(d)] on a string of decimal digits. *)
Fixpoint int_digits (acc : Z) (d : string) : Z :=
  match d with
  | EmptyString => acc
  | String c d' => int_digits (10 * acc + digit_val c) d'
  end.

(** [str(z)] for an [int]. *)
Definition str_int (z : Z) : string := NilZero.string_of_int (Z.to_int z).

Fixpoint zeros (n : nat) : string :=
  match n with
  | O => EmptyString
  | S n' => String "0" (zeros n')
  end.

(** ["{:0Wd}".format(z)] for a width [W]: zero padding after the sign, which
    counts in the width. *)
Definition format_0d (width : nat) (z : Z) : string :=
  if z <? 0
  then let d := str_int (Z.abs z) in "-" ++ zeros (width - 1 - String.length d) ++ d
  else let d := str_int z in zeros (width - String.length d) ++ d.

Definition format_03d : Z -> string := format_0d 3.

(** The line feed and the double quote. *)
Definition nl : string := String "010"%char EmptyString.
Definition dquote : string := String "034"%char EmptyString.

Definition ends_with (suffix s : string) : bool :=
  (String.length suffix <=? String.length s)%nat &&
  String.eqb (substring (String.length s - String.length suffix) (String.length suffix) s) suffix.

Definition lower_char (c : ascii) : ascii :=
  let n := nat_of_ascii c in
  if (65 <=? n)%nat && (n <=? 90)%nat then ascii_of_nat (n + 32) else c.

(** [s.lower()] *)
Fixpoint lower (s : string) : string :=
  match s with
  | EmptyString => EmptyString
  | String c s' => String (lower_char c) (lower s')
  end.

(** [s.replace(a, b)] for single characters. *)
Fixpoint replace_char (a b : ascii) (s : string) : string :=
  match s with
  | EmptyString => EmptyString
  | String c s' => String (if Ascii.eqb c a then b else c) (replace_char a b s')
  end.

(** [sep.join(l)] *)
Fixpoint join (sep : string) (l : list string) : string :=
  match l with
  | [] => EmptyString
  | [s] => s
  | s :: l' => s ++ sep ++ join sep l'
  end.

Definition is_space (c : ascii) : bool :=
  let n := nat_of_ascii c in
  ((9 <=? n) && (n <=? 13) || (28 <=? n) && (n <=? 32))%nat.

Fixpoint lstrip (s : string) : string :=
  match s with
  | String c s' => if is_space c then lstrip s' else s
  | EmptyString => EmptyString
  end.

Fixpoint rev_append (s acc : string) : string :=
  match s with
  | EmptyString => acc
  | String c s' => rev_append s' (String c acc)
  end.

Definition rev (s : string) : string := rev_append s EmptyString.

(** [s.strip()] *)
Definition strip (s : string) : string := rev (lstrip (rev (lstrip s))).

(** The digits of an integer literal: a digit, then digits each optionally
    preceded by one underscore. [after_digit] tells whether the previous
    character was a digit. *)
Fixpoint int_body (acc : Z) (after_digit : bool) (s : string) : option Z :=
  match s with
  | EmptyString => if after_digit then Some acc else None
  | String c s' =>
      if is_digit c then int_body (10 * acc + digit_val c) true s'
      else if Ascii.eqb c "_" && after_digit then int_body acc false s'
      else None
  end.

(** [int(s)] for a [str]: surrounding white space, an optional sign, the
    digits. [None] is the [ValueError]. *)
Definition py_int (s : string) : option Z :=
  match strip s with
  | String "+" r => int_body 0 false r
  | String "-" r => option_map Z.opp (int_body 0 false r)
  | t => int_body 0 false t
  end.

(** [os.path.basename(p)]: what follows the last separator. *)
Fixpoint basename (p : string) : string :=
  match p with
  | EmptyString => EmptyString
  | String _ p' => if contains "/" p then basename p' else p
  end.

(** [os.path.join(a, b)] with the POSIX separator. *)
Definition os_path_join (a b : string) : string :=
  if String.prefix "/" b then b
  else if String.eqb a EmptyString || ends_with "/" a then a ++ b
  else a ++ "/" ++ b.

End Str.

(** ** The save directory *)

Scheme All for list.

(** What [os.listdir], [os.walk] and [os.path.getmtime] see. *)
Inductive entry : Type :=
| File (name : string) (mtime : Z)
| Dir (name : string) (children : list entry).

Definition entry_name (e : entry) : string :=
  match e with
  | File n _ => n
  | Dir n _ => n
  end.

(** [os.listdir] of a directory with the given entries. *)
Definition os_listdir (children : list entry) : list string := map entry_name children.

(** Modelled from the spec: [utils.check_dir] is not among the sources. The
    filesystem layout of the spec ([<save_dir>/<prefix>_<date>_v<NNN>/] holding
    the weight files and [logs/]) has it create a directory that is not there
    and leave an existing one alone. Here it acts on the directory itself,
    [None] when the path does not exist. *)
Definition check_dir (d : option (list entry)) : list entry :=
  match d with
  | Some children => children
  | None => []
  end.

(** The same on a child [name] of a directory with entries [children]. *)
Definition check_subdir (name : string) (children : list entry) : list entry :=
  if existsb (fun e => String.eqb (entry_name e) name) children
  then children
  else children ++ [Dir name []].

(** ** The console *)

(** [stdin] holds the lines the user will type, [stdout] what was shown: the
    prompt of each [input] call and each printed statement. *)
Record console : Type := Console { stdin : list string; stdout : list string }.

Definition show (text : string) (c : console) : console :=
  Console (stdin c) (stdout c ++ [text]).

(** [input(message)] *)
Definition input (message : string) (c : console) : console * result string :=
  match stdin c with
  | [] => (show message c, Raise EOFError)
  | line :: rest => (Console rest (stdout c ++ [message]), Ok line)
  end.

(** Modelled from the spec: [utils.print_bracketing] is not among the sources;
    it prints its statement inside a frame. Only the statement is recorded. *)
Definition print_bracketing (statement : string) (c : console) : console :=
  show statement c.

(** ** Command line arguments *)

(** The fields of what [gather_args] returns that the [Saver] and the
    [Logger] read. *)
Module Args.

Record t : Type := Make {
  resume : bool;
  eval : bool;
  save_dir : string;
  num_episodes : Z;
  quiet : bool;
  log_every : Z;
  print_every : Z;
  save_every : Z
}.

End Args.

Module Saver.
Import Str.

Record t : Type := Make {
  file_ext : string;
  save_dir : string;
  filename : string;
  (** the files [_load_agent] read into the agents, none after a fresh start *)
  loaded : list string
}.

(** [max(l)]; the built-in raises [ValueError] on an empty list. *)
Definition py_max (l : list Z) : result Z :=
  match l with
  | [] => Raise ValueError
  | x :: l' => Ok (fold_left Z.max l' x)
  end.

(** [int(re.search("_v(\d+)", file).group(1))]: [.group] on the [None] of a
    failed search is an [AttributeError]. *)
Definition version_of (file : string) : result Z :=
  match re_search_v file with
  | Some d => Ok (int_digits 0 d)
  | None => Raise AttributeError
  end.

Definition base_name_of (prefix timestamp : string) : string :=
  prefix ++ "_" ++ timestamp ++ "_v".

(** Lines 119-127: the version chosen against the listing of the save
    directory. *)
Definition next_version (base_name : string) (listing : list string) : result Z :=
  let files := filter (contains base_name) listing in
  if (0 <? List.length files)%nat
  then ver ← comprehension version_of files;
       m ← py_max ver;
       Ok (m + 1)
  else Ok 1.

(** [generate_savename(prefix, save_dir)]. [timestamp] is what
    [time.strftime("%Y%m%d", time.localtime())] returns, [top] the directory
    at [save_dir]. The directory after the call comes with the result. *)
Definition generate_savename (prefix save_dir timestamp : string)
    (top : option (list entry)) : list entry * result (string * string) :=
  let children := check_dir top in
  let base_name := base_name_of prefix timestamp in
  (children,
   ver ← next_version base_name (os_listdir children);
   let filename := base_name ++ format_03d ver in
   Ok (os_path_join save_dir filename, filename)).

(** Python's [sorted(l, key=...)] is stable: entries with equal keys keep their
    order. *)
Fixpoint insert_by_key {A : Type} (key : A -> Z) (x : A) (l : list A) : list A :=
  match l with
  | [] => [x]
  | y :: l' => if key x <=? key y then x :: l else y :: insert_by_key key x l'
  end.

Fixpoint sorted {A : Type} (key : A -> Z) (l : list A) : list A :=
  match l with
  | [] => []
  | x :: l' => insert_by_key key x (sorted key l')
  end.

(** The plain files of a directory, each with its modification time. *)
Fixpoint files_in (children : list entry) : list (string * Z) :=
  match children with
  | [] => []
  | File name mtime :: rest => (name, mtime) :: files_in rest
  | Dir _ _ :: rest => files_in rest
  end.

(** [os.walk] below an entry of the directory [parent], top down: the
    directory's own files first, then each subdirectory in turn. *)
Fixpoint walk_entry (parent : string) (e : entry) : list (string * list (string * Z)) :=
  match e with
  | File _ _ => []
  | Dir name children =>
      let root := os_path_join parent name in
      (root, files_in children) :: flat_map (walk_entry root) children
  end.

(** [os.walk(top)]; nothing is yielded for a path that does not exist. *)
Definition os_walk (top : string) (d : option (list entry)) : list (string * list (string * Z)) :=
  match d with
  | None => []
  | Some children => (top, files_in children) :: flat_map (walk_entry top) children
  end.

(** [_get_files(save_dir)]: every file below [save_dir] whose name ends in
    [.agent], oldest first. *)
Definition _get_files (save_dir : string) (top : option (list entry)) : list string :=
  let file_list :=
    flat_map (fun '(root, files) =>
                map (fun '(file, mtime) => (os_path_join root file, mtime))
                    (filter (fun '(file, _) => ends_with ".agent" file) files))
             (os_walk save_dir top) in
  map fst (sorted snd file_list).

(** The body of the [try] of [_get_filepath]. *)
Definition select_file (files : list string) (save_file : string) : result string :=
  match py_int save_file with
  | None => Raise ValueError
  | Some k =>
      let file_index := Z.of_nat (List.length files) - k in
      if 0 <=? file_index
      then match nth_error files (Z.to_nat file_index) with
           | Some file => Ok file
           | None => Raise IndexError
           end
      else Raise (AssertionError EmptyString)
  end.

Definition load_file_prompt (idx : Z) : string :=
  "Load file for Agent #" ++ str_int (idx + 1) ++ " (or: q/quit): ".

Definition user_quit_message : string := "User quit process before loading a file.".

(** The numbered list shown to the user: the last file, the latest, is
    number 1. *)
Definition file_menu (files : list string) (idx : Z) : string :=
  let message :=
    imap (fun i file => str_int (Z.of_nat (List.length files) - Z.of_nat i) ++ ". " ++ file)
         files in
  let message := replace_char "\" "/" (join nl message) in
  message ++ "(LATEST)" ++ nl ++ nl ++ load_file_prompt idx.

(** [_get_filepath(files, idx)]. The handler of the [try] prints and then
    calls the bare name [_get_filepath], which no scope binds (the method is
    [self._get_filepath] and takes [idx] as well): evaluating it raises
    [NameError]. *)
Definition _get_filepath (files : list string) (idx : Z) (c : console)
    : console * result string :=
  match input (file_menu files idx) c with
  | (c, Raise e) => (c, Raise e)
  | (c, Ok save_file) =>
      if existsb (String.eqb (lower save_file)) ["q"; "quit"]
      then (c, Raise (KeyboardInterrupt user_quit_message))
      else match select_file files save_file with
           | Ok file => (c, Ok file)
           | Raise _ =>
               let c := print_bracketing ("Input " ++ dquote ++ save_file ++ dquote ++ " is INVALID...") c in
               (c, Raise (NameError "_get_filepath"))
           end
  end.

(** The comprehension of [_get_agent_file]: one prompt per agent. *)
Fixpoint prompt_each (files : list string) (idxs : list Z) (c : console)
    : console * result (list string) :=
  match idxs with
  | [] => (c, Ok [])
  | idx :: rest =>
      match _get_filepath files idx c with
      | (c, Raise e) => (c, Raise e)
      | (c, Ok file) =>
          match prompt_each files rest c with
          | (c, Raise e) => (c, Raise e)
          | (c, Ok chosen) => (c, Ok (file :: chosen))
          end
      end
  end.

Definition no_files_found (a : Args.t) : string :=
  "Could not find any files in: " ++ Args.save_dir a.

(** [_get_agent_file(args, agent_count)]; [None] is the [False] returned when
    nothing is to be loaded. *)
Definition _get_agent_file (a : Args.t) (agent_count : nat)
    (top : option (list entry)) (c : console) : console * result (option (list string)) :=
  if Args.resume a || Args.eval a
  then
    let files := _get_files (Args.save_dir a) top in
    if (0 <? List.length files)%nat
    then match prompt_each files (map Z.of_nat (seq 0 agent_count)) c with
         | (c, Raise e) => (c, Raise e)
         | (c, Ok chosen) => (c, Ok (Some chosen))
         end
    else (c, Raise (AssertionError (no_files_found a)))
  else (c, Ok None).

(** [_load_agent(load_file, multi_agent)]: the weights are read from the
    chosen files; what is kept here is which files were read. *)
Definition _load_agent (load_file : list string) (c : console) : console * list string :=
  (print_bracketing (join nl ("Successfully loaded files:" :: load_file)) c, load_file).

(** [Saver(multi_agent, args)]: [framework] and [agent_count] are attributes of
    [multi_agent]. An empty list of chosen files is falsy, like [False]. *)
Definition __init__ (framework : string) (agent_count : nat) (a : Args.t)
    (timestamp : string) (top : option (list entry)) (c : console)
    : option (list entry) * console * result t :=
  match _get_agent_file a agent_count top c with
  | (c, Raise e) => (top, c, Raise e)
  | (c, Ok load_file) =>
      match generate_savename framework (Args.save_dir a) timestamp top with
      | (children, Raise e) => (Some children, c, Raise e)
      | (children, Ok (save_dir, filename)) =>
          match load_file with
          | Some (file :: files) =>
              let (c, loaded) := _load_agent (file :: files) c in
              (Some children, c, Ok (Make ".agent" save_dir filename loaded))
          | _ =>
              let c := print_bracketing ("Saving to base filename: " ++ filename) c in
              (Some children, c, Ok (Make ".agent" save_dir filename []))
          end
      end
  end.

(** [torch.save(..., path)] into a directory with the given entries: the file
    is created, or replaced when it is there. *)
Fixpoint torch_save (name : string) (now : Z) (files : list entry) : list entry :=
  match files with
  | [] => [File name now]
  | e :: rest =>
      if String.eqb (entry_name e) name
      then File name now :: rest
      else e :: torch_save name now rest
  end.

(** Apply [f] to the entries of the subdirectory [name]. *)
Fixpoint in_subdir (name : string) (f : list entry -> list entry) (children : list entry)
    : list entry :=
  match children with
  | [] => []
  | Dir n inner :: rest =>
      if String.eqb n name then Dir n (f inner) :: rest
      else Dir n inner :: in_subdir name f rest
  | e :: rest => e :: in_subdir name f rest
  end.

Fixpoint hashes (n : nat) : string :=
  match n with
  | O => EmptyString
  | S n' => String "#" (hashes n')
  end.

(** [_save(multi_agent, save_name, mssg)]: one file per agent in the run's own
    directory, which is created when missing. [children] are the entries of
    [args.save_dir], [now] is the time of writing. *)
Definition _save (s : t) (agent_count : nat) (save_name mssg : string) (now : Z)
    (children : list entry) (c : console) : list entry * console :=
  let basename := replace_char "\" "/" (os_path_join (save_dir s) save_name) in
  let statement := mssg ++ basename ++ "..." in
  let frame := hashes (String.length statement) in
  let c := show (frame ++ nl ++ statement ++ nl ++ frame) c in
  let children := check_subdir (filename s) children in
  (in_subdir (filename s)
     (fun files =>
        fold_left (fun files idx =>
                     let suffix := "_agent" ++ str_int (Z.of_nat idx + 1) ++ file_ext s in
                     torch_save (save_name ++ suffix) now files)
                  (seq 0 agent_count) files)
     children,
   c).



End Saver.


(** ** Arrays of floats *)

Module Np.

Definition of_Z (z : Z) : Qc := Q2Qc (inject_Z z).
Definition of_nat (n : nat) : Qc := of_Z (Z.of_nat n).

(** [int(x)] of a float: truncation towards zero. *)
Definition int (x : Qc) : Z := Z.quot (Qnum x) (Zpos (Qden x)).

Definition leb (x y : Qc) : bool := Qle_bool x y.
Definition max2 (x y : Qc) : Qc := if leb x y then y else x.

Definition zeros (n : nat) : list Qc := repeat 0%Qc n.
Definition sum (l : list Qc) : Qc := fold_right Qcplus 0%Qc l.
Definition mean (l : list Qc) : Qc := (sum l / of_nat (List.length l))%Qc.

(** [a.max()]; a [ValueError] on an empty array. *)
Definition max (a : list Qc) : result Qc :=
  match a with
  | [] => Raise ValueError
  | x :: a' => Ok (fold_left max2 a' x)
  end.

(** [np.any(a)]: some element is not zero. *)
Definition any (a : list Qc) : bool := existsb (fun x => negb (Qc_eq_bool x 0)) a.

(** [acc += r] on a one-dimensional [acc]: elementwise when the lengths
    agree, [r] broadcast when it has one element, a [ValueError] otherwise. *)
Definition iadd (acc r : list Qc) : result (list Qc) :=
  if (List.length r =? List.length acc)%nat then Ok (zip_with Qcplus acc r)
  else match r with
       | [x] => Ok (map (fun a => (a + x)%Qc) acc)
       | _ => Raise ValueError
       end.

(** [np.ones(w) / w] *)
Definition uniform_window (w : nat) : list Qc := repeat (1 / of_nat w)%Qc w.

(** [np.pad(data, width, mode="mean", stat_length=stat)] on a non-empty
    one-dimensional array: [width] copies of the mean of the first [stat]
    values in front, [width] copies of the mean of the last [stat] values
    behind; [stat] is cut down to the length of the data. *)
Definition pad_mean (data : list Qc) (width stat : nat) : list Qc :=
  let n := List.length data in
  let k := Nat.min stat n in
  let left := mean (firstn k data) in
  let right := mean (skipn (n - k) data) in
  repeat left width ++ data ++ repeat right width.

(** Entry [j] of the full discrete convolution of [a] and [v]:
    the sum over [i] of [v[i] * a[j - i]]. *)
Definition conv_at (a v : list Qc) (j : nat) : Qc :=
  sum (imap (fun i vi => if (i <=? j)%nat then (vi * nth (j - i) a 0)%Qc else 0%Qc) v).

Definition convolve_full (a v : list Qc) : list Qc :=
  map (conv_at a v) (seq 0 (List.length a + List.length v - 1)).

(** [np.convolve(a, v, 'same')]: the longer argument comes first, and the
    output is the part of the full convolution of that length which starts
    [len(v) - 1 - len(v) // 2] entries in. Empty arguments are refused. *)
Definition convolve_same (a v : list Qc) : result (list Qc) :=
  match a, v with
  | [], _ | _, [] => Raise ValueError
  | _, _ =>
      let (a, v) := if (List.length a <? List.length v)%nat then (v, a) else (a, v) in
      let n_left := (List.length v / 2)%nat in
      Ok (firstn (List.length a) (skipn (List.length v - 1 - n_left) (convolve_full a v)))
  end.

(** The slice [l[w:-w]] for [w >= 0]; [l[0:-0]] is [l[0:0]]. *)
Definition trim {A : Type} (w : nat) (l : list A) : list A :=
  match w with
  | O => []
  | _ => firstn (List.length l - w - w) (skipn w l)
  end.

End Np.

(** ** The agents *)

(** The attributes of [MAD4PG_Net] and of its agents ([agent.py], not among
    the sources) that the [Logger] reads. *)
Module MultiAgent.

Record agent : Type := Agent { actor_loss : Qc; critic_loss : Qc }.

Record t : Type := Make {
  framework : string;
  agent_count : nat;
  agents : list agent;
  t_step : Z;
  episode : Z
}.

End MultiAgent.

(** ** Log files *)

(** The text files the [Logger] writes and reads, by path. *)
Abbreviation files := (gmap string string).

(** [open(path, 'a')] then [write(text)]: the file is created when missing. *)
Definition append_file (path text : string) (fs : files) : files :=
  <[path := default EmptyString (fs !! path) ++ text]> fs.

(** [open(path, 'w')] then [write(text)] *)
Definition write_file (path text : string) (fs : files) : files :=
  <[path := text]> fs.

Definition is_linebreak (c : ascii) : bool :=
  let n := nat_of_ascii c in
  ((10 <=? n) && (n <=? 13) || (28 <=? n) && (n <=? 30) || (n =? 133))%nat.

(** [s.splitlines()]: [line] is the line read so far. A carriage return
    followed by a line feed is one boundary, and no empty last line is
    produced. *)
Fixpoint splitlines_from (line s : string) : list string :=
  match s with
  | EmptyString =>
      match line with
      | EmptyString => []
      | _ => [line]
      end
  | String c s' =>
      if is_linebreak c
      then line :: match c, s' with
                   | "013"%char, String "010"%char s'' => splitlines_from EmptyString s''
                   | _, _ => splitlines_from EmptyString s'
                   end
      else splitlines_from (line ++ String c EmptyString) s'
  end.

Definition splitlines (s : string) : list string := splitlines_from EmptyString s.

(** Reading in text mode: [\r\n] and [\r] arrive as [\n]. *)
Fixpoint universal_newlines (s : string) : string :=
  match s with
  | EmptyString => EmptyString
  | String "013"%char s' =>
      String "010"%char
        match s' with
        | String "010"%char s'' => universal_newlines s''
        | _ => universal_newlines s'
        end
  | String c s' => String c (universal_newlines s')
  end.

(** ** The Logger *)

Module Logger.
Import Str.

Record t : Type := Make {
  save_dir : string;
  lossfiles : gmap nat (list string);
  eval : bool;
  max_eps : Z;
  quietmode : bool;
  log_every : Z;
  print_every : Z;
  framework : string;
  agent_count : nat;
  log_dir : string;
  filename : string;
  logs_basename : string;
  (** a [deque] with [maxlen=print_every], oldest first *)
  scores : list Qc;
  rewards : list Qc;
  scoresfile : string;
  paramfile : string
}.

Definition set_rewards (r : list Qc) (L : t) : t :=
  Make (save_dir L) (lossfiles L) (eval L) (max_eps L) (quietmode L) (log_every L)
       (print_every L) (framework L) (agent_count L) (log_dir L) (filename L)
       (logs_basename L) (scores L) r (scoresfile L) (paramfile L).

Definition set_scores (sc : list Qc) (L : t) : t :=
  Make (save_dir L) (lossfiles L) (eval L) (max_eps L) (quietmode L) (log_every L)
       (print_every L) (framework L) (agent_count L) (log_dir L) (filename L)
       (logs_basename L) sc (rewards L) (scoresfile L) (paramfile L).

Definition set_logfiles (scoresfile paramfile : string) (lossfiles : gmap nat (list string))
    (L : t) : t :=
  Make (save_dir L) lossfiles (eval L) (max_eps L) (quietmode L) (log_every L)
       (print_every L) (framework L) (agent_count L) (log_dir L) (filename L)
       (logs_basename L) (scores L) (rewards L) scoresfile paramfile.

(** [deque.append(x)] under [maxlen]: the oldest entries make room. *)
Definition deque_append (maxlen : nat) (x : Qc) (d : list Qc) : list Qc :=
  let d' := (d ++ [x])%list in
  skipn (List.length d' - maxlen) d'.

(** [_reset_rewards()] *)
Definition _reset_rewards (L : t) : t := set_rewards (Np.zeros (agent_count L)) L.

(** The property [latest_score]: [self.scores[-1]]. *)
Definition latest_score (L : t) : result Qc :=
  match List.rev (scores L) with
  | x :: _ => Ok x
  | [] => Raise IndexError
  end.

(** [_update_score()] *)
Definition _update_score (L : t) : result t :=
  score ← Np.max (rewards L);
  Ok (set_scores (deque_append (Z.to_nat (print_every L)) score (scores L)) L).

(** [_get_agentlog_names(idx, agent)] *)
Definition _get_agentlog_names (idx : nat) : list string :=
  let idx := Z.of_nat idx + 1 in
  ["_agent" ++ str_int idx ++ "_actorloss.txt"; "_agent" ++ str_int idx ++ "_criticloss.txt"].

(** [_moving_avg(data, avg_across)]. [np.ones] refuses a negative length,
    [np.convolve] an empty window and [np.pad] an empty array. *)
Definition _moving_avg (data : list Qc) (avg_across : Qc) : result (list Qc) :=
  let avg_across := Np.int avg_across in
  if avg_across <? 0 then Raise ValueError
  else
    let w := Z.to_nat avg_across in
    let window := Np.uniform_window w in
    match data, w with
    | [], S _ => Raise ValueError
    | _, _ =>
        let data := Np.pad_mean data w 10 in
        same ← Np.convolve_same data window;
        Ok (Np.trim w same)
    end.

Section Floats.

(** [str(x)] of a float and [float(s)] of a string, [None] being its
    [ValueError]. The decimal notation Python uses is not modelled. *)
Variable str_float : Qc -> string.
Variable float : string -> option Qc.

(** The branch of [_write_losses] that picks the loss a file is for. *)
Definition loss_for (filename : string) (agent : MultiAgent.agent) : result Qc :=
  if contains "actorloss" filename then Ok (MultiAgent.actor_loss agent)
  else if contains "criticloss" filename then Ok (MultiAgent.critic_loss agent)
  else Raise ValueError.

Fixpoint write_agent_losses (agent : MultiAgent.agent) (filenames : list string) (fs : files)
    : files * result unit :=
  match filenames with
  | [] => (fs, Ok tt)
  | filename :: rest =>
      match loss_for filename agent with
      | Raise e => (fs, Raise e)
      | Ok loss => write_agent_losses agent rest (append_file filename (str_float loss ++ nl) fs)
      end
  end.

Fixpoint write_losses_from (idx : nat) (agents : list MultiAgent.agent) (L : t) (fs : files)
    : files * result unit :=
  match agents with
  | [] => (fs, Ok tt)
  | agent :: rest =>
      match lossfiles L !! idx with
      | None => (fs, Raise KeyError)
      | Some filenames =>
          match write_agent_losses agent filenames fs with
          | (fs, Raise e) => (fs, Raise e)
          | (fs, Ok _) => write_losses_from (S idx) rest L fs
          end
      end
  end.

(** [_write_losses(multi_agent)] *)
Definition _write_losses (multi_agent : MultiAgent.t) (L : t) (fs : files)
    : files * result unit :=
  write_losses_from 0 (MultiAgent.agents multi_agent) L fs.

(** [_write_scores()] *)
Definition _write_scores (L : t) (fs : files) : files * result unit :=
  match latest_score L with
  | Raise e => (fs, Raise e)
  | Ok score => (append_file (scoresfile L) (str_float score ++ nl) fs, Ok tt)
  end.

(** [log(rewards, multi_agent)]; [multi_agent] defaults to [None]. *)
Definition log (rewards : list Qc) (multi_agent : option MultiAgent.t) (L : t) (fs : files)
    : files * result t :=
  match Np.iadd (Logger.rewards L) rewards with
  | Raise e => (fs, Raise e)
  | Ok acc =>
      let L := set_rewards acc L in
      if eval L then (fs, Ok L)
      else
        match multi_agent with
        | None => (fs, Raise AttributeError)
        | Some multi_agent =>
            if log_every L =? 0 then (fs, Raise ZeroDivisionError)
            else if MultiAgent.t_step multi_agent mod log_every L =? 0
            then match _write_losses multi_agent L fs with
                 | (fs, Raise e) => (fs, Raise e)
                 | (fs, Ok _) => (fs, Ok L)
                 end
            else (fs, Ok L)
        end
  end.

(** [step(eps_num, multi_agent)]. The report printed every [print_every]
    episodes reads the clock and changes neither the logger nor the files:
    of it only the arithmetic that can fail is kept. *)
Definition step (eps_num : option Z) (L : t) (fs : files) : files * result t :=
  match _update_score L with
  | Raise e => (fs, Raise e)
  | Ok L =>
      let L := _reset_rewards L in
      if eval L
      then match latest_score L with
           | Raise e => (fs, Raise e)
           | Ok _ => (fs, Ok L)
           end
      else
        match _write_scores L fs with
        | (fs, Raise e) => (fs, Raise e)
        | (fs, Ok _) =>
            match eps_num with
            | None => (fs, Raise TypeError)
            | Some eps_num =>
                if print_every L =? 0 then (fs, Raise ZeroDivisionError)
                else if (eps_num mod print_every L =? 0) || (eps_num =? max_eps L)
                then if eps_num =? 0 then (fs, Raise ZeroDivisionError) else (fs, Ok L)
                else (fs, Ok L)
            end
        end
  end.

(** Lines 337-338 of [plot_logs]: the scores file read back. *)
Definition read_scores (L : t) (fs : files) : result (list Qc) :=
  match fs !! scoresfile L with
  | None => Raise FileNotFoundError
  | Some text =>
      comprehension (fun score => match float score with
                                  | Some x => Ok x
                                  | None => Raise ValueError
                                  end)
                    (splitlines (universal_newlines text))
  end.

(** Line 342 of [plot_logs]: [max(1, int(min(100, num_eps/2)))]. *)
Definition score_window (num_eps : nat) : Z :=
  Z.max 1 (Z.min 100 (Z.of_nat num_eps / 2)).

(** The three curves [_create_scores_plot] draws from the scores file: the
    scores and their two moving averages. *)
Definition scores_curves (L : t) (fs : files)
    : result (list Qc * list Qc * list Qc) :=
  scores ← read_scores L fs;
  let w := score_window (List.length scores) in
  ma1 ← _moving_avg scores (Np.of_Z w);
  ma2 ← _moving_avg scores (Np.of_Z (w * 2));
  Ok (scores, ma1, ma2).

End Floats.

(** [_generate_logfiles(multi_agent)]: the empty scores file and, per agent,
    its two empty loss files. *)
Definition _generate_logfiles (multi_agent : MultiAgent.t) (L : t) (fs : files) : files * t :=
  let scoresfile := logs_basename L ++ "_scores.txt" in
  let fs := append_file scoresfile EmptyString fs in
  let '(fs, lossfiles) :=
    fold_left (fun '(fs, lossfiles) idx =>
                 let names := map (fun name => logs_basename L ++ name) (_get_agentlog_names idx) in
                 (fold_left (fun fs file => append_file file EmptyString fs) names fs,
                  <[idx := names]> lossfiles))
              (seq 0 (List.length (MultiAgent.agents multi_agent)))
              (fs, (∅ : gmap nat (list string))) in
  (fs, set_logfiles scoresfile (paramfile L) lossfiles L).

(** [_init_logs(params, multi_agent)] *)
Definition _init_logs (params : list string) (multi_agent : MultiAgent.t) (L : t) (fs : files)
    : files * t :=
  let paramfile := logs_basename L ++ "_LOG.txt" in
  let fs := write_file paramfile (String.concat EmptyString (map (fun line => line ++ nl) params)) fs in
  _generate_logfiles multi_agent (set_logfiles (scoresfile L) paramfile (lossfiles L) L) fs.

(** [Logger(multi_agent, args, save_dir)] with both objects given. [params]
    is what [_collect_params] gathers from the attributes of [args] and of the
    agents. A [deque] refuses a negative [maxlen]. Before [_init_logs] runs
    the two file attributes are unset; they are empty here. *)
Definition __init__ (multi_agent : MultiAgent.t) (a : Args.t) (save_dir : string)
    (params : list string) (fs : files) : files * result t :=
  if Args.print_every a <? 0 then (fs, Raise ValueError)
  else
    let log_dir := replace_char "\" "/" (os_path_join save_dir "logs") in
    let filename := basename save_dir in
    let L := Make save_dir ∅ (Args.eval a) (Args.num_episodes a) (Args.quiet a)
                  (Args.log_every a) (Args.print_every a)
                  (MultiAgent.framework multi_agent) (MultiAgent.agent_count multi_agent)
                  log_dir filename (os_path_join log_dir filename)
                  [] [] EmptyString EmptyString in
    let L := _reset_rewards L in
    if eval L then (fs, Ok L)
    else let (fs, L) := _init_logs params multi_agent L fs in (fs, Ok L).

End Logger.

(** ** The episode loop of [train] *)

Module Main.

(** One pass through the body of the [while True] loop, as far as the
    [Logger] sees it: what [env.step] returned and the agents after
    [multi_agent.learn()]. *)
Record env_step : Type := Step {
  rewards : list Qc;
  dones : list bool;
  multi_agent : MultiAgent.t
}.

(** How the loop stopped; [Running] when the environment's answers ran out
    before any [break]. *)
Inductive loop_end : Type := Break_done | Break_cutoff | Running.

(** Line 93: [np.any(logger.rewards) > 1]. [np.any] yields a boolean, which
    counts as 0 or 1 in the comparison. *)
Definition cutoff (rewards : list Qc) : bool := Z.b2z (Np.any rewards) >? 1.

(** Lines 69-94 of [train]: the loop body as far as the [Logger] is
    concerned. What follows the loop in [train] before [logger.step]
    ([saver.save], [multi_agent.new_episode]) is not part of it. *)
Fixpoint episode (str_float : Qc -> string) (trace : list env_step) (L : Logger.t) (fs : files)
    : files * result (loop_end * Logger.t * list env_step) :=
  match trace with
  | [] => (fs, Ok (Running, L, []))
  | s :: rest =>
      match Logger.log str_float (rewards s) (Some (multi_agent s)) L fs with
      | (fs, Raise e) => (fs, Raise e)
      | (fs, Ok L) =>
          if existsb id (dones s) then (fs, Ok (Break_done, L, rest))
          else if cutoff (Logger.rewards L) then (fs, Ok (Break_cutoff, L, rest))
          else episode str_float rest L fs
      end
  end.

End Main.

(** ** The command line, after parsing *)

Module GatherArgs.
Import Str.

(** What [parser.parse_args()] returns, as far as the lines after it and
    the [Saver] and the [Logger] read it. *)
Record parsed : Type := Parsed {
  update_type : string;
  pretrain : Z;
  batch_size : Z;
  rollout : Z;
  eval : bool;
  force_eval : bool;
  num_episodes : Z;
  resume : bool;
  save_dir : string;
  quiet : bool;
  log_every : Z;
  print_every : Z;
  save_every : Z
}.

(** What [gather_args()] returns: [max_steps] is an attribute only when the
    run is an evaluation that was not forced. *)
Record t : Type := Make {
  args : Args.t;
  lowered_update_type : string;
  max_steps : option Z;
  train : bool
}.

(** Lines 756-775 of [gather_args()], [p] being what [parse_args()]
    returned. *)
Definition gather_args (p : parsed) : result t :=
  let update_type := lower (update_type p) in
  if negb (String.eqb update_type "hard" || String.eqb update_type "soft")
  then Raise (AssertionError "UPDATE_TYPE must be either             HARD or SOFT.")
  else if negb (batch_size p <=? pretrain p)
  then Raise (AssertionError "PRETRAIN less than BATCHSIZE.")
  else if negb (1 <=? rollout p)
  then Raise (AssertionError "ROLLOUT must be greater than or equal to 1.")
  else
    let '(num_episodes, max_steps) :=
      if eval p && negb (force_eval p) then (1, Some 1000) else (num_episodes p, None) in
    let eval := if force_eval p then true else eval p in
    Ok (Make (Args.Make (resume p) eval (save_dir p) num_episodes (quiet p)
                        (log_every p) (print_every p) (save_every p))
             update_type max_steps (negb eval)).

End GatherArgs.

(** ** [main], [train] and [eval] *)

Module Run.
Import Main.

(** How a run ends; [Unfinished] when the environment's answers ran out
    inside an episode. *)
Inductive outcome : Type := Returned | Raised (e : exn) | Unfinished.

Definition returned (o : outcome) : bool :=
  match o with
  | Returned => true
  | _ => false
  end.

(** [range(1, num_episodes+1)] *)
Definition episode_numbers (num_episodes : Z) : list Z :=
  map Z.of_nat (seq 1 (Z.to_nat num_episodes)).

(** [saver.save(...)], lines 97 and 108 of [train]: the class [Saver] has the
    methods [save_checkpoint], [save_final] and [_save] and none called
    [save], so the attribute lookup fails. *)
Definition saver_save : result unit := Raise AttributeError.

(** Lines 100-102 of [train]: [logger.scores] is a [deque], which takes no
    slice. *)
Definition goal_reached (L : Logger.t) : result bool :=
  if (250 <? List.length (Logger.scores L))%nat then Raise TypeError else Ok false.

(** Lines 107-109 of [train]; of [logger.graph()] the reading of the scores
    and their curves is kept. *)
Definition cleanup (float : string -> option Qc) (L : Logger.t) (fs : files)
    : files * outcome :=
  match saver_save with
  | Raise e => (fs, Raised e)
  | Ok _ =>
      match Logger.scores_curves float L fs with
      | Raise e => (fs, Raised e)
      | Ok _ => (fs, Returned)
      end
  end.

(** Lines 63-102 of [train]: the episodes still to run, over the answers the
    environment still has. *)
Fixpoint train_episodes (str_float : Qc -> string) (float : string -> option Qc)
    (numbers : list Z) (trace : list env_step) (L : Logger.t) (fs : files)
    : files * outcome :=
  match numbers with
  | [] => cleanup float L fs
  | number :: later =>
      match episode str_float trace L fs with
      | (fs, Raise e) => (fs, Raised e)
      | (fs, Ok (Running, _, _)) => (fs, Unfinished)
      | (fs, Ok (_, L, rest)) =>
          match saver_save with
          | Raise e => (fs, Raised e)
          | Ok _ =>
              match Logger.step str_float (Some number) L fs with
              | (fs, Raise e) => (fs, Raised e)
              | (fs, Ok L) =>
                  match goal_reached L with
                  | Raise e => (fs, Raised e)
                  | Ok true => cleanup float L fs
                  | Ok false => train_episodes str_float float later rest L fs
                  end
              end
          end
      end
  end.

(** [train(multi_agent, args, env, saver)]; [save_dir] is [saver.save_dir]
    and [trace] what [env.step] answers during the run. The calls into the
    agents and the environment ([initialize_memory], [reset], [act], [store],
    [learn], [new_episode], [close]) are taken to return. *)
Definition train (str_float : Qc -> string) (float : string -> option Qc)
    (multi_agent : MultiAgent.t) (a : Args.t) (save_dir : string) (params : list string)
    (trace : list env_step) (fs : files) : files * outcome :=
  match Logger.__init__ multi_agent a save_dir params fs with
  | (fs, Raise e) => (fs, Raised e)
  | (fs, Ok L) =>
      train_episodes str_float float (episode_numbers (Args.num_episodes a)) trace L fs
  end.

(** Lines 128-136 of [eval]: the loop body as far as the [Logger] is
    concerned. *)
Fixpoint eval_episode (str_float : Qc -> string) (trace : list env_step) (L : Logger.t)
    (fs : files) : files * result (loop_end * Logger.t * list env_step) :=
  match trace with
  | [] => (fs, Ok (Running, L, []))
  | s :: rest =>
      match Logger.log str_float (rewards s) None L fs with
      | (fs, Raise e) => (fs, Raise e)
      | (fs, Ok L) =>
          if existsb id (dones s) then (fs, Ok (Break_done, L, rest))
          else eval_episode str_float rest L fs
      end
  end.

(** Lines 122-139 of [eval] *)
Fixpoint eval_episodes (str_float : Qc -> string) (numbers : list Z) (trace : list env_step)
    (L : Logger.t) (fs : files) : files * outcome :=
  match numbers with
  | [] => (fs, Returned)
  | _ :: later =>
      match eval_episode str_float trace L fs with
      | (fs, Raise e) => (fs, Raised e)
      | (fs, Ok (Break_done, L, rest)) =>
          match Logger.step str_float None L fs with
          | (fs, Raise e) => (fs, Raised e)
          | (fs, Ok L) => eval_episodes str_float later rest L fs
          end
      | (fs, Ok (_, _, _)) => (fs, Unfinished)
      end
  end.

(** [eval(multi_agent, args, env)]: the [Logger] is created without a
    [save_dir], which is then ['.']. *)
Definition eval (str_float : Qc -> string) (multi_agent : MultiAgent.t) (a : Args.t)
    (params : list string) (trace : list env_step) (fs : files) : files * outcome :=
  match Logger.__init__ multi_agent a "." params fs with
  | (fs, Raise e) => (fs, Raised e)
  | (fs, Ok L) => eval_episodes str_float (episode_numbers (Args.num_episodes a)) trace L fs
  end.

(** What [main] works on: the save directory, the console and the log
    files. *)
Record world : Type := World {
  top : option (list entry);
  terminal : console;
  logs : files
}.

(** [main()], [p] being the parsed command line, [multi_agent] what
    [MAD4PG_Net(env, args)] built and [timestamp] the date
    [generate_savename] reads. *)
Definition main (str_float : Qc -> string) (float : string -> option Qc)
    (p : GatherArgs.parsed) (multi_agent : MultiAgent.t) (timestamp : string)
    (params : list string) (trace : list env_step) (w : world) : world * outcome :=
  match GatherArgs.gather_args p with
  | Raise e => (w, Raised e)
  | Ok a =>
      match Saver.__init__ (MultiAgent.framework multi_agent)
                           (MultiAgent.agent_count multi_agent)
                           (GatherArgs.args a) timestamp (top w) (terminal w) with
      | (top, c, Raise e) => (World top c (logs w), Raised e)
      | (top, c, Ok saver) =>
          let (fs, o) :=
            if GatherArgs.train a
            then train str_float float multi_agent (GatherArgs.args a) (Saver.save_dir saver)
                       params trace (logs w)
            else eval str_float multi_agent (GatherArgs.args a) params trace (logs w) in
          (World top c fs, o)
      end
  end.

End Run.

(** ** What the Logger reports *)

Module LoggerReport.
Import Str.

Definition upper_char (c : ascii) : ascii :=
  let n := nat_of_ascii c in
  if (97 <=? n)%nat && (n <=? 122)%nat then ascii_of_nat (n - 32) else c.

(** [s.upper()], on ASCII *)
Fixpoint upper (s : string) : string :=
  match s with
  | EmptyString => EmptyString
  | String c s' => String (upper_char c) (upper s')
  end.

(** [s.lstrip("_")] *)
Fixpoint lstrip_underscores (s : string) : string :=
  match s with
  | String c s' => if Ascii.eqb c "_" then lstrip_underscores s' else s
  | EmptyString => EmptyString
  end.

(** [_format_param(arg, args)]; [value] is [str(getattr(args, arg))]. *)
Definition _format_param (arg value : string) : string :=
  lstrip_underscores (upper arg) ++ ": " ++ value.

(** [line.split(':')[0]] *)
Fixpoint before_colon (line : string) : string :=
  match line with
  | EmptyString => EmptyString
  | String c line' => if Ascii.eqb c ":" then EmptyString else String c (before_colon line')
  end.

Definition params_to_print : list string :=
  ["max_steps"; "num_episodes"; "c"; "num_atoms"; "vmin"; "vmax"; "epsilon";
   "epsilon_decay"; "epsilon_min"; "gamma"; "learn_rate"; "buffer_size"; "batch_size";
   "pretrain"; "rollout"; "l2_decay"].

(** Line 312 of [load_logs]: [line.split(':')[0].lower() in params_to_print] *)
Definition printed (line : string) : bool :=
  existsb (String.eqb (lower (before_colon line))) params_to_print.

(** Lines 312-318 of [load_logs]: one pass of the loop, on [sess_params] and
    [counter]. *)
Definition add_line (st : string * nat) (line : string) : string * nat :=
  let '(sess_params, counter) := st in
  if printed line
  then
    let line := line ++ "  " in
    let counter := (counter + String.length line)%nat in
    if (80 <? counter)%nat then (sess_params ++ nl ++ line, 0%nat)
    else (sess_params ++ line, counter)
  else (sess_params, counter).

(** [load_logs()]; the value is [self.sess_params]. *)
Definition load_logs (L : Logger.t) (fs : files) : result string :=
  match fs !! Logger.paramfile L with
  | None => Raise FileNotFoundError
  | Some text =>
      Ok (fst (fold_left add_line (splitlines (universal_newlines text))
                         (EmptyString, 0%nat)))
  end.

(** Lines 374-376 of [plot_logs]: the loss files it opens, in order, as far
    as [self.lossfiles[col-1][row]] goes. *)
Definition loss_files_read (L : Logger.t) : result (list string) :=
  let gs_rows := Logger.agent_count L in
  let gs_cols := (Logger.agent_count L + 1)%nat in
  comprehension
    (fun '(col, row) =>
       match Logger.lossfiles L !! (col - 1)%nat with
       | None => Raise KeyError
       | Some names =>
           match nth_error names row with
           | None => Raise IndexError
           | Some file => Ok file
           end
       end)
    (flat_map (fun col => map (fun row => (col, row)) (seq 0 gs_rows))
              (seq 1 (gs_cols - 1))).

End LoggerReport.

(** ** The log files found again *)

Module LoggerGraph.
Import Str.

(** [s.split(sep)] for a separator of one character; [part] is the part
    read so far. *)
Fixpoint split_from (sep : ascii) (part s : string) : list string :=
  match s with
  | EmptyString => [part]
  | String c s' =>
      if Ascii.eqb c sep then part :: split_from sep EmptyString s'
      else split_from sep (part ++ String c EmptyString) s'
  end.

Definition split (sep : ascii) (s : string) : list string := split_from sep EmptyString s.

(** [l[-2]] *)
Definition second_last {A : Type} (l : list A) : result A :=
  match List.rev l with
  | _ :: x :: _ => Ok x
  | _ => Raise IndexError
  end.

(** The pattern [agent] followed by its group of digits, possibly none,
    matched at the start of [s]; the value is the group. *)
Definition match_agent_here (s : string) : option string :=
  match s with
  | String c1 (String c2 (String c3 (String c4 (String c5 rest)))) =>
      if Ascii.eqb c1 "a" && Ascii.eqb c2 "g" && Ascii.eqb c3 "e" && Ascii.eqb c4 "n"
         && Ascii.eqb c5 "t"
      then Some (take_digits rest)
      else None
  | _ => None
  end.

(** [re.search] for that pattern in [s]: the leftmost match; the value is
    [group(1)]. *)
Fixpoint re_search_agent (s : string) : option string :=
  match match_agent_here s with
  | Some d => Some d
  | None =>
      match s with
      | EmptyString => None
      | String _ s' => re_search_agent s'
      end
  end.

(** Line 488: [int(] group 1 of that search in [file] [) - 1] *)
Definition agent_index (file : string) : result Z :=
  match re_search_agent file with
  | None => Raise AttributeError
  | Some d =>
      match py_int d with
      | None => Raise ValueError
      | Some n => Ok (n - 1)
      end
  end.

(** What the first loop of [graph] has set: [None] where it has not
    assigned the attribute. *)
Record found : Type := Found {
  paramfile : option string;
  scoresfile : option string;
  loss_list : list string
}.

(** Lines 480-486 of [graph]: one entry of [os.listdir(self.log_dir)]. *)
Definition classify (log_dir : string) (st : found) (file : string) : found :=
  let file := replace_char "\" "/" (os_path_join log_dir file) in
  if ends_with "_LOG.txt" file then Found (Some file) (scoresfile st) (loss_list st)
  else if ends_with "_scores.txt" file then Found (paramfile st) (Some file) (loss_list st)
  else if ends_with "loss.txt" file
  then Found (paramfile st) (scoresfile st) (loss_list st ++ [file])
  else st.

(** Lines 488-492 of [graph]: one loss file, appended to the list of its
    agent, which is created when missing. *)
Definition file_loss (lossfiles : gmap Z (list string)) (file : string)
    : result (gmap Z (list string)) :=
  idx ← agent_index file;
  Ok (<[idx := (default [] (lossfiles !! idx) ++ [file])%list]> lossfiles).

Fixpoint each_loss (files : list string) (lossfiles : gmap Z (list string))
    : result (gmap Z (list string)) :=
  match files with
  | [] => Ok lossfiles
  | file :: rest => lossfiles ← file_loss lossfiles file; each_loss rest lossfiles
  end.

(** What [graph] has prepared when it calls [load_logs]. *)
Record prepared : Type := Prepared {
  log_dir : string;
  filename : string;
  framework : string;
  files : found;
  lossfiles : gmap Z (list string)
}.

(** Lines 473-492 of [graph(logdir)] with a [logdir]; [listing] is
    [os.listdir(logdir)] and [lossfiles0] the [self.lossfiles] of before. *)
Definition graph (logdir : string) (listing : list string)
    (lossfiles0 : gmap Z (list string)) : result prepared :=
  filename ← second_last (split "/" logdir);
  let framework := hd EmptyString (split "_" filename) in
  let st := fold_left (classify logdir) listing (Found None None []) in
  lossfiles ← each_loss (loss_list st) lossfiles0;
  Ok (Prepared logdir filename framework st lossfiles).

End LoggerGraph.

(** ** The smoothing over an arithmetic *)

(** [_moving_avg] once more, over the arithmetic it runs on: the scalar
    operations it writes down and the two reductions numpy performs for it.
    Which terms a reduction adds first is numpy's affair (pairwise summation,
    a BLAS or SIMD kernel), so the reductions are operations of the
    arithmetic like the division. *)
Module Smooth.

Record arith (F : Type) : Type := Arith {
  one : F;
  (** [float(n)] of a length *)
  of_nat : nat -> F;
  div : F -> F -> F;
  (** [np.add.reduce(a)], the sum [a.mean()] divides *)
  add_reduce : list F -> F;
  (** the inner product of two arrays of one length, as [np.convolve]
      takes it at each position *)
  dot : list F -> list F -> F
}.
Arguments one {F}.
Arguments of_nat {F}.
Arguments div {F}.
Arguments add_reduce {F}.
Arguments dot {F}.

Section Over.
Context {F : Type} (A : arith F).

(** [a.mean()] *)
Definition mean (a : list F) : F :=
  div A (add_reduce A a) (of_nat A (List.length a)).

(** [np.ones(w) / w] *)
Definition uniform_window (w : nat) : list F := repeat (div A (one A) (of_nat A w)) w.

(** [np.pad(data, width, mode="mean", stat_length=stat)] on a non-empty
    one-dimensional array: [width] copies of the mean of the first [stat]
    values in front, [width] copies of the mean of the last [stat] values
    behind; [stat] is cut down to the length of the data. *)
Definition pad_mean (data : list F) (width stat : nat) : list F :=
  let n := List.length data in
  let k := Nat.min stat n in
  let left := mean (firstn k data) in
  let right := mean (skipn (n - k) data) in
  repeat left width ++ data ++ repeat right width.

(** Entry [k] of [multiarray.correlate(a, v, 'same')] for [a] at least as
    long as [v]: the inner product of [v] with the stretch of [a] that
    starts [len(v) // 2] entries before [k], both cut to where they
    overlap. *)
Definition correlate_at (a v : list F) (k : nat) : F :=
  let n_left := (List.length v / 2)%nat in
  let lo := (n_left - k)%nat in
  let xs := firstn (List.length v - lo) (skipn (k - n_left) a) in
  dot A xs (firstn (List.length xs) (skipn lo v)).

Definition correlate_same (a v : list F) : list F :=
  map (correlate_at a v) (seq 0 (List.length a)).

(** [np.convolve(a, v, 'same')]: the longer argument comes first, empty
    arguments are refused, and the result is
    [multiarray.correlate(a, v[::-1], 'same')]. *)
Definition convolve_same (a v : list F) : result (list F) :=
  match a, v with
  | [], _ | _, [] => Raise ValueError
  | _, _ =>
      let (a, v) := if (List.length a <? List.length v)%nat then (v, a) else (a, v) in
      Ok (correlate_same a (rev v))
  end.

(** [_moving_avg(data, avg_across)] for an [avg_across] that is an integer
    already, so that [int(avg_across)] is [avg_across]. [np.ones] refuses a
    negative length, [np.convolve] an empty window and [np.pad] an empty
    array. *)
Definition _moving_avg (data : list F) (avg_across : Z) : result (list F) :=
  if avg_across <? 0 then Raise ValueError
  else
    let w := Z.to_nat avg_across in
    let window := uniform_window w in
    match data, w with
    | [], S _ => Raise ValueError
    | _, _ =>
        let data := pad_mean data w 10 in
        same ← convolve_same data window;
        Ok (Np.trim w same)
    end.

End Over.

(** The exact arithmetic of the rationals; the order of a reduction makes no
    difference to its value. *)
Definition exact : arith Qc :=
  Arith Qc 1%Qc Np.of_nat Qcdiv
    (fun a => fold_left Qcplus a 0%Qc)
    (fun a v => fold_left Qcplus (zip_with Qcmult a v) 0%Qc).

(** The arithmetic of [numpy.float64]: IEEE 754 binary64, every operation
    rounded to nearest, ties to even. The reductions add in index order and
    round each product and each sum, as the plain loops of numpy do; a build
    that sums pairwise or calls a BLAS kernel may round other partial sums.
    Lengths stay below [2^53] and convert exactly. *)
Definition binary64 : arith PrimFloat.float :=
  Arith PrimFloat.float PrimFloat.one
    (fun n => PrimFloat.of_uint63 (Uint63.of_Z (Z.of_nat n)))
    PrimFloat.div
    (fun a => fold_left PrimFloat.add a PrimFloat.zero)
    (fun a v => fold_left PrimFloat.add (zip_with PrimFloat.mul a v) PrimFloat.zero).

End Smooth.

(** * Properties *)

(** ** Helpers on lists and results *)

Lemma comprehension_ok {A B : Type} (f : A -> result B) (g : A -> B) (l : list A) :
  (forall a, In a l -> f a = Ok (g a)) -> comprehension f l = Ok (map g l).
Proof.
  induction l as [|a l IH]; intros Hf; simpl.
  - reflexivity.
  - rewrite (Hf a) by (left; reflexivity). simpl.
    rewrite IH by (intros b Hb; apply Hf; right; exact Hb).
    reflexivity.
Qed.

Lemma fold_left_max_init (l : list Z) (x : Z) : x <= fold_left Z.max l x.
Proof.
  revert x. induction l as [|z l IH]; intros x; simpl.
  - lia.
  - specialize (IH (Z.max x z)). lia.
Qed.

Lemma fold_left_max_ge (l : list Z) (x y : Z) :
  In y (x :: l) -> y <= fold_left Z.max l x.
Proof.
  revert x. induction l as [|z l IH]; intros x Hy.
  - destruct Hy as [->|[]]. simpl. lia.
  - simpl. destruct Hy as [->|[->|Hy]].
    + pose proof (fold_left_max_init l (Z.max y z)). lia.
    + pose proof (fold_left_max_init l (Z.max x y)). lia.
    + apply IH. right. exact Hy.
Qed.

Lemma fold_left_max_in (l : list Z) (x : Z) : In (fold_left Z.max l x) (x :: l).
Proof.
  revert x. induction l as [|z l IH]; intros x; simpl.
  - left. reflexivity.
  - destruct (IH (Z.max x z)) as [H|H].
    + destruct (Z.max_spec x z) as [[_ E]|[_ E]]; rewrite E in H |- *.
      * right. left. exact H.
      * left. exact H.
    + right. right. exact H.
Qed.

Lemma append_assoc (a b c : string) : (a ++ b) ++ c = a ++ b ++ c.
Proof.
  induction a as [|x a IH]; [reflexivity|].
  change (String x ((a ++ b) ++ c) = String x (a ++ b ++ c)). f_equal. exact IH.
Qed.

Lemma append_empty_r (a : string) : a ++ EmptyString = a.
Proof.
  induction a as [|x a IH]; [reflexivity|].
  change (String x (a ++ EmptyString) = String x a). f_equal. exact IH.
Qed.

(** ** Version numbers of save directories *)

Section Versioning.
Import Str Saver.

(** The number [generate_savename] reads off an entry. *)
Definition version_read (f : string) : option Z :=
  option_map (int_digits 0) (re_search_v f).

Lemma next_version_empty (base : string) (listing : list string) :
  filter (contains base) listing = [] -> next_version base listing = Ok 1.
Proof.
  intros E. unfold next_version. rewrite E. reflexivity.
Qed.

Lemma next_version_some (base : string) (listing : list string) (f0 : string) (fs : list string) :
  filter (contains base) listing = f0 :: fs ->
  (forall f, In f (f0 :: fs) -> is_Some (re_search_v f)) ->
  exists v0 vs,
    comprehension version_of (f0 :: fs) = Ok (v0 :: vs)
    /\ (forall f, In f (f0 :: fs) -> exists v, version_read f = Some v /\ In v (v0 :: vs))
    /\ (forall v, In v (v0 :: vs) -> exists f, In f (f0 :: fs) /\ version_read f = Some v)
    /\ next_version base listing = Ok (fold_left Z.max vs v0 + 1).
Proof.
  intros E Hall.
  set (g := fun f => match re_search_v f with Some d => int_digits 0 d | None => 0 end).
  assert (Hg : forall f, In f (f0 :: fs) -> version_of f = Ok (g f) /\ version_read f = Some (g f)).
  { intros f Hf. destruct (Hall f Hf) as [d Hd].
    unfold version_of, version_read, g. rewrite Hd. split; reflexivity. }
  assert (Hc : comprehension version_of (f0 :: fs) = Ok (map g (f0 :: fs))).
  { apply comprehension_ok. intros f Hf. apply Hg, Hf. }
  exists (g f0), (map g fs). repeat split.
  - exact Hc.
  - intros f Hf. exists (g f). split; [apply Hg, Hf|].
    change (In (g f) (map g (f0 :: fs))). apply in_map, Hf.
  - intros v Hv. change (In v (map g (f0 :: fs))) in Hv.
    apply in_map_iff in Hv as [f [<- Hf]]. exists f. split; [exact Hf|apply Hg, Hf].
  - unfold next_version. rewrite E. cbn [List.length Nat.ltb Nat.leb].
    rewrite Hc. reflexivity.
Qed.

End Versioning.

(** ** Fresh names *)

Section Freshness.
Import Str.

(** Decimal digits only. *)
Fixpoint all_digits (s : string) : bool :=
  match s with
  | EmptyString => true
  | String c s' => is_digit c && all_digits s'
  end.

Lemma int_digits_acc (d : Decimal.uint) (p : positive) :
  int_digits (Z.pos p) (NilEmpty.string_of_uint d) = Z.pos (Pos.of_uint_acc d p).
Proof.
  revert p. induction d as [|d IH|d IH|d IH|d IH|d IH|d IH|d IH|d IH|d IH|d IH]; intros p;
    cbn [NilEmpty.string_of_uint int_digits Pos.of_uint_acc]; [reflexivity|..];
    rewrite <- IH; f_equal; vm_compute (digit_val _); lia.
Qed.

Lemma int_digits_uint (d : Decimal.uint) :
  int_digits 0 (NilEmpty.string_of_uint d) = Z.of_N (Pos.of_uint d).
Proof.
  induction d as [|d IH|d IH|d IH|d IH|d IH|d IH|d IH|d IH|d IH|d IH];
    cbn [NilEmpty.string_of_uint int_digits Pos.of_uint]; [reflexivity|exact IH|..];
    apply int_digits_acc.
Qed.

Lemma all_digits_uint (d : Decimal.uint) : all_digits (NilEmpty.string_of_uint d) = true.
Proof.
  induction d; cbn [NilEmpty.string_of_uint all_digits]; [reflexivity|..]; exact IHd.
Qed.

Lemma str_int_pos (p : positive) :
  str_int (Z.pos p) = NilEmpty.string_of_uint (Pos.to_uint p).
Proof.
  unfold str_int. cbn [Z.to_int NilZero.string_of_int]. unfold NilZero.string_of_uint.
  pose proof (Unsigned.to_uint_nonnil p) as H.
  destruct (Pos.to_uint p); [contradiction|reflexivity..].
Qed.

Lemma int_digits_zeros (k : nat) (s : string) :
  int_digits 0 (zeros k ++ s) = int_digits 0 s.
Proof.
  induction k as [|k IH]; [reflexivity|]. exact IH.
Qed.

Lemma all_digits_app (a b : string) :
  all_digits a = true -> all_digits b = true -> all_digits (a ++ b) = true.
Proof.
  intros Ha Hb. induction a as [|c a IH]; [exact Hb|].
  cbn [all_digits] in Ha. apply andb_prop in Ha as [Hc Ha].
  change (is_digit c && all_digits (a ++ b) = true). rewrite Hc, (IH Ha). reflexivity.
Qed.

Lemma all_digits_zeros (k : nat) : all_digits (zeros k) = true.
Proof.
  induction k as [|k IH]; [reflexivity|]. exact IH.
Qed.

Lemma int_digits_nonneg (d : string) (acc : Z) : 0 <= acc -> 0 <= int_digits acc d.
Proof.
  revert acc. induction d as [|c d IH]; intros acc Hacc; cbn [int_digits]; [exact Hacc|].
  apply IH. unfold digit_val. lia.
Qed.

(** The three digits or more of a version: decimal digits only, at least
    one, and read back as the version. *)
Lemma format_03d_digits (ver : Z) :
  1 <= ver ->
  all_digits (format_03d ver) = true
  /\ format_03d ver <> EmptyString
  /\ int_digits 0 (format_03d ver) = ver.
Proof.
  intros Hver. destruct ver as [|p|p]; try lia.
  unfold format_03d, format_0d. cbn [Z.ltb Z.compare]. rewrite str_int_pos.
  split; [|split].
  - apply all_digits_app; [apply all_digits_zeros|apply all_digits_uint].
  - pose proof (Unsigned.to_uint_nonnil p) as H.
    destruct (zeros _); [|discriminate].
    destruct (Pos.to_uint p); [contradiction|discriminate..].
  - rewrite int_digits_zeros, int_digits_uint, Unsigned.of_to. reflexivity.
Qed.

Lemma take_digits_all (d : string) : all_digits d = true -> take_digits d = d.
Proof.
  induction d as [|c d IH]; intros H; [reflexivity|].
  cbn [all_digits] in H. apply andb_prop in H as [Hc Hd].
  cbn [take_digits]. rewrite Hc, (IH Hd). reflexivity.
Qed.

Lemma match_v_here_version (d : string) :
  all_digits d = true -> d <> EmptyString -> match_v_here ("_v" ++ d) = Some d.
Proof.
  intros Hd Hne. change (match_v_here (String "_" (String "v" d)) = Some d).
  cbn [match_v_here Ascii.eqb Bool.eqb andb]. rewrite (take_digits_all d Hd).
  destruct d; [contradiction|reflexivity].
Qed.

(** A match that does not start in [p] does not start there when a version
    follows either. *)
Lemma match_v_here_before (p d : string) :
  p <> EmptyString -> match_v_here p = None -> match_v_here (p ++ "_v" ++ d) = None.
Proof.
  intros Hne Hp. destruct p as [|c1 p]; [contradiction|].
  change (match_v_here (String c1 (p ++ "_v" ++ d)) = None).
  destruct p as [|c2 p].
  - change (match_v_here (String c1 (String "_" (String "v" d))) = None).
    cbn [match_v_here]. destruct (Ascii.eqb c1 "_"); reflexivity.
  - change (match_v_here (String c1 (String c2 (p ++ "_v" ++ d))) = None).
    cbn [match_v_here] in *.
    destruct (Ascii.eqb c1 "_" && Ascii.eqb c2 "v"); [|reflexivity].
    destruct p as [|c3 p].
    + reflexivity.
    + change (match take_digits (String c3 (p ++ "_v" ++ d)) with
              | EmptyString => None | String a s => Some (String a s) end = None).
      cbn [take_digits] in *. destruct (is_digit c3); [discriminate Hp|reflexivity].
Qed.

Lemma re_search_v_version (p d : string) :
  re_search_v p = None -> all_digits d = true -> d <> EmptyString ->
  re_search_v (p ++ "_v" ++ d) = Some d.
Proof.
  intros Hp Hd Hne. induction p as [|c p IH].
  - change (re_search_v ("_v" ++ d) = Some d).
    change (match match_v_here ("_v" ++ d) with
            | Some x => Some x
            | None => re_search_v (String "v" d)
            end = Some d).
    rewrite (match_v_here_version d Hd Hne). reflexivity.
  - cbn [re_search_v] in Hp.
    destruct (match_v_here (String c p)) eqn:Em; [discriminate Hp|].
    change (match match_v_here (String c p ++ "_v" ++ d) with
            | Some x => Some x
            | None => re_search_v (p ++ "_v" ++ d)
            end = Some d).
    rewrite (match_v_here_before (String c p) d) by (discriminate || exact Em).
    apply IH, Hp.
Qed.

Lemma prefix_append (a b : string) : String.prefix a (a ++ b) = true.
Proof.
  induction a as [|c a IH]; [destruct b; reflexivity|].
  change (String.prefix (String c a) (String c (a ++ b)) = true).
  cbn [String.prefix]. destruct (ascii_dec c c); [exact IH|contradiction].
Qed.

Lemma contains_append (a b : string) : contains a (a ++ b) = true.
Proof.
  destruct (a ++ b) eqn:E; cbn [contains]; rewrite <- E, prefix_append; reflexivity.
Qed.

Import Saver.

Lemma next_version_bound (base : string) (listing : list string) :
  (forall f, In f listing -> contains base f = true -> is_Some (re_search_v f)) ->
  exists ver, next_version base listing = Ok ver
              /\ 1 <= ver
              /\ forall f v, In f listing -> contains base f = true ->
                             version_read f = Some v -> v < ver.
Proof.
  intros Hall. destruct (filter (contains base) listing) as [|f0 fs] eqn:E.
  - exists 1. split; [apply next_version_empty, E|]. split; [lia|].
    intros f v Hf Hc _. exfalso.
    assert (Hin : In f (filter (contains base) listing)) by (apply filter_In; auto).
    rewrite E in Hin. exact Hin.
  - destruct (next_version_some base listing f0 fs E) as (v0 & vs & _ & Hfw & Hbw & Hn).
    { intros f Hf. rewrite <- E in Hf. apply filter_In in Hf as [Hf Hc]. apply Hall; auto. }
    exists (fold_left Z.max vs v0 + 1). split; [exact Hn|]. split.
    + destruct (Hbw v0) as (f & _ & Hv); [left; reflexivity|].
      unfold version_read in Hv. destruct (re_search_v f) as [d|]; [|discriminate Hv].
      injection Hv as <-.
      pose proof (int_digits_nonneg d 0 ltac:(lia)).
      pose proof (fold_left_max_init vs (int_digits 0 d)). lia.
    + intros f v Hf Hc Hv.
      assert (Hin : In f (f0 :: fs)) by (rewrite <- E; apply filter_In; auto).
      destruct (Hfw f Hin) as (v' & Hv' & Hin'). rewrite Hv in Hv'. injection Hv' as <-.
      pose proof (fold_left_max_ge vs v0 v Hin'). lia.
Qed.

(** X1: the name [generate_savename] returns is not yet in the save
    directory, when no [_v<digits>] occurs in the prefix and date themselves
    and every entry that contains the base name carries a version. *)
Lemma generate_savename_fresh (prefix save_dir timestamp : string)
    (top : option (list entry)) :
  re_search_v (prefix ++ "_" ++ timestamp) = None ->
  (forall f, In f (os_listdir (check_dir top)) ->
             contains (base_name_of prefix timestamp) f = true -> is_Some (re_search_v f)) ->
  exists path filename,
    snd (generate_savename prefix save_dir timestamp top) = Ok (path, filename)
    /\ ~ In filename (os_listdir (check_dir top)).
Proof.
  intros Hclean Hall.
  destruct (next_version_bound _ _ Hall) as (ver & Hn & Hver & Hlt).
  destruct (format_03d_digits ver Hver) as (Hd & Hne & Hint).
  unfold generate_savename. cbn [snd]. rewrite Hn.
  eexists; eexists. split; [reflexivity|].
  intros Hin.
  assert (Hbase : base_name_of prefix timestamp = (prefix ++ "_" ++ timestamp) ++ "_v").
  { unfold base_name_of. rewrite !append_assoc. reflexivity. }
  apply (Z.lt_irrefl ver).
  apply (Hlt (base_name_of prefix timestamp ++ format_03d ver) ver Hin).
  - apply contains_append.
  - unfold version_read. rewrite Hbase, append_assoc.
    rewrite (re_search_v_version _ _ Hclean Hd Hne). cbn [option_map]. rewrite Hint.
    reflexivity.
Qed.

(** With a prefix that itself holds a [_v<digits>], every entry reads as that
    version and the third run of a day is given the name of the second. *)
Lemma versioned_prefix_collides :
  snd (generate_savename "net_v1" "saves" "20240101"
         (Some [Dir "net_v1_20240101_v001" []; Dir "net_v1_20240101_v002" []]))
  = Ok ("saves/net_v1_20240101_v002", "net_v1_20240101_v002").
Proof.
  vm_compute. reflexivity.
Qed.
End Freshness.

(** ** The version a name ends in *)

Section TrailingVersions.
Import Str Saver.

(** A name carries the suffix [_v<digits>] with the version [v]: it ends in
    [_v] followed by one decimal digit or more, and [v] is their value. *)
Inductive trailing_version : string -> Z -> Prop :=
| trailing_version_intro (p d : string) :
    all_digits d = true -> d <> EmptyString ->
    trailing_version (p ++ "_v" ++ d) (int_digits 0 d).

(** An entry of an earlier run of the day: its name contains the date-stamped
    base name and carries the suffix. *)
Definition run_entry (base f : string) (v : Z) : Prop :=
  contains base f = true /\ trailing_version f v.

(** What the specification says of a call: a name is returned, it carries its
    version as suffix, that version exceeds the version of every entry of an
    earlier run, it is one more than one of them when there are any, and it
    is 1 when there is none. *)
Definition savename_spec (prefix save_dir timestamp : string) (top : option (list entry))
    : Prop :=
  let base := base_name_of prefix timestamp in
  let listing := os_listdir (check_dir top) in
  exists ver : Z,
    snd (generate_savename prefix save_dir timestamp top)
      = Ok (os_path_join save_dir (base ++ format_03d ver), base ++ format_03d ver)
    /\ trailing_version (base ++ format_03d ver) ver
    /\ (forall f v, In f listing -> run_entry base f v -> v < ver)
    /\ ((exists f v, In f listing /\ run_entry base f v) ->
        exists f v, In f listing /\ run_entry base f v /\ ver = v + 1)
    /\ ((forall f v, In f listing -> ~ run_entry base f v) -> ver = 1).

Lemma all_digits_mark (x y : string) : all_digits (x ++ "_v" ++ y) = false.
Proof.
  induction x as [|c x IH]; [reflexivity|].
  change (is_digit c && all_digits (x ++ "_v" ++ y) = false).
  rewrite IH. apply andb_false_r.
Qed.

(** The digits a name ends in after its last [_v] are determined by the
    name. *)
Lemma trailing_digits_unique (p p' d d' : string) :
  all_digits d = true -> all_digits d' = true ->
  p ++ "_v" ++ d = p' ++ "_v" ++ d' -> d = d'.
Proof.
  revert p'. induction p as [|c p IH]; intros p' Hd Hd' E.
  - change (String "_" (String "v" d) = p' ++ "_v" ++ d') in E.
    destruct p' as [|c' [|c'' q]].
    + change (String "_" (String "v" d) = String "_" (String "v" d')) in E.
      injection E as E. exact E.
    + change (String "_" (String "v" d) = String c' (String "_" (String "v" d'))) in E.
      discriminate E.
    + change (String "_" (String "v" d) = String c' (String c'' (q ++ "_v" ++ d'))) in E.
      injection E as _ _ E. rewrite E in Hd.
      rewrite (all_digits_mark q d') in Hd. discriminate Hd.
  - destruct p' as [|c' p'].
    + destruct p as [|c'' q].
      * change (String c (String "_" (String "v" d)) = String "_" (String "v" d')) in E.
        discriminate E.
      * change (String c (String c'' (q ++ "_v" ++ d)) = String "_" (String "v" d')) in E.
        injection E as _ _ E. rewrite <- E in Hd'.
        rewrite (all_digits_mark q d) in Hd'. discriminate Hd'.
    + change (String c (p ++ "_v" ++ d) = String c' (p' ++ "_v" ++ d')) in E.
      injection E as _ E. apply (IH p' Hd Hd' E).
Qed.

Lemma trailing_version_unique (p d : string) (v : Z) :
  all_digits d = true -> trailing_version (p ++ "_v" ++ d) v -> v = int_digits 0 d.
Proof.
  intros Hd Ht. inversion Ht as [p' d' Hd' Hne' E Hv].
  rewrite (trailing_digits_unique p' p d' d Hd' Hd E). reflexivity.
Qed.

(** The numbers [next_version] reads, when every entry whose name contains
    the base name has a [_v<digits>] part somewhere. *)
Lemma next_version_reads (base : string) (listing : list string) :
  (forall f, In f listing -> contains base f = true -> is_Some (re_search_v f)) ->
  exists ver, next_version base listing = Ok ver
    /\ 1 <= ver
    /\ (forall f v, In f listing -> contains base f = true ->
                    version_read f = Some v -> v < ver)
    /\ ((exists f, In f listing /\ contains base f = true) ->
        exists f v, In f listing /\ contains base f = true
                    /\ version_read f = Some v /\ ver = v + 1)
    /\ ((forall f, In f listing -> contains base f = false) -> ver = 1).
Proof.
  intros Hall. destruct (next_version_bound base listing Hall) as (ver & Hn & Hpos & Hgt).
  exists ver. split; [exact Hn|]. split; [exact Hpos|]. split; [exact Hgt|].
  destruct (filter (contains base) listing) as [|f0 fs] eqn:E.
  - rewrite (next_version_empty _ _ E) in Hn. injection Hn as <-. split; [|reflexivity].
    intros (f & Hf & Hc). exfalso.
    assert (Hin : In f (filter (contains base) listing)) by (apply filter_In; auto).
    rewrite E in Hin. exact Hin.
  - destruct (next_version_some base listing f0 fs E) as (v0 & vs & _ & _ & Hbw & Hn').
    { intros f Hf. rewrite <- E in Hf. apply filter_In in Hf as [Hf Hc]. apply Hall; auto. }
    rewrite Hn in Hn'. injection Hn' as ->. split.
    + intros _. destruct (Hbw _ (fold_left_max_in vs v0)) as (f & Hf & Hv).
      rewrite <- E in Hf. apply filter_In in Hf as [Hf Hc].
      exists f, (fold_left Z.max vs v0). repeat split; auto.
    + intros Hnone. exfalso.
      assert (Hin : In f0 (filter (contains base) listing)) by (rewrite E; left; reflexivity).
      apply filter_In in Hin as [Hf Hc]. rewrite (Hnone f0 Hf) in Hc. discriminate Hc.
Qed.

(** C1, for names that end in their version: when every entry of the save
    directory whose name contains the base name [<prefix>_<date>_v] is some
    text without a [_v<digits>] part followed by [_v] and digits to the end
    of the name, [generate_savename] returns a name that ends in its
    version, greater than the trailing version of each such entry, one more
    than the largest of them when there are any, and 1 when there is
    none. *)
Theorem generate_savename_trailing_version (prefix save_dir timestamp : string)
    (top : option (list entry)) :
  (forall f, In f (os_listdir (check_dir top)) ->
             contains (base_name_of prefix timestamp) f = true ->
             exists p d, f = p ++ "_v" ++ d /\ re_search_v p = None
                         /\ all_digits d = true /\ d <> EmptyString) ->
  savename_spec prefix save_dir timestamp top.
Proof.
  intros Hall.
  assert (Hread : forall f, In f (os_listdir (check_dir top)) ->
            contains (base_name_of prefix timestamp) f = true ->
            exists v, version_read f = Some v /\ trailing_version f v
                      /\ forall v', trailing_version f v' -> v' = v).
  { intros f Hf Hc. destruct (Hall f Hf Hc) as (p & d & -> & Hp & Hd & Hne).
    exists (int_digits 0 d). split; [|split].
    - unfold version_read. rewrite (re_search_v_version p d Hp Hd Hne). reflexivity.
    - constructor; assumption.
    - intros v' Hv'. apply (trailing_version_unique p d v' Hd Hv'). }
  assert (Hsome : forall f, In f (os_listdir (check_dir top)) ->
            contains (base_name_of prefix timestamp) f = true -> is_Some (re_search_v f)).
  { intros f Hf Hc. destruct (Hread f Hf Hc) as (v & Hv & _).
    unfold version_read in Hv. destruct (re_search_v f); [eexists; reflexivity|discriminate Hv]. }
  destruct (next_version_reads _ _ Hsome) as (ver & Hn & Hver & Hgt & Hmax & Hone).
  unfold savename_spec. cbv zeta. exists ver. split; [|split; [|split; [|split]]].
  - unfold generate_savename. cbn [snd]. rewrite Hn. reflexivity.
  - destruct (format_03d_digits ver Hver) as (Hd & Hne & Hv).
    unfold base_name_of.
    replace ((prefix ++ "_" ++ timestamp ++ "_v") ++ format_03d ver)
      with ((prefix ++ "_" ++ timestamp) ++ "_v" ++ format_03d ver)
      by (rewrite !append_assoc; reflexivity).
    rewrite <- Hv at 2. constructor; assumption.
  - intros f v Hf [Hc Ht].
    destruct (Hread f Hf Hc) as (v0 & Hv0 & _ & Huniq).
    rewrite (Huniq v Ht). apply (Hgt f v0 Hf Hc Hv0).
  - intros (f & v & Hf & Hc & Ht).
    destruct Hmax as (f' & v' & Hf' & Hc' & Hv' & ->).
    { exists f. split; assumption. }
    exists f', v'. split; [exact Hf'|]. split; [|reflexivity].
    split; [exact Hc'|].
    destruct (Hread f' Hf' Hc') as (v0 & Hv0 & Ht0 & _).
    rewrite Hv' in Hv0. injection Hv0 as ->. exact Ht0.
  - intros Hnone. apply Hone. intros f Hf.
    destruct (contains (base_name_of prefix timestamp) f) eqn:Hc; [|reflexivity].
    exfalso. destruct (Hread f Hf Hc) as (v0 & _ & Ht0 & _).
    apply (Hnone f v0 Hf). split; assumption.
Qed.

Lemma generate_savename_trailing_version_witness :
  savename_spec "MAD4PG" "saves" "20240101"
    (Some [Dir "MAD4PG_20240101_v001" []; Dir "MAD4PG_20240101_v007" []; File "notes.txt" 0]).
Proof.
  apply generate_savename_trailing_version.
  intros f Hf Hc. cbn in Hf.
  destruct Hf as [<-|[<-|[<-|[]]]].
  - exists "MAD4PG_20240101", "001". repeat split; discriminate.
  - exists "MAD4PG_20240101", "007". repeat split; discriminate.
  - discriminate Hc.
Defined.

(** C1, as stated, fails: with an entry that contains the base name and has
    no digits after its [_v], no entry carries a [_v<digits>] suffix, yet no
    name with version 1 comes back: the call raises. *)
Lemma generate_savename_unversioned_entry :
  ~ savename_spec "MAD4PG" "saves" "20240101" (Some [Dir "MAD4PG_20240101_vX" []]).
Proof.
  intros (ver & Hret & _).
  assert (E : snd (generate_savename "MAD4PG" "saves" "20240101"
                     (Some [Dir "MAD4PG_20240101_vX" []])) = Raise AttributeError)
    by (vm_compute; reflexivity).
  rewrite E in Hret. discriminate Hret.
Qed.

End TrailingVersions.

(** ** Two runs on the same day *)

Section TwoRuns.
Import Str Saver.

(** A training run: neither [--resume] nor [--eval]. *)
Definition training_args : Args.t := Args.Make false false "saves" 1000 false 15 10 100.

(** A run that saves: against an empty save directory and the prefix
    [MAD4PG] on 2024-01-01, [generate_savename] returns
    [MAD4PG_20240101_v001]; once that run's [_save] has created its
    directory, a fresh [Saver] on the same day gets [MAD4PG_20240101_v002], a
    name the save directory does not hold yet. *)
Lemma savename_after_save (agent_count : nat) (now : Z) (save_name mssg : string)
    (c0 c1 c2 : console) :
  snd (generate_savename "MAD4PG" "saves" "20240101" (Some []))
    = Ok ("saves/MAD4PG_20240101_v001", "MAD4PG_20240101_v001")
  /\ exists (first : Saver.t) (c0' : console),
       Saver.__init__ "MAD4PG" agent_count training_args "20240101" (Some []) c0
         = (Some [], c0', Ok first)
       /\ filename first = "MAD4PG_20240101_v001"
       /\ exists saved : list entry,
            fst (_save first agent_count save_name mssg now [] c1) = saved
            /\ os_listdir saved = ["MAD4PG_20240101_v001"]
            /\ snd (generate_savename "MAD4PG" "saves" "20240101" (Some saved))
                 = Ok ("saves/MAD4PG_20240101_v002", "MAD4PG_20240101_v002")
            /\ exists (second : Saver.t) (c2' : console),
                 Saver.__init__ "MAD4PG" agent_count training_args "20240101" (Some saved) c2
                   = (Some saved, c2', Ok second)
                 /\ filename second = "MAD4PG_20240101_v002"
                 /\ ~ In (filename second) (os_listdir saved).
Proof.
  split; [vm_compute; reflexivity|].
  eexists; eexists. split; [reflexivity|]. split; [reflexivity|].
  eexists. split; [reflexivity|].
  assert (Hl : os_listdir (fst (_save (Make ".agent" "saves/MAD4PG_20240101_v001"
                                         "MAD4PG_20240101_v001" [])
                                  agent_count save_name mssg now [] c1))
               = ["MAD4PG_20240101_v001"]) by reflexivity.
  split; [exact Hl|].
  assert (Hg : snd (generate_savename "MAD4PG" "saves" "20240101"
                      (Some (fst (_save (Make ".agent" "saves/MAD4PG_20240101_v001"
                                            "MAD4PG_20240101_v001" [])
                                     agent_count save_name mssg now [] c1))))
               = Ok ("saves/MAD4PG_20240101_v002", "MAD4PG_20240101_v002")).
  { unfold generate_savename. cbn [snd check_dir]. rewrite Hl. vm_compute. reflexivity. }
  split; [exact Hg|].
  unfold Saver.__init__.
  cbn [_get_agent_file training_args Args.resume Args.eval orb Args.save_dir].
  destruct (generate_savename "MAD4PG" "saves" "20240101"
              (Some (fst (_save (Make ".agent" "saves/MAD4PG_20240101_v001"
                                    "MAD4PG_20240101_v001" [])
                             agent_count save_name mssg now [] c1)))) as [children r] eqn:E.
  cbn [snd] in Hg. subst r.
  assert (Hc : children = fst (_save (Make ".agent" "saves/MAD4PG_20240101_v001"
                                        "MAD4PG_20240101_v001" [])
                                 agent_count save_name mssg now [] c1)).
  { pose proof (f_equal fst E) as E1. symmetry. exact E1. }
  subst children.
  eexists; eexists. split; [reflexivity|]. split; [reflexivity|].
  intros Hin. change (In "MAD4PG_20240101_v002" ["MAD4PG_20240101_v001"]) in Hin.
  destruct Hin as [H|[]]. discriminate H.
Qed.

End TwoRuns.

(** ** The early cutoff of the episode loop *)

Section EpisodeLoop.
Import Main.

(** Whether a run of the loop ended through the [break] of line 94. *)
Definition ended_by_cutoff (r : files * result (loop_end * Logger.t * list env_step)) : bool :=
  match r with
  | (_, Ok (Break_cutoff, _, _)) => true
  | _ => false
  end.

(** No step before the end reported a done flag. *)
Definition none_done (steps : list env_step) : Prop :=
  Forall (fun s => existsb id (dones s) = false) steps.

Lemma cutoff_false (rewards : list Qc) : cutoff rewards = false.
Proof.
  unfold cutoff. destruct (Np.any rewards); reflexivity.
Qed.

Lemma episode_not_cutoff (str_float : Qc -> string) (trace : list env_step)
    (L : Logger.t) (fs : files) :
  ended_by_cutoff (episode str_float trace L fs) = false.
Proof.
  revert L fs. induction trace as [|s rest IH]; intros L fs; simpl.
  - reflexivity.
  - destruct (Logger.log str_float (rewards s) (Some (multi_agent s)) L fs) as [fs' [L'|e]].
    + destruct (existsb id (dones s)); [reflexivity|].
      rewrite cutoff_false. apply IH.
    + reflexivity.
Qed.

Lemma episode_break_done (str_float : Qc -> string) (trace : list env_step)
    (L : Logger.t) (fs : files) (fs' : files) (L' : Logger.t) (rest : list env_step) :
  episode str_float trace L fs = (fs', Ok (Break_done, L', rest)) ->
  exists pre s, trace = (pre ++ s :: rest)%list /\ none_done pre /\ existsb id (dones s) = true.
Proof.
  revert L fs. induction trace as [|s tl IH]; intros L fs H; simpl in H.
  - discriminate H.
  - destruct (Logger.log str_float (rewards s) (Some (multi_agent s)) L fs) as [fs1 [L1|e]];
      [|discriminate H].
    destruct (existsb id (dones s)) eqn:Hd.
    + injection H as _ _ <-. exists [], s. repeat split; [constructor|exact Hd].
    + rewrite cutoff_false in H. destruct (IH _ _ H) as (pre & s' & -> & Hpre & Hs').
      exists (s :: pre), s'. repeat split; [constructor; assumption|exact Hs'].
Qed.

(** C3: the condition of line 93, [np.any(logger.rewards) > 1], is false for
    every rewards vector; the loop of [train] never leaves through the
    cutoff, and when it leaves through a [break] a done flag was reported at
    that step and at no step before. *)
Theorem cutoff_never_taken :
  (forall rewards : list Qc, cutoff rewards = false)
  /\ (forall str_float trace L fs, ended_by_cutoff (episode str_float trace L fs) = false)
  /\ (forall str_float trace L fs fs' e L' rest,
        episode str_float trace L fs = (fs', Ok (e, L', rest)) ->
        e <> Running ->
        e = Break_done
        /\ exists pre s, trace = (pre ++ s :: rest)%list /\ none_done pre
                         /\ existsb id (dones s) = true).
Proof.
  split; [exact cutoff_false|]. split; [exact episode_not_cutoff|].
  intros str_float trace L fs fs' e L' rest H He.
  destruct e.
  - split; [reflexivity|]. eapply episode_break_done; exact H.
  - pose proof (episode_not_cutoff str_float trace L fs) as Hn.
    rewrite H in Hn. discriminate Hn.
  - exfalso. apply He. reflexivity.
Qed.

End EpisodeLoop.

(** ** The moving average *)

Section MovingAverage.
Import Np.

Lemma int_of_Z (w : Z) : Np.int (of_Z w) = w.
Proof.
  unfold Np.int, of_Z, Q2Qc. cbn [this]. rewrite inject_Z_Qred. cbn. apply Z.quot_1_r.
Qed.

Lemma length_pad_mean (data : list Qc) (width stat : nat) :
  List.length (pad_mean data width stat) = (width + List.length data + width)%nat.
Proof.
  unfold pad_mean. rewrite !length_app, !repeat_length. lia.
Qed.

Lemma length_uniform_window (w : nat) : List.length (uniform_window w) = w.
Proof. apply repeat_length. Qed.

Lemma convolve_same_long (a v : list Qc) :
  (0 < List.length v)%nat -> (List.length v <= List.length a)%nat ->
  convolve_same a v
  = Ok (firstn (List.length a)
          (skipn (List.length v - 1 - List.length v / 2) (convolve_full a v))).
Proof.
  intros Hv Hav. unfold convolve_same.
  destruct a as [|x a]; [simpl in *; lia|].
  destruct v as [|y v]; [simpl in *; lia|].
  destruct (Nat.ltb_spec (List.length (x :: a)) (List.length (y :: v))) as [H|H]; [lia|].
  reflexivity.
Qed.

(** Where the trimmed curve starts in the full convolution. *)
Definition curve_start (w : nat) : nat := (w - 1 - w / 2 + w)%nat.

Lemma trim_same_slice (g : nat -> Qc) (n w : nat) :
  (0 < w)%nat ->
  trim w (firstn (w + n + w) (skipn (w - 1 - w / 2) (map g (seq 0 (w + n + w + w - 1)))))
  = map g (seq (curve_start w) n).
Proof.
  intros Hw. unfold trim, curve_start. destruct w as [|k]; [lia|].
  set (w := S k) in *. set (off := (w - 1 - w / 2)%nat).
  rewrite skipn_map, skipn_seq, firstn_map, take_seq.
  rewrite length_map, length_seq, skipn_map, skipn_seq, firstn_map, take_seq.
  f_equal. f_equal; lia.
Qed.

Lemma moving_avg_unfold (data : list Qc) (w : Z) :
  data <> [] -> 1 <= w ->
  Logger._moving_avg data (of_Z w)
  = (same ← convolve_same (pad_mean data (Z.to_nat w) 10) (uniform_window (Z.to_nat w));
     Ok (trim (Z.to_nat w) same)).
Proof.
  intros Hd Hw. unfold Logger._moving_avg. rewrite int_of_Z.
  destruct (Z.ltb_spec w 0) as [H|_]; [lia|].
  destruct data as [|x data]; [contradiction|].
  destruct (Z.to_nat w) as [|k] eqn:EW; [lia|]. reflexivity.
Qed.

Lemma moving_avg_slice (data : list Qc) (w : Z) :
  data <> [] -> 1 <= w ->
  Logger._moving_avg data (of_Z w)
  = Ok (map (conv_at (pad_mean data (Z.to_nat w) 10) (uniform_window (Z.to_nat w)))
            (seq (curve_start (Z.to_nat w)) (List.length data))).
Proof.
  intros Hd Hw. rewrite (moving_avg_unfold _ _ Hd Hw).
  assert (HW : (0 < Z.to_nat w)%nat) by lia.
  rewrite convolve_same_long
    by (rewrite ?length_uniform_window, ?length_pad_mean; lia).
  cbn [mbind result_bind]. f_equal.
  unfold convolve_full. rewrite length_uniform_window, length_pad_mean.
  apply trim_same_slice. exact HW.
Qed.

Lemma of_Z_plus (a b : Z) : of_Z (a + b) = (of_Z a + of_Z b)%Qc.
Proof.
  unfold of_Z. apply Qc_is_canon. unfold Qcplus. cbn [this Q2Qc].
  rewrite !Qred_correct, inject_Z_plus. reflexivity.
Qed.

Lemma of_nat_S (k : nat) : of_nat (S k) = (of_nat k + 1)%Qc.
Proof.
  unfold of_nat. rewrite Nat2Z.inj_succ, <- Z.add_1_r. apply of_Z_plus.
Qed.

Lemma of_nat_nonzero (k : nat) : (0 < k)%nat -> of_nat k <> 0%Qc.
Proof.
  intros Hk E. unfold of_nat, of_Z in E.
  apply (f_equal this) in E. cbn [this Q2Qc] in E. rewrite inject_Z_Qred in E.
  injection E as E. lia.
Qed.

Lemma sum_repeat (c : Qc) (k : nat) : sum (repeat c k) = (of_nat k * c)%Qc.
Proof.
  induction k as [|k IH].
  - change (0%Qc = (0 * c)%Qc). ring.
  - cbn [repeat sum fold_right]. fold (sum (repeat c k)). rewrite IH, of_nat_S. ring.
Qed.

Lemma mean_repeat (c : Qc) (k : nat) : (0 < k)%nat -> mean (repeat c k) = c.
Proof.
  intros Hk. unfold mean. rewrite sum_repeat, repeat_length.
  field. apply of_nat_nonzero, Hk.
Qed.

Lemma firstn_repeat {A : Type} (x : A) (k n : nat) :
  firstn k (repeat x n) = repeat x (Nat.min k n).
Proof.
  revert n. induction k as [|k IH]; intros [|n]; cbn; try reflexivity.
  f_equal. apply IH.
Qed.

Lemma skipn_repeat {A : Type} (x : A) (k n : nat) :
  skipn k (repeat x n) = repeat x (n - k).
Proof.
  revert n. induction k as [|k IH]; intros [|n]; cbn; try reflexivity.
  apply IH.
Qed.

Lemma pad_mean_constant (c : Qc) (n width stat : nat) :
  (0 < n)%nat -> (0 < stat)%nat ->
  pad_mean (repeat c n) width stat = repeat c (width + n + width).
Proof.
  intros Hn Hs. unfold pad_mean. rewrite repeat_length.
  rewrite firstn_repeat, skipn_repeat.
  rewrite !mean_repeat by lia.
  rewrite !repeat_app, <- app_assoc. reflexivity.
Qed.

Lemma sum_imap_repeat (f : nat -> Qc -> Qc) (u t : Qc) (w : nat) :
  (forall i, (i < w)%nat -> f i u = t) ->
  sum (imap f (repeat u w)) = (of_nat w * t)%Qc.
Proof.
  revert f. induction w as [|w IH]; intros f Hf.
  - change (0%Qc = (0 * t)%Qc). ring.
  - cbn [repeat]. rewrite imap_cons. cbn [sum fold_right].
    fold (sum (imap (f ∘ S) (repeat u w))).
    rewrite (IH (f ∘ S)) by (intros i Hi; apply Hf; lia).
    rewrite Hf by lia. rewrite of_nat_S. ring.
Qed.

Lemma conv_at_constant (c : Qc) (len w j : nat) :
  (0 < w)%nat -> (w - 1 <= j)%nat -> (j < len)%nat ->
  conv_at (repeat c len) (uniform_window w) j = c.
Proof.
  intros Hw Hj Hlen. unfold conv_at, uniform_window.
  rewrite (sum_imap_repeat _ _ (1 / of_nat w * c)%Qc).
  - field. apply of_nat_nonzero, Hw.
  - intros i Hi. destruct (Nat.leb_spec i j) as [_|H]; [|lia].
    rewrite (nth_indep _ 0%Qc c) by (rewrite repeat_length; lia).
    rewrite nth_repeat. reflexivity.
Qed.

(** With rationals for floats, [_moving_avg] applied to a non-empty constant
    sequence with a window [w >= 1] returns that sequence. *)
Lemma moving_avg_constant_rational (c : Qc) (n : nat) (w : Z) :
  (0 < n)%nat -> 1 <= w ->
  Logger._moving_avg (repeat c n) (of_Z w) = Ok (repeat c n).
Proof.
  intros Hn Hw.
  assert (Hd : repeat c n <> []) by (destruct n; [lia|discriminate]).
  rewrite (moving_avg_slice _ _ Hd Hw).
  f_equal. rewrite repeat_length, pad_mean_constant by lia.
  transitivity (map (fun _ : nat => c) (seq (curve_start (Z.to_nat w)) n)).
  - apply map_ext_in. intros j Hj. apply in_seq in Hj. unfold curve_start in Hj.
    apply conv_at_constant; lia.
  - rewrite map_const, length_seq. reflexivity.
Qed.

End MovingAverage.

(** ** The smoothing, element by element *)

Section Smoothing.
Import Smooth.
Context {F : Type} (A : arith F).

(** The mean of the first, respectively last, [min(10, len)] values, written
    with the operations of the arithmetic. *)
Definition first_mean (data : list F) : F :=
  let k := Nat.min 10 (List.length data) in
  div A (add_reduce A (firstn k data)) (of_nat A k).

Definition last_mean (data : list F) : F :=
  let k := Nat.min 10 (List.length data) in
  div A (add_reduce A (skipn (List.length data - k) data)) (of_nat A k).

(** The sample at position [j] of the sequence continued to both sides:
    the value itself inside, the mean of the first values before the start
    and the mean of the last values after the end. *)
Definition sample (data : list F) (j : Z) : F :=
  if j <? 0 then first_mean data
  else match nth_error data (Z.to_nat j) with
       | Some x => x
       | None => last_mean data
       end.

(** The [w] samples under the window at position [i]: those from
    [i - w // 2] on. *)
Definition samples_at (data : list F) (w i : nat) : list F :=
  map (fun t => sample data (Z.of_nat i - Z.of_nat (w / 2) + Z.of_nat t)) (seq 0 w).

(** The uniform kernel of length [w]. *)
Definition kernel (w : nat) : list F := repeat (div A (one A) (of_nat A w)) w.

Lemma firstn_skipn_nth (l : list F) (d : F) (s w : nat) :
  (s + w <= List.length l)%nat ->
  firstn w (skipn s l) = map (fun t => nth (s + t) l d) (seq 0 w).
Proof.
  revert s w. induction l as [|x l IH]; intros s w Hlen.
  - cbn [List.length] in Hlen. assert (w = 0%nat) as -> by lia.
    rewrite firstn_O. reflexivity.
  - destruct s as [|s].
    + cbn [skipn]. destruct w as [|w]; [reflexivity|].
      cbn [firstn seq map]. f_equal.
      cbn [List.length] in Hlen.
      change l with (skipn 0 l) at 1. rewrite (IH 0%nat w) by lia.
      rewrite <- seq_shift, map_map. reflexivity.
    + cbn [skipn]. cbn [List.length] in Hlen. rewrite (IH s w) by lia. reflexivity.
Qed.

Lemma rev_repeat (x : F) (n : nat) : rev (repeat x n) = repeat x n.
Proof.
  induction n as [|n IH]; [reflexivity|].
  cbn [repeat rev]. rewrite IH. symmetry. apply repeat_cons.
Qed.

Lemma length_pad (data : list F) (width stat : nat) :
  List.length (pad_mean A data width stat) = (width + List.length data + width)%nat.
Proof.
  unfold pad_mean. rewrite !length_app, !repeat_length. lia.
Qed.

Lemma mean_first (data : list F) :
  mean A (firstn (Nat.min 10 (List.length data)) data) = first_mean data.
Proof.
  unfold mean, first_mean. cbv zeta. rewrite length_firstn.
  replace (Nat.min (Nat.min 10 (List.length data)) (List.length data))
    with (Nat.min 10 (List.length data)) by lia.
  reflexivity.
Qed.

Lemma mean_last (data : list F) :
  mean A (skipn (List.length data - Nat.min 10 (List.length data)) data) = last_mean data.
Proof.
  unfold mean, last_mean. cbv zeta. rewrite length_skipn.
  replace (List.length data - (List.length data - Nat.min 10 (List.length data)))%nat
    with (Nat.min 10 (List.length data)) by lia.
  reflexivity.
Qed.

Lemma nth_pad (data : list F) (d : F) (w j : nat) :
  (j < w + List.length data + w)%nat ->
  nth j (pad_mean A data w 10) d = sample data (Z.of_nat j - Z.of_nat w).
Proof.
  intros Hj. unfold pad_mean, sample. cbv zeta.
  rewrite mean_first, mean_last.
  destruct (Nat.lt_ge_cases j w) as [Hlt|Hge].
  - rewrite app_nth1 by (rewrite repeat_length; exact Hlt).
    rewrite nth_repeat_lt by exact Hlt.
    destruct (Z.ltb_spec (Z.of_nat j - Z.of_nat w) 0) as [_|H]; [reflexivity|lia].
  - rewrite app_nth2 by (rewrite repeat_length; exact Hge). rewrite repeat_length.
    destruct (Z.ltb_spec (Z.of_nat j - Z.of_nat w) 0) as [H|_]; [lia|].
    replace (Z.to_nat (Z.of_nat j - Z.of_nat w)) with (j - w)%nat by lia.
    destruct (Nat.lt_ge_cases (j - w) (List.length data)) as [Hin|Hout].
    + rewrite app_nth1 by exact Hin.
      rewrite (nth_error_nth' data d Hin). reflexivity.
    + rewrite app_nth2 by exact Hout.
      rewrite nth_repeat_lt by lia.
      assert (E : nth_error data (j - w) = None) by (apply nth_error_None; exact Hout).
      rewrite E. reflexivity.
Qed.

Lemma trim_map_seq (g : nat -> F) (n w : nat) :
  (0 < w)%nat -> Np.trim w (map g (seq 0 (w + n + w))) = map g (seq w n).
Proof.
  intros Hw. unfold Np.trim. destruct w as [|k]; [lia|].
  rewrite length_map, length_seq, skipn_map, skipn_seq, firstn_map, take_seq.
  f_equal. f_equal; lia.
Qed.

(** The entry of [correlate] at a position whose window lies inside the
    padded sequence. *)
Lemma correlate_at_inside (data : list F) (w i : nat) :
  (0 < w)%nat -> (i < List.length data)%nat ->
  correlate_at A (pad_mean A data w 10) (rev (uniform_window A w)) (w + i)
  = dot A (samples_at data w i) (kernel w).
Proof.
  intros Hw Hi. unfold correlate_at, uniform_window. rewrite rev_repeat, repeat_length.
  fold (kernel w).
  assert (Hhalf : (w / 2 <= w)%nat) by (apply Nat.Div0.div_le_upper_bound; lia).
  replace (w / 2 - (w + i))%nat with 0%nat by lia.
  rewrite Nat.sub_0_r. change (skipn 0 (kernel w)) with (kernel w).
  rewrite (firstn_skipn_nth _ (one A)) by (rewrite length_pad; lia).
  rewrite length_map, length_seq.
  rewrite firstn_all2 by (unfold kernel; rewrite repeat_length; lia).
  f_equal. unfold samples_at. apply map_ext_in. intros t Ht. apply in_seq in Ht.
  rewrite nth_pad by lia. f_equal. lia.
Qed.

Lemma convolve_same_longer (a v : list F) :
  (0 < List.length v)%nat -> (List.length v <= List.length a)%nat ->
  convolve_same A a v = Ok (correlate_same A a (rev v)).
Proof.
  intros Hv Hav. unfold convolve_same.
  destruct a as [|x a]; [simpl in *; lia|].
  destruct v as [|y v]; [simpl in *; lia|].
  destruct (Nat.ltb_spec (List.length (x :: a)) (List.length (y :: v))) as [H|H]; [lia|].
  reflexivity.
Qed.

Lemma seq_from (s n : nat) : seq s n = map (fun i => (s + i)%nat) (seq 0 n).
Proof.
  revert s. induction n as [|n IH]; intros s; [reflexivity|].
  cbn [seq map]. rewrite Nat.add_0_r. f_equal.
  rewrite (IH (S s)), <- seq_shift, map_map.
  apply map_ext. intros i. lia.
Qed.

(** Each element of the curve is the inner product of the uniform kernel
    with the samples under the window at its position. *)
Lemma moving_avg_elements (data : list F) (w : Z) :
  data <> [] -> 1 <= w ->
  _moving_avg A data w
  = Ok (map (fun i => dot A (samples_at data (Z.to_nat w) i) (kernel (Z.to_nat w)))
            (seq 0 (List.length data))).
Proof.
  intros Hd Hw. unfold _moving_avg.
  destruct (Z.ltb_spec w 0) as [H|_]; [lia|].
  assert (HW : (0 < Z.to_nat w)%nat) by lia.
  assert (E : match data, Z.to_nat w with
              | [], S _ => Raise ValueError
              | _, _ =>
                  same ← convolve_same A (pad_mean A data (Z.to_nat w) 10)
                                        (uniform_window A (Z.to_nat w));
                  Ok (Np.trim (Z.to_nat w) same)
              end
              = (same ← convolve_same A (pad_mean A data (Z.to_nat w) 10)
                                      (uniform_window A (Z.to_nat w));
                 Ok (Np.trim (Z.to_nat w) same))).
  { destruct data as [|x data]; [contradiction|]. destruct (Z.to_nat w); reflexivity. }
  cbv zeta. rewrite E. clear E.
  rewrite convolve_same_longer
    by (unfold uniform_window; rewrite ?repeat_length, ?length_pad; lia).
  cbn [mbind result_bind]. f_equal.
  unfold correlate_same. rewrite length_pad, trim_map_seq by exact HW.
  rewrite seq_from, map_map. apply map_ext_in. intros i Hi. apply in_seq in Hi.
  apply correlate_at_inside; lia.
Qed.

(** C5: for a non-empty sequence and an integer window [w >= 1],
    [_moving_avg] returns a curve as long as the sequence whose element at
    each position is the inner product of the uniform kernel of length [w]
    with the [w] samples under the window at that position, where the
    sequence is continued before its start by the mean of its first
    [min(10, len)] values and after its end by the mean of its last
    [min(10, len)] values. *)
Theorem moving_avg_smooths (data : list F) (w : Z) :
  data <> [] -> 1 <= w ->
  exists curve : list F,
    _moving_avg A data w = Ok curve
    /\ List.length curve = List.length data
    /\ forall i, (i < List.length data)%nat ->
         nth_error curve i
         = Some (dot A (samples_at data (Z.to_nat w) i) (kernel (Z.to_nat w))).
Proof.
  intros Hd Hw. eexists. split; [apply moving_avg_elements; assumption|]. split.
  - rewrite length_map, length_seq. reflexivity.
  - intros i Hi. rewrite nth_error_map, nth_error_seq.
    destruct (Nat.ltb_spec i (List.length data)) as [_|H]; [reflexivity|lia].
Qed.

Lemma map_const_repeat (c : F) (l : list nat) :
  map (fun _ => c) l = repeat c (List.length l).
Proof.
  induction l as [|t l IH]; [reflexivity|]. cbn [map List.length repeat]. rewrite IH.
  reflexivity.
Qed.

Lemma samples_constant (c : F) (n w i : nat) :
  (0 < n)%nat ->
  div A (add_reduce A (repeat c (Nat.min 10 n))) (of_nat A (Nat.min 10 n)) = c ->
  samples_at (repeat c n) w i = repeat c w.
Proof.
  intros Hn Hmean.
  assert (Hs : forall j, sample (repeat c n) j = c).
  { intros j. unfold sample, first_mean, last_mean. cbv zeta. rewrite repeat_length.
    rewrite firstn_repeat, skipn_repeat.
    replace (Nat.min (Nat.min 10 n) n) with (Nat.min 10 n) by lia.
    replace (n - (n - Nat.min 10 n))%nat with (Nat.min 10 n) by lia.
    rewrite Hmean. destruct (j <? 0); [reflexivity|].
    destruct (nth_error (repeat c n) (Z.to_nat j)) as [x|] eqn:E; [|reflexivity].
    apply nth_error_In, repeat_spec in E. exact E. }
  unfold samples_at. rewrite (map_ext _ (fun _ => c)) by (intros t; apply Hs).
  rewrite map_const_repeat, length_seq. reflexivity.
Qed.

(** What the specification says of a constant sequence, for an arithmetic:
    every element of the curve is the constant. *)
Definition constant_claim (c : F) (n : nat) (w : Z) : Prop :=
  _moving_avg A (repeat c n) w = Ok (repeat c n).

(** C4, where the two averages come out exact: for a sequence of [n >= 1]
    copies of [c] and an integer window [w >= 1], every element of the
    curve [_moving_avg] returns equals [c], provided the arithmetic gives [c]
    for the mean of [min(10, n)] copies of [c] and for the inner product of
    the uniform kernel with [w] copies of [c]. *)
Theorem moving_avg_constant_unrounded (c : F) (n : nat) (w : Z) :
  (1 <= n)%nat -> 1 <= w ->
  div A (add_reduce A (repeat c (Nat.min 10 n))) (of_nat A (Nat.min 10 n)) = c ->
  dot A (repeat c (Z.to_nat w)) (repeat (div A (one A) (of_nat A (Z.to_nat w))) (Z.to_nat w)) = c ->
  constant_claim c n w.
Proof.
  intros Hn Hw Hmean Hdot. unfold constant_claim.
  rewrite moving_avg_elements by (try (destruct n; [lia|discriminate]); exact Hw).
  f_equal. rewrite repeat_length.
  rewrite (map_ext_in _ (fun _ => c)).
  - rewrite map_const_repeat, length_seq. reflexivity.
  - intros i _. rewrite (samples_constant c n (Z.to_nat w) i) by (try lia; exact Hmean).
    exact Hdot.
Qed.

End Smoothing.

Section SmoothingInstances.
Import Smooth.

Lemma fold_plus_start (l : list Qc) (a : Qc) :
  fold_left Qcplus l a = (a + fold_left Qcplus l 0)%Qc.
Proof.
  revert a. induction l as [|x l IH]; intros a; cbn [fold_left].
  - ring.
  - rewrite (IH (a + x)%Qc), (IH (0 + x)%Qc). ring.
Qed.

Lemma fold_plus_repeat (x : Qc) (k : nat) :
  fold_left Qcplus (repeat x k) 0%Qc = (Np.of_nat k * x)%Qc.
Proof.
  induction k as [|k IH].
  - change (0%Qc = (0 * x)%Qc). ring.
  - cbn [repeat fold_left]. rewrite fold_plus_start, IH, of_nat_S. ring.
Qed.

Lemma zip_mult_repeat (x y : Qc) (k : nat) :
  zip_with Qcmult (repeat x k) (repeat y k) = repeat (x * y)%Qc k.
Proof.
  induction k as [|k IH]; [reflexivity|]. cbn [repeat zip_with]. rewrite IH. reflexivity.
Qed.

(** Over exact arithmetic the curve of a constant sequence is that
    sequence. *)
Lemma moving_avg_constant_exact (c : Qc) (n : nat) (w : Z) :
  (1 <= n)%nat -> 1 <= w -> constant_claim exact c n w.
Proof.
  intros Hn Hw. apply moving_avg_constant_unrounded; try assumption.
  - cbn [div add_reduce of_nat exact]. rewrite fold_plus_repeat.
    field. apply of_nat_nonzero. lia.
  - cbn [div dot one of_nat exact]. rewrite zip_mult_repeat, fold_plus_repeat.
    field. apply of_nat_nonzero. lia.
Qed.

End SmoothingInstances.

Section SmoothingBinary64.
Import PrimFloat.
#[local] Set Warnings "-inexact-float".

(** The binary64 numbers nearest to 0.1 and next above it, and one half. *)
Definition tenth : float := 0.1%float.
Definition above_tenth : float := 0.10000000000000002%float.
Definition half : float := 0.5%float.

(** Four scores of 0.1 smoothed over a window of 5: the mean that pads them
    is 0.1, the kernel holds 0.2 five times, each product rounds to
    0.020000000000000004 and five of them add up to 0.10000000000000002. *)
Lemma moving_avg_tenths :
  Smooth._moving_avg Smooth.binary64 (repeat tenth 4) 5 = Ok (repeat above_tenth 4).
Proof.
  vm_compute. reflexivity.
Qed.

(** The five products give the same sum when they are added in pairs or
    from the last to the first. *)
Lemma tenths_other_orders :
  let t := mul (div one (of_uint63 (Uint63.of_Z 5))) tenth in
  add (add (add t t) (add t t)) t = above_tenth
  /\ add t (add (add t t) (add t t)) = above_tenth
  /\ add t (add t (add t (add t t))) = above_tenth
  /\ add (add t t) (add t (add t t)) = above_tenth.
Proof.
  repeat split; vm_compute; reflexivity.
Qed.

(** The example of [numpy.convolve]'s documentation, and a curve worked out
    by hand: the scores 1, 2, 4, 8 are padded with their mean 3.75 and each
    point is half the sum of a value and the one before it. *)
Lemma convolve_same_example :
  Smooth.convolve_same Smooth.binary64 [1; 2; 3]%float [0; 1; 0.5]%float
  = Ok [1; 2.5; 4]%float.
Proof.
  vm_compute. reflexivity.
Qed.

Lemma moving_avg_example :
  Smooth._moving_avg Smooth.binary64 [1; 2; 4; 8]%float 2 = Ok [2.375; 1.5; 3; 6]%float.
Proof.
  vm_compute. reflexivity.
Qed.

Lemma moving_avg_smooths_witness :
  exists curve : list float,
    Smooth._moving_avg Smooth.binary64 [1; 2; 4; 8]%float 2 = Ok curve
    /\ List.length curve = List.length [1; 2; 4; 8]%float
    /\ forall i, (i < List.length [1; 2; 4; 8]%float)%nat ->
         nth_error curve i
         = Some (Smooth.dot Smooth.binary64
                   (samples_at Smooth.binary64 [1; 2; 4; 8]%float (Z.to_nat 2) i)
                   (kernel Smooth.binary64 (Z.to_nat 2))).
Proof.
  apply (moving_avg_smooths Smooth.binary64 [1; 2; 4; 8]%float 2); [discriminate|lia].
Defined.

Lemma moving_avg_constant_unrounded_witness :
  constant_claim Smooth.binary64 half 3 2.
Proof.
  apply moving_avg_constant_unrounded;
    [lia | lia | vm_compute; reflexivity | vm_compute; reflexivity].
Defined.

(** C4, as stated, fails in the arithmetic of [numpy.float64]: the curve of
    four scores of 0.1 over a window of 5 holds 0.10000000000000002, not
    0.1. *)
Lemma moving_avg_constant_rounds :
  ~ constant_claim Smooth.binary64 tenth 4 5.
Proof.
  unfold constant_claim. rewrite moving_avg_tenths. intros E.
  apply (f_equal (fun r => match r with
                           | Ok (x :: _) => eqb x tenth
                           | _ => true
                           end)) in E.
  vm_compute in E. discriminate E.
Qed.

End SmoothingBinary64.

(** ** The scores file read back *)

Section ScoresRoundTrip.
Import Str Logger.

(** No character of [s] ends a line. *)
Fixpoint free_of_breaks (s : string) : bool :=
  match s with
  | EmptyString => true
  | String c s' => negb (is_linebreak c) && free_of_breaks s'
  end.

(** The text [_write_scores] has appended after the scores [xs]. *)
Definition scores_text (str_float : Qc -> string) (xs : list Qc) : string :=
  String.concat EmptyString (map (fun x => str_float x ++ nl) xs).

(** One call of [_write_scores] per logger state, in order. *)
Fixpoint write_scores_each (str_float : Qc -> string) (loggers : list Logger.t) (fs : files)
    : files * result unit :=
  match loggers with
  | [] => (fs, Ok tt)
  | L :: rest =>
      match _write_scores str_float L fs with
      | (fs, Raise e) => (fs, Raise e)
      | (fs, Ok _) => write_scores_each str_float rest fs
      end
  end.

Lemma universal_newlines_line (s t : string) :
  free_of_breaks s = true ->
  universal_newlines (s ++ nl ++ t) = s ++ nl ++ universal_newlines t.
Proof.
  induction s as [|c s IH]; intros Hs.
  - reflexivity.
  - cbn [free_of_breaks] in Hs. apply andb_prop in Hs as [Hc Hs].
    change (universal_newlines (String c (s ++ nl ++ t))
            = String c (s ++ nl ++ universal_newlines t)).
    destruct (Ascii.eqb_spec c "013"%char) as [->|Hne]; [discriminate Hc|].
    assert (E : universal_newlines (String c (s ++ nl ++ t))
                = String c (universal_newlines (s ++ nl ++ t))).
    { destruct c as [[] [] [] [] [] [] [] []]; try reflexivity. contradiction Hne. reflexivity. }
    rewrite E, (IH Hs). reflexivity.
Qed.

Lemma splitlines_from_line (line s t : string) :
  free_of_breaks s = true ->
  splitlines_from line (s ++ nl ++ t) = (line ++ s) :: splitlines_from EmptyString t.
Proof.
  revert line. induction s as [|c s IH]; intros line Hs.
  - rewrite append_empty_r. reflexivity.
  - cbn [free_of_breaks] in Hs. apply andb_prop in Hs as [Hc Hs].
    change (splitlines_from line (String c (s ++ nl ++ t))
            = (line ++ String c s) :: splitlines_from EmptyString t).
    cbn [splitlines_from].
    destruct (is_linebreak c); [discriminate Hc|].
    rewrite (IH _ Hs), append_assoc. reflexivity.
Qed.

Lemma scores_text_cons (str_float : Qc -> string) (x : Qc) (xs : list Qc) :
  scores_text str_float (x :: xs) = str_float x ++ nl ++ scores_text str_float xs.
Proof.
  unfold scores_text. destruct xs as [|y ys].
  - change ((str_float x ++ nl) = str_float x ++ nl ++ EmptyString).
    rewrite append_empty_r. reflexivity.
  - change (map (fun x => str_float x ++ nl) (x :: y :: ys))
      with ((str_float x ++ nl) :: map (fun x => str_float x ++ nl) (y :: ys)).
    change (map (fun x => str_float x ++ nl) (y :: ys))
      with ((str_float y ++ nl) :: map (fun x => str_float x ++ nl) ys).
    change ((str_float x ++ nl) ++ EmptyString
            ++ String.concat EmptyString ((str_float y ++ nl) :: map (fun x => str_float x ++ nl) ys)
            = str_float x ++ nl
              ++ String.concat EmptyString ((str_float y ++ nl) :: map (fun x => str_float x ++ nl) ys)).
    rewrite append_assoc. reflexivity.
Qed.

Lemma read_back_lines (str_float : Qc -> string) (xs : list Qc) :
  Forall (fun x => free_of_breaks (str_float x) = true) xs ->
  splitlines (universal_newlines (scores_text str_float xs)) = map str_float xs.
Proof.
  induction 1 as [|x xs Hx _ IH].
  - reflexivity.
  - rewrite scores_text_cons, (universal_newlines_line _ _ Hx).
    unfold splitlines in *. rewrite (splitlines_from_line _ _ _ Hx), IH. reflexivity.
Qed.

Lemma write_scores_each_text (str_float : Qc -> string) (path : string)
    (loggers : list Logger.t) (xs : list Qc) (fs : files) (text : string) :
  fs !! path = Some text ->
  Forall2 (fun L x => scoresfile L = path /\ latest_score L = Ok x) loggers xs ->
  exists fs', write_scores_each str_float loggers fs = (fs', Ok tt)
              /\ fs' !! path = Some (text ++ scores_text str_float xs).
Proof.
  intros Hfs Hall. revert fs text Hfs.
  induction Hall as [|L x loggers xs [Hpath Hlatest] _ IH]; intros fs text Hfs.
  - exists fs. split; [reflexivity|]. unfold scores_text.
    change (fs !! path = Some (text ++ EmptyString)). rewrite append_empty_r. exact Hfs.
  - cbn [write_scores_each]. unfold _write_scores. rewrite Hlatest, Hpath.
    destruct (IH (append_file path (str_float x ++ nl) fs) (text ++ str_float x ++ nl))
      as (fs' & Hrun & Hlook).
    { unfold append_file. rewrite lookup_insert_eq, Hfs. reflexivity. }
    exists fs'. split; [exact Hrun|].
    rewrite Hlook, scores_text_cons, !append_assoc. reflexivity.
Qed.

(** The framing of the scores file: scores written one per call by
    [_write_scores] into an empty scores file come back, read as [plot_logs]
    reads them, as one line per score in the order written. Whether the
    number read is the number written is a matter of the notation [str]
    gives a float and [float] reads, which is taken as given here: the
    notation of each value holds no line break and reads back as that
    value. *)
Theorem scores_round_trip (str_float : Qc -> string) (float : string -> option Qc)
    (path : string) (loggers : list Logger.t) (xs : list Qc) (fs : files) :
  fs !! path = Some EmptyString ->
  Forall2 (fun L x => scoresfile L = path /\ latest_score L = Ok x) loggers xs ->
  Forall (fun x => float (str_float x) = Some x /\ free_of_breaks (str_float x) = true) xs ->
  exists fs', write_scores_each str_float loggers fs = (fs', Ok tt)
              /\ forall L, scoresfile L = path -> read_scores float L fs' = Ok xs.
Proof.
  intros Hfs Hall Hxs.
  destruct (write_scores_each_text str_float path loggers xs fs EmptyString Hfs Hall)
    as (fs' & Hrun & Hlook).
  exists fs'. split; [exact Hrun|].
  intros L HL. unfold read_scores. rewrite HL, Hlook.
  change (EmptyString ++ scores_text str_float xs) with (scores_text str_float xs).
  rewrite read_back_lines
    by (eapply Forall_impl; [|exact Hxs]; intros x [_ H]; exact H).
  rewrite (comprehension_ok _ (fun s => default 0%Qc (float s))).
  - f_equal. rewrite map_map. rewrite <- (map_id xs) at 2.
    apply map_ext_in. intros x Hx.
    rewrite Forall_forall in Hxs. destruct (Hxs x Hx) as [E _]. rewrite E. reflexivity.
  - intros s Hs. apply in_map_iff in Hs as (x & <- & Hx).
    rewrite Forall_forall in Hxs. destruct (Hxs x Hx) as [E _]. rewrite E. reflexivity.
Qed.

(** A notation for whole numbers, enough to run the round trip on. *)
Definition str_whole (x : Qc) : string := str_int (Qnum x).
Definition float_whole (s : string) : option Qc := option_map Np.of_Z (py_int s).

Definition logger_with_scores (path : string) (scores : list Qc) : Logger.t :=
  Logger.Make "." ∅ false 1000 false 15 10 "MAD4PG" 2 "./logs" "." "./logs/." scores
              (Np.zeros 2) path EmptyString.

Lemma scores_round_trip_witness :
  exists fs',
    write_scores_each str_whole
      [logger_with_scores "s.txt" [Np.of_Z 3];
       logger_with_scores "s.txt" [Np.of_Z 3; Np.of_Z 0];
       logger_with_scores "s.txt" [Np.of_Z 3; Np.of_Z 0; Np.of_Z (-12)]]
      {["s.txt" := EmptyString]} = (fs', Ok tt)
    /\ forall L, scoresfile L = "s.txt" ->
                 read_scores float_whole L fs' = Ok [Np.of_Z 3; Np.of_Z 0; Np.of_Z (-12)].
Proof.
  apply scores_round_trip.
  - reflexivity.
  - repeat constructor.
  - repeat constructor.
Defined.

End ScoresRoundTrip.

(** ** Oldest first *)

Section OldestFirst.
Import Saver.
Context {A : Type} (key : A -> Z).

Lemma insert_by_key_perm (x : A) (l : list A) : Permutation (x :: l) (insert_by_key key x l).
Proof.
  induction l as [|y l IH]; cbn [insert_by_key]; [reflexivity|].
  destruct (key x <=? key y); [reflexivity|].
  rewrite perm_swap. apply perm_skip, IH.
Qed.

Lemma sorted_perm (l : list A) : Permutation l (sorted key l).
Proof.
  induction l as [|x l IH]; cbn [sorted]; [reflexivity|].
  rewrite <- insert_by_key_perm. apply perm_skip, IH.
Qed.

Lemma insert_by_key_ordered (x : A) (l : list A) :
  StronglySorted (fun a b => key a <= key b) l ->
  StronglySorted (fun a b => key a <= key b) (insert_by_key key x l).
Proof.
  induction 1 as [|y l Hl IH Hy]; cbn [insert_by_key].
  - constructor; constructor.
  - destruct (Z.leb_spec (key x) (key y)) as [Hxy|Hxy].
    + constructor; [constructor; assumption|].
      constructor; [exact Hxy|].
      eapply Forall_impl; [|exact Hy]. intros z Hz. cbn beta in *. lia.
    + constructor; [exact IH|].
      eapply Permutation_Forall; [apply insert_by_key_perm|].
      constructor; [lia|exact Hy].
Qed.

(** [sorted] puts the smallest key first and keeps every element. *)
Lemma sorted_ordered (l : list A) :
  StronglySorted (fun a b => key a <= key b) (sorted key l).
Proof.
  induction l as [|x l IH]; cbn [sorted]; [constructor|].
  apply insert_by_key_ordered, IH.
Qed.
End OldestFirst.

(** ** Looking for saved agents *)

Section SavedAgents.
Import Str Saver.

(** Some file below a directory with the given entries has a name that ends
    in [.agent]. *)
Inductive agent_file_in : list entry -> Prop :=
| agent_file_here (name : string) (mtime : Z) (children : list entry) :
    In (File name mtime) children -> ends_with ".agent" name = true ->
    agent_file_in children
| agent_file_below (name : string) (inner children : list entry) :
    In (Dir name inner) children -> agent_file_in inner ->
    agent_file_in children.

(** The same for a path that may not exist. *)
Definition has_agent_file (top : option (list entry)) : Prop :=
  exists children, top = Some children /\ agent_file_in children.

(** The paths [_get_files] collects before sorting them. *)
Definition agent_paths (walk : list (string * list (string * Z))) : list (string * Z) :=
  flat_map (fun '(root, files) =>
              map (fun '(file, mtime) => (os_path_join root file, mtime))
                  (filter (fun '(file, _) => ends_with ".agent" file) files))
           walk.

Lemma list_all_In {A : Type} (P : A -> Prop) (l : list A) :
  list_all A P l -> forall a, In a l -> P a.
Proof.
  induction 1 as [|a Ha l _ IH]; intros b Hb.
  - destruct Hb.
  - destruct Hb as [<-|Hb]; [exact Ha|apply IH, Hb].
Qed.

Lemma in_files_in (name : string) (mtime : Z) (children : list entry) :
  In (name, mtime) (files_in children) <-> In (File name mtime) children.
Proof.
  induction children as [|[n m|n inner] rest IH]; cbn [files_in In].
  - tauto.
  - rewrite IH. split; intros [H|H]; auto; left; congruence.
  - rewrite IH. split; [auto|]. intros [H|H]; [discriminate H|exact H].
Qed.

Lemma length_insert_by_key {A : Type} (key : A -> Z) (x : A) (l : list A) :
  List.length (insert_by_key key x l) = S (List.length l).
Proof.
  induction l as [|y l IH]; cbn [insert_by_key]; [reflexivity|].
  destruct (key x <=? key y); cbn [List.length]; [reflexivity|]. rewrite IH. reflexivity.
Qed.

Lemma length_sorted {A : Type} (key : A -> Z) (l : list A) :
  List.length (sorted key l) = List.length l.
Proof.
  induction l as [|x l IH]; cbn [sorted]; [reflexivity|].
  rewrite length_insert_by_key, IH. reflexivity.
Qed.

Lemma length_get_files (save_dir : string) (top : option (list entry)) :
  List.length (_get_files save_dir top) = List.length (agent_paths (os_walk save_dir top)).
Proof.
  unfold _get_files. fold (agent_paths (os_walk save_dir top)).
  rewrite length_map, length_sorted. reflexivity.
Qed.

(** What a directory contributes: its own files, then what lies below. *)
Lemma agent_paths_dir (root : string) (children : list entry) :
  (forall e, In e children -> forall parent,
      (exists p, In p (agent_paths (walk_entry parent e)))
      <-> match e with File _ _ => False | Dir _ inner => agent_file_in inner end) ->
  (exists p, In p (agent_paths ((root, files_in children) :: flat_map (walk_entry root) children)))
  <-> agent_file_in children.
Proof.
  intros IH. split.
  - intros [p Hp]. unfold agent_paths in Hp. cbn [flat_map] in Hp.
    apply in_app_or in Hp as [Hp|Hp].
    + apply in_map_iff in Hp as ([file mtime] & _ & Hf).
      apply filter_In in Hf as [Hf Hext]. apply in_files_in in Hf.
      eapply agent_file_here; eauto.
    + apply in_flat_map in Hp as ([r fs] & Hw & Hp).
      apply in_flat_map in Hw as (e & He & Hw).
      assert (Hex : exists q, In q (agent_paths (walk_entry root e))).
      { exists p. unfold agent_paths. apply in_flat_map. exists (r, fs). split; assumption. }
      apply (IH e He root) in Hex. destruct e as [|name inner]; [contradiction|].
      eapply agent_file_below; eauto.
  - intros H. inversion H as [name mtime ch Hin Hext E|name inner ch Hin Hinner E]; subst ch.
    + exists (os_path_join root name, mtime). unfold agent_paths. cbn [flat_map].
      apply in_or_app. left.
      apply in_map_iff. exists (name, mtime). split; [reflexivity|].
      apply filter_In. split; [apply in_files_in, Hin|exact Hext].
    + destruct (proj2 (IH _ Hin root) Hinner) as [p Hp]. exists p.
      unfold agent_paths in *. cbn [flat_map]. apply in_or_app. right.
      apply in_flat_map in Hp as (w & Hw & Hp).
      apply in_flat_map. exists w. split; [|exact Hp].
      apply in_flat_map. exists (Dir name inner). split; assumption.
Qed.

Lemma agent_paths_entry (e : entry) (parent : string) :
  (exists p, In p (agent_paths (walk_entry parent e)))
  <-> match e with File _ _ => False | Dir _ inner => agent_file_in inner end.
Proof.
  revert parent. induction e as [name mtime|name children IH] using entry_ind; intros parent.
  - cbn. split; [intros [p []]|intros []].
  - cbn [walk_entry]. apply agent_paths_dir.
    intros e He. apply (list_all_In _ _ IH e He).
Qed.

Lemma get_files_nonempty (save_dir : string) (top : option (list entry)) :
  (0 < List.length (_get_files save_dir top))%nat <-> has_agent_file top.
Proof.
  rewrite length_get_files. unfold has_agent_file.
  destruct top as [children|]; cbn [os_walk].
  - pose proof (agent_paths_dir save_dir children
                  (fun e _ parent => agent_paths_entry e parent)) as Hd.
    split.
    + intros Hlen. eexists. split; [reflexivity|]. apply Hd.
      destruct (agent_paths _) as [|p l]; [cbn in Hlen; lia|]. exists p. left. reflexivity.
    + intros (ch & [= <-] & Hch). apply Hd in Hch as [p Hp].
      destruct (agent_paths _) as [|q l]; [destruct Hp|cbn; lia].
  - cbn. split; [lia|]. intros (ch & H & _). discriminate H.
Qed.

Lemma get_filepath_never_asserts (files : list string) (idx : Z) (c : console) (msg : string) :
  snd (_get_filepath files idx c) <> Raise (AssertionError msg).
Proof.
  unfold _get_filepath, input.
  destruct (stdin c) as [|line rest]; cbn [snd]; [discriminate|].
  destruct (existsb _ _); cbn [snd]; [discriminate|].
  destruct (select_file files line); cbn [snd]; discriminate.
Qed.

Lemma prompt_each_never_asserts (files : list string) (idxs : list Z) (c : console)
    (msg : string) :
  snd (prompt_each files idxs c) <> Raise (AssertionError msg).
Proof.
  revert c. induction idxs as [|idx rest IH]; intros c; cbn [prompt_each].
  - discriminate.
  - pose proof (get_filepath_never_asserts files idx c msg) as H1.
    destruct (_get_filepath files idx c) as [c1 [file|e]]; cbn [snd] in *;
      [|intros E; apply H1; injection E as ->; reflexivity].
    pose proof (IH c1) as H2.
    destruct (prompt_each files rest c1) as [c2 [chosen|e]]; cbn [snd] in *;
      [discriminate|exact H2].
Qed.

(** C7: in resume or eval mode, when no file below the save directory has a
    name ending in [.agent], [_get_agent_file] fails its assertion with the
    message naming the directory, and so does the start of the [Saver]; when
    there is such a file, no assertion failure comes out of the call. *)
Theorem missing_agent_files_assert (a : Args.t) (agent_count : nat)
    (framework timestamp : string) (top : option (list entry)) (c : console) :
  Args.resume a || Args.eval a = true ->
  (~ has_agent_file top ->
     _get_agent_file a agent_count top c
       = (c, Raise (AssertionError ("Could not find any files in: " ++ Args.save_dir a)))
     /\ Saver.__init__ framework agent_count a timestamp top c
       = (top, c, Raise (AssertionError ("Could not find any files in: " ++ Args.save_dir a))))
  /\ (has_agent_file top ->
      forall msg, snd (_get_agent_file a agent_count top c) <> Raise (AssertionError msg)).
Proof.
  intros Hmode. split.
  - intros Hnone.
    assert (E : _get_agent_file a agent_count top c
                = (c, Raise (AssertionError ("Could not find any files in: " ++ Args.save_dir a)))).
    { unfold _get_agent_file. rewrite Hmode.
      destruct (Nat.ltb_spec 0 (List.length (_get_files (Args.save_dir a) top))) as [H|H].
      - exfalso. apply Hnone, get_files_nonempty with (save_dir := Args.save_dir a). exact H.
      - reflexivity. }
    split; [exact E|]. unfold Saver.__init__. rewrite E. reflexivity.
  - intros Hsome msg. unfold _get_agent_file. rewrite Hmode.
    apply (get_files_nonempty (Args.save_dir a)) in Hsome.
    destruct (Nat.ltb_spec 0 (List.length (_get_files (Args.save_dir a) top))) as [H|H]; [|lia].
    pose proof (prompt_each_never_asserts (_get_files (Args.save_dir a) top)
                  (map Z.of_nat (seq 0 agent_count)) c msg) as Hp.
    destruct (prompt_each _ _ c) as [c1 [chosen|e]]; cbn [snd] in *;
      [discriminate|intros E; apply Hp; injection E as ->; reflexivity].
Qed.

(** A run started with [--resume]. *)
Definition resume_args : Args.t := Args.Make true false "saves" 1000 false 15 10 100.

Lemma missing_agent_files_assert_witness :
  Saver.__init__ "MAD4PG" 2 resume_args "20240101"
    (Some [Dir "MAD4PG_20240101_v001" [Dir "logs" [File "scores.txt" 5]]; File "notes.txt" 1])
    (Console ["1"; "1"] [])
  = (Some [Dir "MAD4PG_20240101_v001" [Dir "logs" [File "scores.txt" 5]]; File "notes.txt" 1],
     Console ["1"; "1"] [],
     Raise (AssertionError "Could not find any files in: saves")).
Proof.
  apply (missing_agent_files_assert resume_args 2 "MAD4PG" "20240101").
  - reflexivity.
  - intros H. apply (get_files_nonempty "saves") in H. vm_compute in H. lia.
Defined.

(** The user asked to quit. *)
Definition is_quit (line : string) : Prop := lower line = "q" \/ lower line = "quit".

Lemma is_quit_test (line : string) :
  existsb (String.eqb (lower line)) ["q"; "quit"] = true <-> is_quit line.
Proof.
  unfold is_quit. cbn [existsb]. rewrite !orb_true_iff, !String.eqb_eq.
  split; [intros [H|[H|H]]; [auto|auto|discriminate H]|intros [H|H]; auto].
Qed.

Lemma get_filepath_quit (files : list string) (idx : Z) (c : console)
    (line : string) (rest : list string) :
  stdin c = line :: rest -> is_quit line ->
  _get_filepath files idx c
  = (Console rest (stdout c ++ [file_menu files idx]),
     Raise (KeyboardInterrupt "User quit process before loading a file.")).
Proof.
  intros Hin Hq. unfold _get_filepath, input. rewrite Hin.
  apply is_quit_test in Hq. rewrite Hq. reflexivity.
Qed.

(** A line that picks a file: not a request to quit, and an index in range. *)
Definition picks (files : list string) (line file : string) : Prop :=
  ~ is_quit line /\ select_file files line = Ok file.

Lemma get_filepath_pick (files : list string) (idx : Z) (c : console)
    (line file : string) (rest : list string) :
  stdin c = line :: rest -> picks files line file ->
  _get_filepath files idx c = (Console rest (stdout c ++ [file_menu files idx]), Ok file).
Proof.
  intros Hin [Hq Hsel]. unfold _get_filepath, input. rewrite Hin.
  destruct (existsb _ _) eqn:E; [apply is_quit_test in E; contradiction|].
  rewrite Hsel. reflexivity.
Qed.

Lemma prompt_each_quit (files : list string) (idxs : list Z) (c : console)
    (lines : list string) (line : string) (rest : list string) :
  stdin c = (lines ++ line :: rest)%list ->
  Forall (fun l => exists file, picks files l file) lines ->
  (List.length lines < List.length idxs)%nat ->
  is_quit line ->
  exists c', prompt_each files idxs c
             = (c', Raise (KeyboardInterrupt "User quit process before loading a file."))
             /\ stdin c' = rest.
Proof.
  revert c lines. induction idxs as [|idx idxs IH]; intros c lines Hin Hpicks Hlen Hq.
  - cbn in Hlen. lia.
  - cbn [prompt_each]. destruct lines as [|l lines].
    + rewrite (get_filepath_quit files idx c line rest Hin Hq).
      eexists. split; reflexivity.
    + inversion Hpicks as [|? ? [file Hpick] Hrest]; subst.
      rewrite (get_filepath_pick files idx c l file (lines ++ line :: rest) Hin Hpick).
      destruct (IH (Console (lines ++ line :: rest) (stdout c ++ [file_menu files idx])) lines)
        as (c' & Hrun & Hstd); [reflexivity|exact Hrest|cbn in Hlen; lia|exact Hq|].
      rewrite Hrun. exists c'. split; [reflexivity|exact Hstd].
Qed.

(** C8: a line that reads [q] or [quit] in any case makes [_get_filepath]
    raise [KeyboardInterrupt] with the user-quit message; typed at the prompt
    of any agent, after valid selections for the agents before, it ends the
    start of the [Saver] with that exception: no [Saver] and no loaded file
    result. *)
Theorem quit_interrupts_startup (files : list string) (idx : Z) (c : console)
    (line : string) (rest : list string) :
  is_quit line ->
  (stdin c = line :: rest ->
   _get_filepath files idx c
   = (Console rest (stdout c ++ [file_menu files idx]),
      Raise (KeyboardInterrupt "User quit process before loading a file.")))
  /\ (forall (a : Args.t) (agent_count : nat) (framework timestamp : string)
             (top : option (list entry)) (lines : list string),
        Args.resume a || Args.eval a = true ->
        _get_files (Args.save_dir a) top = files ->
        files <> [] ->
        stdin c = (lines ++ line :: rest)%list ->
        Forall (fun l => exists file, picks files l file) lines ->
        (List.length lines < agent_count)%nat ->
        exists c',
          Saver.__init__ framework agent_count a timestamp top c
          = (top, c', Raise (KeyboardInterrupt "User quit process before loading a file."))
          /\ stdin c' = rest).
Proof.
  intros Hq. split.
  - intros Hin. apply (get_filepath_quit files idx c line rest Hin Hq).
  - intros a agent_count framework timestamp top lines Hmode Hfiles Hne Hin Hpicks Hlen.
    destruct (prompt_each_quit files (map Z.of_nat (seq 0 agent_count)) c lines line rest)
      as (c' & Hrun & Hstd); try assumption.
    { rewrite length_map, length_seq. exact Hlen. }
    exists c'. split; [|exact Hstd].
    unfold Saver.__init__, _get_agent_file. rewrite Hmode, Hfiles.
    destruct files as [|f files]; [contradiction|].
    cbn [List.length Nat.ltb Nat.leb]. rewrite Hrun. reflexivity.
Qed.

Lemma quit_interrupts_startup_witness :
  exists c',
    Saver.__init__ "MAD4PG" 2 resume_args "20240101"
      (Some [File "old.agent" 1; File "new.agent" 2]) (Console ["1"; "QUIT"; "2"] [])
    = (Some [File "old.agent" 1; File "new.agent" 2], c',
       Raise (KeyboardInterrupt "User quit process before loading a file."))
    /\ stdin c' = ["2"].
Proof.
  apply (proj2 (quit_interrupts_startup ["saves/old.agent"; "saves/new.agent"] 0
                  (Console ["1"; "QUIT"; "2"] []) "QUIT" ["2"] (or_intror eq_refl))
               resume_args 2%nat "MAD4PG" "20240101"
               (Some [File "old.agent" 1; File "new.agent" 2]) ["1"]).
  - reflexivity.
  - reflexivity.
  - discriminate.
  - reflexivity.
  - constructor; [|constructor]. exists "saves/new.agent". split.
    + intros [H|H]; discriminate H.
    + reflexivity.
  - cbn. lia.
Defined.


(** What the [try] of [_get_filepath] accepts: an integer [k] from 1 to the
    number of files, which selects the [k]-th file counted from the latest. *)
Lemma select_file_spec (files : list string) (line file : string) :
  select_file files line = Ok file
  <-> exists k, py_int line = Some k
                /\ 1 <= k <= Z.of_nat (List.length files)
                /\ nth_error (List.rev files) (Z.to_nat (k - 1)) = Some file.
Proof.
  unfold select_file. split.
  - destruct (py_int line) as [k|]; [|discriminate].
    destruct (Z.leb_spec 0 (Z.of_nat (List.length files) - k)) as [Hk|Hk]; [|discriminate].
    destruct (nth_error files (Z.to_nat (Z.of_nat (List.length files) - k))) as [f|] eqn:E;
      [|discriminate].
    intros [= <-]. exists k. split; [reflexivity|].
    assert (Hlt : (Z.to_nat (Z.of_nat (List.length files) - k) < List.length files)%nat)
      by (apply nth_error_Some; rewrite E; discriminate).
    split; [lia|].
    rewrite nth_error_rev.
    destruct (Nat.ltb_spec (Z.to_nat (k - 1)) (List.length files)) as [_|H]; [|lia].
    rewrite <- E. f_equal. lia.
  - intros (k & -> & Hk & Hnth).
    destruct (Z.leb_spec 0 (Z.of_nat (List.length files) - k)) as [_|H]; [|lia].
    rewrite nth_error_rev in Hnth.
    destruct (Nat.ltb_spec (Z.to_nat (k - 1)) (List.length files)) as [_|H]; [|lia].
    replace (Z.to_nat (Z.of_nat (List.length files) - k))
      with (List.length files - S (Z.to_nat (k - 1)))%nat by lia.
    rewrite Hnth. reflexivity.
Qed.

(** X2: a valid selection [k] returns the [k]-th latest of the listed
    files. *)
Lemma valid_selection_returns (files : list string) (idx : Z) (c : console)
    (line : string) (rest : list string) (k : Z) :
  stdin c = line :: rest -> ~ is_quit line ->
  py_int line = Some k -> 1 <= k <= Z.of_nat (List.length files) ->
  exists file,
    nth_error (List.rev files) (Z.to_nat (k - 1)) = Some file
    /\ _get_filepath files idx c
       = (Console rest (stdout c ++ [file_menu files idx]), Ok file).
Proof.
  intros Hin Hq Hint Hk.
  destruct (nth_error (List.rev files) (Z.to_nat (k - 1))) as [file|] eqn:E.
  - exists file. split; [reflexivity|].
    apply (get_filepath_pick files idx c line file rest Hin). split; [exact Hq|].
    apply select_file_spec. exists k. auto.
  - apply nth_error_None in E. rewrite length_rev in E. lia.
Qed.

(** C9, what the code does instead of prompting again: after a line that is
    neither a request to quit nor a valid selection, [_get_filepath] prints
    that the input is invalid and raises [NameError]; the lines still to be
    typed are left unread. *)
Theorem invalid_selection_raises (files : list string) (idx : Z) (c : console)
    (line : string) (rest : list string) :
  stdin c = line :: rest -> ~ is_quit line ->
  (forall file, select_file files line <> Ok file) ->
  _get_filepath files idx c
  = (Console rest ((stdout c ++ [file_menu files idx])
                   ++ ["Input " ++ dquote ++ line ++ dquote ++ " is INVALID..."]),
     Raise (NameError "_get_filepath")).
Proof.
  intros Hin Hq Hsel. unfold _get_filepath, input. rewrite Hin.
  destruct (existsb _ _) eqn:E; [apply is_quit_test in E; contradiction|].
  destruct (select_file files line) as [file|e] eqn:Es.
  - exfalso. apply (Hsel file). reflexivity.
  - reflexivity.
Qed.

Lemma invalid_selection_raises_witness :
  _get_filepath ["saves/old.agent"; "saves/new.agent"] 0 (Console ["3"; "1"] [])
  = (Console ["1"]
       (([] ++ [file_menu ["saves/old.agent"; "saves/new.agent"] 0])
        ++ ["Input " ++ dquote ++ "3" ++ dquote ++ " is INVALID..."]),
     Raise (NameError "_get_filepath")).
Proof.
  apply (invalid_selection_raises ["saves/old.agent"; "saves/new.agent"] 0
           (Console ["3"; "1"] []) "3" ["1"]).
  - reflexivity.
  - intros [H|H]; discriminate H.
  - intros file H. discriminate H.
Defined.

End SavedAgents.

(** ** The score of an episode *)

Section EpisodeScore.
Import Str Logger Main.

(** What agent [i] collected over the steps of an episode. *)
Definition agent_total (i : nat) (rs : list (list Qc)) : Qc :=
  Np.sum (map (fun r => nth i r 0%Qc) rs).

(** The loss files of the logger are there for every agent and each is named
    after the loss it holds, as [_generate_logfiles] leaves them. *)
Definition losses_writable (L : Logger.t) (multi_agent : MultiAgent.t) : Prop :=
  forall idx, (idx < List.length (MultiAgent.agents multi_agent))%nat ->
    exists names, lossfiles L !! idx = Some names
                  /\ Forall (fun f => contains "actorloss" f = true
                                      \/ contains "criticloss" f = true) names.

Lemma write_agent_losses_ok (str_float : Qc -> string) (agent : MultiAgent.agent)
    (names : list string) (fs : files) :
  Forall (fun f => contains "actorloss" f = true \/ contains "criticloss" f = true) names ->
  exists fs', write_agent_losses str_float agent names fs = (fs', Ok tt).
Proof.
  intros Hnames. revert fs. induction Hnames as [|f names Hf _ IH]; intros fs.
  - exists fs. reflexivity.
  - cbn [write_agent_losses]. unfold loss_for.
    destruct (contains "actorloss" f) eqn:Ea; [apply IH|].
    destruct Hf as [Hf|Hf]; [discriminate Hf|]. rewrite Hf. apply IH.
Qed.

Lemma write_losses_from_ok (str_float : Qc -> string) (L : Logger.t)
    (agents : list MultiAgent.agent) (idx : nat) (fs : files) :
  (forall i, (i < List.length agents)%nat ->
     exists names, lossfiles L !! (idx + i)%nat = Some names
                   /\ Forall (fun f => contains "actorloss" f = true
                                       \/ contains "criticloss" f = true) names) ->
  exists fs', write_losses_from str_float idx agents L fs = (fs', Ok tt).
Proof.
  revert idx fs. induction agents as [|agent agents IH]; intros idx fs Hall.
  - exists fs. reflexivity.
  - cbn [write_losses_from].
    destruct (Hall 0%nat) as (names & Hlook & Hnames); [cbn; lia|].
    rewrite Nat.add_0_r in Hlook. rewrite Hlook.
    destruct (write_agent_losses_ok str_float agent names fs Hnames) as [fs1 ->].
    apply IH. intros i Hi. replace (S idx + i)%nat with (idx + S i)%nat by lia.
    apply Hall. cbn. lia.
Qed.

Lemma log_training (str_float : Qc -> string) (r : list Qc) (multi_agent : MultiAgent.t)
    (L : Logger.t) (fs : files) :
  Logger.eval L = false -> log_every L <> 0 -> losses_writable L multi_agent ->
  List.length r = List.length (Logger.rewards L) ->
  exists fs', Logger.log str_float r (Some multi_agent) L fs
              = (fs', Ok (set_rewards (zip_with Qcplus (Logger.rewards L) r) L)).
Proof.
  intros Heval Hevery Hloss Hlen. unfold Logger.log, Np.iadd.
  rewrite Hlen, Nat.eqb_refl.
  change (Logger.eval (set_rewards (zip_with Qcplus (Logger.rewards L) r) L))
    with (Logger.eval L).
  rewrite Heval.
  change (log_every (set_rewards (zip_with Qcplus (Logger.rewards L) r) L))
    with (log_every L).
  destruct (Z.eqb_spec (log_every L) 0) as [H|_]; [contradiction|].
  destruct (MultiAgent.t_step multi_agent mod log_every L =? 0).
  - unfold _write_losses.
    destruct (write_losses_from_ok str_float
                (set_rewards (zip_with Qcplus (Logger.rewards L) r) L)
                (MultiAgent.agents multi_agent) 0 fs) as [fs' ->].
    + intros i Hi. apply Hloss. exact Hi.
    + exists fs'. reflexivity.
  - exists fs. reflexivity.
Qed.

Lemma length_zip_plus (a b : list Qc) :
  List.length a = List.length b -> List.length (zip_with Qcplus a b) = List.length a.
Proof.
  revert b. induction a as [|x a IH]; intros [|y b] H; cbn in *; try lia.
  rewrite IH; lia.
Qed.

Lemma nth_zip_plus (a b : list Qc) (i : nat) :
  List.length a = List.length b ->
  nth i (zip_with Qcplus a b) 0%Qc = (nth i a 0 + nth i b 0)%Qc.
Proof.
  revert b i. induction a as [|x a IH]; intros [|y b] i H; cbn in H; try lia.
  - destruct i; change (0%Qc = (0 + 0)%Qc); ring.
  - destruct i; cbn [zip_with nth]; [reflexivity|]. apply IH. lia.
Qed.

Lemma fold_totals (rs : list (list Qc)) (acc : list Qc) (i : nat) :
  Forall (fun r => List.length r = List.length acc) rs ->
  List.length (fold_left (zip_with Qcplus) rs acc) = List.length acc
  /\ nth i (fold_left (zip_with Qcplus) rs acc) 0%Qc = (nth i acc 0 + agent_total i rs)%Qc.
Proof.
  revert acc. induction rs as [|r rs IH]; intros acc Hall.
  - cbn [fold_left]. split; [reflexivity|]. unfold agent_total, Np.sum. cbn [map fold_right]. ring.
  - inversion Hall as [|? ? Hr Hrs]; subst. cbn [fold_left].
    destruct (IH (zip_with Qcplus acc r)) as [Hlen Hnth].
    { eapply Forall_impl; [|exact Hrs]. intros r' Hr'. cbn beta in Hr'.
      rewrite length_zip_plus by lia. exact Hr'. }
    rewrite Hlen, Hnth, length_zip_plus, nth_zip_plus by lia.
    split; [reflexivity|]. unfold agent_total, Np.sum. cbn [map fold_right]. ring.
Qed.

Lemma nth_zeros (n i : nat) : nth i (Np.zeros n) 0%Qc = 0%Qc.
Proof.
  unfold Np.zeros. revert i. induction n as [|n IH]; intros [|i]; cbn; auto.
Qed.

Lemma leb_false_ge (x y : Qc) : Np.leb x y = false -> (y <= x)%Qc.
Proof.
  unfold Np.leb. intros H. apply Qclt_le_weak, Qcnot_le_lt. intros Hle.
  apply Qle_bool_iff in Hle. unfold Qcle in *. congruence.
Qed.

Lemma leb_true_le (x y : Qc) : Np.leb x y = true -> (x <= y)%Qc.
Proof.
  unfold Np.leb. intros H. apply Qle_bool_iff in H. exact H.
Qed.

Lemma fold_max2_init (l : list Qc) (x : Qc) : (x <= fold_left Np.max2 l x)%Qc.
Proof.
  revert x. induction l as [|z l IH]; intros x; cbn [fold_left].
  - apply Qcle_refl.
  - eapply Qcle_trans; [|apply IH]. unfold Np.max2.
    destruct (Np.leb x z) eqn:E; [apply leb_true_le, E|apply Qcle_refl].
Qed.

Lemma fold_max2_ge (l : list Qc) (x y : Qc) :
  In y (x :: l) -> (y <= fold_left Np.max2 l x)%Qc.
Proof.
  revert x. induction l as [|z l IH]; intros x Hy.
  - destruct Hy as [->|[]]. apply Qcle_refl.
  - cbn [fold_left]. destruct Hy as [->|[->|Hy]].
    + eapply Qcle_trans; [|apply fold_max2_init]. unfold Np.max2.
      destruct (Np.leb y z) eqn:E; [apply leb_true_le, E|apply Qcle_refl].
    + eapply Qcle_trans; [|apply fold_max2_init]. unfold Np.max2.
      destruct (Np.leb x y) eqn:E; [apply Qcle_refl|apply leb_false_ge, E].
    + apply IH. right. exact Hy.
Qed.

Lemma fold_max2_in (l : list Qc) (x : Qc) : In (fold_left Np.max2 l x) (x :: l).
Proof.
  revert x. induction l as [|z l IH]; intros x; cbn [fold_left].
  - left. reflexivity.
  - destruct (IH (Np.max2 x z)) as [H|H].
    + unfold Np.max2 in H at 1. destruct (Np.leb x z).
      * right. left. exact H.
      * left. exact H.
    + right. right. exact H.
Qed.

Lemma np_max_spec (a : list Qc) :
  a <> [] ->
  exists m, Np.max a = Ok m /\ In m a /\ forall x, In x a -> (x <= m)%Qc.
Proof.
  destruct a as [|x a]; [contradiction|]. intros _.
  exists (fold_left Np.max2 a x). split; [reflexivity|].
  split; [apply fold_max2_in|]. intros y Hy. apply fold_max2_ge, Hy.
Qed.

Lemma latest_after_append (maxlen : nat) (x : Qc) (d : list Qc) (L : Logger.t) :
  (0 < maxlen)%nat ->
  latest_score (set_scores (deque_append maxlen x d) L) = Ok x.
Proof.
  intros Hm. unfold latest_score, deque_append. cbn [scores set_scores].
  rewrite length_app. cbn [List.length].
  rewrite skipn_app.
  replace (List.length d + 1 - maxlen - List.length d)%nat with 0%nat by lia.
  cbn [skipn]. rewrite rev_app_distr. reflexivity.
Qed.

Lemma step_training (str_float : Qc -> string) (L : Logger.t) (fs : files)
    (eps_num : Z) (m : Qc) :
  Logger.eval L = false -> Np.max (Logger.rewards L) = Ok m ->
  1 <= print_every L -> 1 <= eps_num ->
  Logger.step str_float (Some eps_num) L fs
  = (append_file (scoresfile L) (str_float m ++ nl) fs,
     Ok (_reset_rewards
           (set_scores (deque_append (Z.to_nat (print_every L)) m (scores L)) L))).
Proof.
  intros Heval Hmax Hpe Heps. unfold Logger.step, _update_score. rewrite Hmax.
  cbn [mbind result_bind].
  set (L1 := set_scores (deque_append (Z.to_nat (print_every L)) m (scores L)) L).
  change (Logger.eval (_reset_rewards L1)) with (Logger.eval L). rewrite Heval.
  unfold _write_scores.
  change (latest_score (_reset_rewards L1)) with (latest_score L1).
  unfold L1 at 1. rewrite latest_after_append by lia.
  change (scoresfile (_reset_rewards L1)) with (scoresfile L).
  change (print_every (_reset_rewards L1)) with (print_every L).
  change (max_eps (_reset_rewards L1)) with (max_eps L).
  destruct (Z.eqb_spec (print_every L) 0) as [H|_]; [lia|].
  destruct (Z.eqb_spec eps_num 0) as [H|_]; [lia|].
  destruct ((eps_num mod print_every L =? 0) || (eps_num =? max_eps L)); reflexivity.
Qed.

Lemma episode_until_done (str_float : Qc -> string) (pre : list env_step) (last : env_step)
    (L : Logger.t) (fs : files) :
  Logger.eval L = false -> log_every L <> 0 ->
  Forall (fun s => List.length (rewards s) = List.length (Logger.rewards L)
                   /\ losses_writable L (multi_agent s)) (pre ++ [last]) ->
  none_done pre -> existsb id (dones last) = true ->
  exists fs',
    episode str_float (pre ++ [last]) L fs
    = (fs', Ok (Break_done,
                set_rewards (fold_left (zip_with Qcplus) (map rewards (pre ++ [last]))
                                       (Logger.rewards L)) L,
                [])).
Proof.
  intros Heval Hevery. revert L fs Heval Hevery.
  induction pre as [|s pre IH]; intros L fs Heval Hevery Hall Hpre Hlast.
  - cbn [app] in *. inversion Hall as [|? ? [Hlen Hloss] _]; subst.
    cbn [episode].
    destruct (log_training str_float (rewards last) (multi_agent last) L fs
                Heval Hevery Hloss Hlen) as [fs' ->].
    rewrite Hlast. exists fs'. reflexivity.
  - cbn [app] in *. inversion Hall as [|? ? [Hlen Hloss] Hrest]; subst.
    inversion Hpre as [|? ? Hs Hpre']; subst.
    cbn [episode].
    destruct (log_training str_float (rewards s) (multi_agent s) L fs
                Heval Hevery Hloss Hlen) as [fs1 ->].
    rewrite Hs, cutoff_false.
    destruct (IH (set_rewards (zip_with Qcplus (Logger.rewards L) (rewards s)) L) fs1)
      as [fs' Hrun]; try assumption.
    { eapply Forall_impl; [|exact Hrest]. intros s' [Hlen' Hloss']. split.
      - cbn [Logger.rewards set_rewards]. rewrite length_zip_plus by lia. exact Hlen'.
      - exact Hloss'. }
    exists fs'. rewrite Hrun. reflexivity.
Qed.

(** The methods of the logger on their own, with sums taken exactly: after
    the steps of an episode (the last one, and no other, reporting a done
    flag) have been passed to [log] from a zeroed accumulator, the
    accumulator holds each agent's sum of rewards over the episode; a call
    of [step] then appends to the scores file the line of one score, which
    is the total of some agent and at least the total of every agent, keeps
    it as the latest score, and leaves the accumulator all zeros. *)
Theorem episode_score_is_max_total (str_float : Qc -> string) (L : Logger.t) (fs : files)
    (pre : list env_step) (last : env_step) (eps_num : Z) :
  Logger.eval L = false -> (0 < agent_count L)%nat ->
  1 <= print_every L -> log_every L <> 0 -> 1 <= eps_num ->
  Logger.rewards L = Np.zeros (agent_count L) ->
  Forall (fun s => List.length (rewards s) = agent_count L
                   /\ losses_writable L (multi_agent s)) (pre ++ [last]) ->
  none_done pre -> existsb id (dones last) = true ->
  exists (fs1 : files) (L1 : Logger.t) (score : Qc) (L2 : Logger.t),
    episode str_float (pre ++ [last]) L fs = (fs1, Ok (Break_done, L1, []))
    /\ List.length (Logger.rewards L1) = agent_count L
    /\ (forall i, (i < agent_count L)%nat ->
          nth i (Logger.rewards L1) 0%Qc = agent_total i (map rewards (pre ++ [last])))
    /\ (exists i, (i < agent_count L)%nat
                  /\ score = agent_total i (map rewards (pre ++ [last])))
    /\ (forall i, (i < agent_count L)%nat ->
          (agent_total i (map rewards (pre ++ [last])) <= score)%Qc)
    /\ Logger.step str_float (Some eps_num) L1 fs1
       = (append_file (scoresfile L) (str_float score ++ nl) fs1, Ok L2)
    /\ latest_score L2 = Ok score
    /\ Logger.rewards L2 = Np.zeros (agent_count L).
Proof.
  intros Heval Hcount Hpe Hevery Heps Hzero Hall Hpre Hlast.
  assert (Hlen0 : List.length (Logger.rewards L) = agent_count L)
    by (rewrite Hzero; apply repeat_length).
  destruct (episode_until_done str_float pre last L fs Heval Hevery) as [fs1 Hrun];
    try assumption.
  { eapply Forall_impl; [|exact Hall]. intros s [H1 H2]. split; [lia|exact H2]. }
  set (acc := fold_left (zip_with Qcplus) (map rewards (pre ++ [last])) (Logger.rewards L))
    in *.
  assert (Hrs : Forall (fun r => List.length r = List.length (Logger.rewards L))
                       (map rewards (pre ++ [last]))).
  { apply Forall_map. eapply Forall_impl; [|exact Hall]. intros s [H1 _]. cbn beta. lia. }
  assert (Hacc : List.length acc = agent_count L
                 /\ forall i, nth i acc 0%Qc = agent_total i (map rewards (pre ++ [last]))).
  { split.
    - destruct (fold_totals _ _ 0%nat Hrs) as [H _]. unfold acc. lia.
    - intros i. destruct (fold_totals _ _ i Hrs) as [_ H]. unfold acc. rewrite H, Hzero, nth_zeros.
      ring. }
  destruct Hacc as [Hacclen Haccnth].
  destruct (np_max_spec acc) as (m & Hmax & Hin & Hge).
  { intros E. rewrite E in Hacclen. cbn in Hacclen. lia. }
  exists fs1, (set_rewards acc L), m.
  eexists. split; [exact Hrun|]. split; [exact Hacclen|].
  split; [intros i _; apply Haccnth|].
  split.
  { destruct (In_nth acc m 0%Qc Hin) as (i & Hi & Hnth).
    exists i. split; [lia|]. rewrite <- Haccnth. symmetry. exact Hnth. }
  split.
  { intros i Hi. rewrite <- Haccnth. apply Hge, nth_In. lia. }
  split.
  { apply (step_training str_float (set_rewards acc L) fs1 eps_num m); assumption. }
  split.
  - change (latest_score (set_scores (deque_append (Z.to_nat (print_every L)) m (scores L))
                            (set_rewards acc L)) = Ok m).
    apply latest_after_append. lia.
  - reflexivity.
Qed.

(** Two agents and the logger [Logger(multi_agent, args, save_dir)] builds for
    them in a training run. *)
Definition two_agents : MultiAgent.t :=
  MultiAgent.Make "MAD4PG" 2
    [MultiAgent.Agent (Q2Qc (1 # 2)) (Q2Qc (1 # 3));
     MultiAgent.Agent (Q2Qc (1 # 4)) (Q2Qc (1 # 5))] 15 1.

Definition fresh_logger : Logger.t :=
  Logger.Make "saves/MAD4PG_20240101_v001"
    {[ 0%nat := ["saves/MAD4PG_20240101_v001/logs/MAD4PG_20240101_v001_agent1_actorloss.txt";
                 "saves/MAD4PG_20240101_v001/logs/MAD4PG_20240101_v001_agent1_criticloss.txt"];
       1%nat := ["saves/MAD4PG_20240101_v001/logs/MAD4PG_20240101_v001_agent2_actorloss.txt";
                 "saves/MAD4PG_20240101_v001/logs/MAD4PG_20240101_v001_agent2_criticloss.txt"] ]}
    false 1000 false 15 10 "MAD4PG" 2
    "saves/MAD4PG_20240101_v001/logs" "MAD4PG_20240101_v001"
    "saves/MAD4PG_20240101_v001/logs/MAD4PG_20240101_v001"
    [] (Np.zeros 2)
    "saves/MAD4PG_20240101_v001/logs/MAD4PG_20240101_v001_scores.txt"
    "saves/MAD4PG_20240101_v001/logs/MAD4PG_20240101_v001_LOG.txt".

Definition two_steps : list env_step :=
  [Step [Q2Qc (1 # 10); Q2Qc 0] [false; false] two_agents;
   Step [Q2Qc (1 # 10); Q2Qc (3 # 10)] [false; true] two_agents].

Lemma fresh_logger_writable : losses_writable fresh_logger two_agents.
Proof.
  intros idx Hidx. destruct idx as [|[|idx]].
  - eexists. split; [reflexivity|].
    constructor; [left; reflexivity|]. constructor; [right; reflexivity|]. constructor.
  - eexists. split; [reflexivity|].
    constructor; [left; reflexivity|]. constructor; [right; reflexivity|]. constructor.
  - cbn in Hidx. lia.
Defined.

Lemma episode_score_is_max_total_witness :
  exists (fs1 : files) (L1 : Logger.t) (score : Qc) (L2 : Logger.t),
    episode str_whole two_steps fresh_logger ∅ = (fs1, Ok (Break_done, L1, []))
    /\ List.length (Logger.rewards L1) = 2%nat
    /\ (forall i, (i < 2)%nat ->
          nth i (Logger.rewards L1) 0%Qc = agent_total i (map rewards two_steps))
    /\ (exists i, (i < 2)%nat /\ score = agent_total i (map rewards two_steps))
    /\ (forall i, (i < 2)%nat -> (agent_total i (map rewards two_steps) <= score)%Qc)
    /\ Logger.step str_whole (Some 1) L1 fs1
       = (append_file (scoresfile fresh_logger) (str_whole score ++ nl) fs1, Ok L2)
    /\ latest_score L2 = Ok score
    /\ Logger.rewards L2 = Np.zeros 2.
Proof.
  apply (episode_score_is_max_total str_whole fresh_logger ∅
           [Step [Q2Qc (1 # 10); Q2Qc 0] [false; false] two_agents]
           (Step [Q2Qc (1 # 10); Q2Qc (3 # 10)] [false; true] two_agents) 1).
  - reflexivity.
  - cbn. lia.
  - cbn. lia.
  - discriminate.
  - lia.
  - reflexivity.
  - constructor; [split; [reflexivity|exact fresh_logger_writable]|].
    constructor; [split; [reflexivity|exact fresh_logger_writable]|]. constructor.
  - constructor; [reflexivity|constructor].
  - reflexivity.
Defined.

End EpisodeScore.

(** * Further properties of the Saver *)

Section SaverFurther.
Import Str Saver.

Lemma generate_savename_fresh_witness :
  exists path filename,
    snd (generate_savename "MAD4PG" "saves" "20240101"
           (Some [Dir "MAD4PG_20240101_v001" []; Dir "MAD4PG_20240101_v007" [];
                  File "notes.txt" 0]))
    = Ok (path, filename)
    /\ ~ In filename
           (os_listdir (check_dir (Some [Dir "MAD4PG_20240101_v001" [];
                                         Dir "MAD4PG_20240101_v007" [];
                                         File "notes.txt" 0]))).
Proof.
  apply generate_savename_fresh.
  - reflexivity.
  - intros f Hf Hc. cbn in Hf.
    destruct Hf as [<-|[<-|[<-|[]]]]; [eexists; reflexivity|eexists; reflexivity|discriminate Hc].
Defined.

Lemma valid_selection_returns_witness :
  exists file,
    nth_error (List.rev ["saves/old.agent"; "saves/mid.agent"; "saves/new.agent"])
              (Z.to_nat (2 - 1)) = Some file
    /\ _get_filepath ["saves/old.agent"; "saves/mid.agent"; "saves/new.agent"] 0
         (Console [" 2"; "1"] [])
       = (Console ["1"]
            ([] ++ [file_menu ["saves/old.agent"; "saves/mid.agent"; "saves/new.agent"] 0]),
          Ok file).
Proof.
  apply (valid_selection_returns
           ["saves/old.agent"; "saves/mid.agent"; "saves/new.agent"] 0
           (Console [" 2"; "1"] []) " 2" ["1"] 2).
  - reflexivity.
  - intros [H|H]; discriminate H.
  - reflexivity.
  - cbn. lia.
Defined.

(** X3: [_get_files] returns every [.agent] path that [os.walk] meets, each
    once, ordered by modification time, the oldest first. *)
Theorem get_files_oldest_first (save_dir : string) (top : option (list entry)) :
  exists dated : list (string * Z),
    _get_files save_dir top = map fst dated
    /\ StronglySorted (fun a b => snd a <= snd b) dated
    /\ Permutation (agent_paths (os_walk save_dir top)) dated.
Proof.
  exists (sorted snd (agent_paths (os_walk save_dir top))).
  split; [reflexivity|]. split; [apply sorted_ordered|apply sorted_perm].
Qed.

End SaverFurther.

(** ** The numbers of the menu *)

Section MenuNumbers.
Import Str Saver.

Lemma digit_not_space (c : ascii) : is_digit c = true -> is_space c = false.
Proof.
  destruct c as [[] [] [] [] [] [] [] []]; intros H; try reflexivity; discriminate H.
Qed.

Lemma lstrip_digits (s : string) : all_digits s = true -> lstrip s = s.
Proof.
  destruct s as [|c s]; [reflexivity|]. intros H.
  cbn [all_digits] in H. apply andb_prop in H as [Hc _].
  cbn [lstrip]. rewrite (digit_not_space c Hc). reflexivity.
Qed.

Lemma rev_append_digits (s acc : string) :
  all_digits s = true -> all_digits acc = true -> all_digits (rev_append s acc) = true.
Proof.
  revert acc. induction s as [|c s IH]; intros acc Hs Hacc; [exact Hacc|].
  cbn [all_digits] in Hs. apply andb_prop in Hs as [Hc Hs].
  cbn [rev_append]. apply IH; [exact Hs|]. cbn [all_digits]. rewrite Hc, Hacc. reflexivity.
Qed.

Lemma rev_append_rev_append (s acc : string) :
  rev_append (rev_append s acc) EmptyString = rev_append acc s.
Proof.
  revert acc. induction s as [|c s IH]; intros acc; [reflexivity|].
  cbn [rev_append]. rewrite IH. reflexivity.
Qed.

Lemma strip_digits (s : string) : all_digits s = true -> strip s = s.
Proof.
  intros H. unfold strip, rev. rewrite (lstrip_digits s H).
  rewrite lstrip_digits by (apply rev_append_digits; [exact H|reflexivity]).
  rewrite rev_append_rev_append. reflexivity.
Qed.

Lemma int_body_digits (s : string) (acc : Z) :
  all_digits s = true -> int_body acc true s = Some (int_digits acc s).
Proof.
  revert acc. induction s as [|c s IH]; intros acc H; [reflexivity|].
  cbn [all_digits] in H. apply andb_prop in H as [Hc Hs].
  cbn [int_body int_digits]. rewrite Hc. apply IH, Hs.
Qed.

(** [int] reads a string of decimal digits as the number they write. *)
Lemma py_int_digits (s : string) :
  all_digits s = true -> s <> EmptyString -> py_int s = Some (int_digits 0 s).
Proof.
  intros H Hne. unfold py_int. rewrite (strip_digits s H).
  destruct s as [|c s]; [contradiction|].
  cbn [all_digits] in H. apply andb_prop in H as [Hc Hs].
  assert (E : int_body 0 false (String c s) = Some (int_digits 0 (String c s))).
  { cbn [int_body int_digits]. rewrite Hc. apply int_body_digits, Hs. }
  destruct c as [[] [] [] [] [] [] [] []]; try discriminate Hc; exact E.
Qed.

Lemma str_int_digits (k : Z) :
  1 <= k ->
  all_digits (str_int k) = true /\ str_int k <> EmptyString
  /\ int_digits 0 (str_int k) = k.
Proof.
  intros Hk. destruct k as [|p|p]; try lia. rewrite str_int_pos.
  split; [apply all_digits_uint|]. split.
  - pose proof (Unsigned.to_uint_nonnil p) as H.
    destruct (Pos.to_uint p); [contradiction|discriminate..].
  - rewrite int_digits_uint, Unsigned.of_to. reflexivity.
Qed.

Lemma py_int_str_int (k : Z) : 1 <= k -> py_int (str_int k) = Some k.
Proof.
  intros Hk. destruct (str_int_digits k Hk) as (Hd & Hne & Hint).
  rewrite (py_int_digits _ Hd Hne), Hint. reflexivity.
Qed.

Lemma digits_not_quit (s : string) :
  all_digits s = true -> s <> EmptyString -> ~ is_quit s.
Proof.
  intros H Hne. destruct s as [|c s]; [contradiction|].
  cbn [all_digits] in H. apply andb_prop in H as [Hc _].
  intros [Hq|Hq]; cbn [lower] in Hq;
    destruct c as [[] [] [] [] [] [] [] []]; try discriminate Hc; discriminate Hq.
Qed.

(** The lines of the menu, before they are joined. *)
Definition menu_lines (files : list string) : list string :=
  imap (fun i file => str_int (Z.of_nat (List.length files) - Z.of_nat i) ++ ". " ++ file)
       files.

Lemma nth_error_imap {A B : Type} (f : nat -> A -> B) (l : list A) (i : nat) :
  nth_error (imap f l) i = option_map (f i) (nth_error l i).
Proof.
  revert f i. induction l as [|x l IH]; intros f i.
  - destruct i; reflexivity.
  - rewrite imap_cons. destruct i as [|i]; [reflexivity|]. exact (IH (f ∘ S) i).
Qed.

Lemma file_menu_lines (files : list string) (idx : Z) :
  file_menu files idx
  = replace_char "\" "/" (join nl (menu_lines files)) ++ "(LATEST)" ++ nl ++ nl
    ++ load_file_prompt idx.
Proof. reflexivity. Qed.

(** X4: the number shown in front of a file in the menu is the number that
    selects it: typed at the prompt, it makes [_get_filepath] return that
    file. *)
Theorem menu_number_selects (files : list string) (idx : Z) (c : console)
    (rest : list string) (i : nat) (file : string) :
  nth_error files i = Some file ->
  stdin c = str_int (Z.of_nat (List.length files) - Z.of_nat i) :: rest ->
  nth_error (menu_lines files) i
    = Some (str_int (Z.of_nat (List.length files) - Z.of_nat i) ++ ". " ++ file)
  /\ _get_filepath files idx c
     = (Console rest (stdout c ++ [file_menu files idx]), Ok file).
Proof.
  intros Hnth Hin.
  assert (Hi : (i < List.length files)%nat) by (apply nth_error_Some; rewrite Hnth; discriminate).
  set (k := Z.of_nat (List.length files) - Z.of_nat i) in *.
  assert (Hk : 1 <= k) by (unfold k; lia).
  destruct (str_int_digits k Hk) as (Hd & Hne & _).
  split.
  - unfold menu_lines. rewrite nth_error_imap, Hnth. reflexivity.
  - apply (get_filepath_pick files idx c (str_int k) file rest Hin).
    split; [apply digits_not_quit; assumption|].
    unfold select_file. rewrite (py_int_str_int k Hk).
    destruct (Z.leb_spec 0 (Z.of_nat (List.length files) - k)) as [_|H]; [|unfold k in H; lia].
    replace (Z.to_nat (Z.of_nat (List.length files) - k)) with i by (unfold k; lia).
    rewrite Hnth. reflexivity.
Qed.

Lemma menu_number_selects_witness :
  nth_error (menu_lines ["saves/old.agent"; "saves/new.agent"]) 0 = Some "2. saves/old.agent"
  /\ _get_filepath ["saves/old.agent"; "saves/new.agent"] 1 (Console ["2"; "q"] [])
     = (Console ["q"] ([] ++ [file_menu ["saves/old.agent"; "saves/new.agent"] 1]),
        Ok "saves/old.agent").
Proof.
  apply (menu_number_selects ["saves/old.agent"; "saves/new.agent"] 1
           (Console ["2"; "q"] []) ["q"] 0 "saves/old.agent").
  - reflexivity.
  - reflexivity.
Defined.

End MenuNumbers.

(** ** Resuming from saved agents *)

Section Resuming.
Import Str Saver.

Lemma sorted_last_greatest {A : Type} (R : A -> A -> Prop) (l : list A) (x : A) :
  StronglySorted R (l ++ [x]) -> forall y, In y l -> R y x.
Proof.
  induction l as [|z l IH]; intros Hs y Hy; [destruct Hy|].
  cbn [app] in Hs. inversion Hs as [|? ? Hl Hz]; subst.
  destruct Hy as [<-|Hy].
  - rewrite Forall_forall in Hz. apply Hz, in_or_app. right. left. reflexivity.
  - apply IH; assumption.
Qed.

Lemma nonempty_last {A : Type} (l : list A) :
  l <> [] -> exists l' x, l = (l' ++ [x])%list.
Proof.
  intros Hne. destruct (exists_last Hne) as (l' & x & ->). exists l', x. reflexivity.
Qed.

(** X5: typing [1] at the prompt selects a file that no other listed file
    is newer than. *)
Theorem number_one_is_latest (save_dir : string) (top : option (list entry)) (idx : Z)
    (c : console) (rest : list string) :
  has_agent_file top -> stdin c = "1" :: rest ->
  exists file mtime,
    In (file, mtime) (agent_paths (os_walk save_dir top))
    /\ (forall p m, In (p, m) (agent_paths (os_walk save_dir top)) -> m <= mtime)
    /\ _get_filepath (_get_files save_dir top) idx c
       = (Console rest (stdout c ++ [file_menu (_get_files save_dir top) idx]), Ok file).
Proof.
  intros Hhas Hin.
  apply (get_files_nonempty save_dir) in Hhas.
  pose proof (sorted_ordered snd (agent_paths (os_walk save_dir top))) as Hsorted.
  pose proof (sorted_perm snd (agent_paths (os_walk save_dir top))) as Hperm.
  assert (Hfiles : _get_files save_dir top
                   = map fst (sorted snd (agent_paths (os_walk save_dir top)))) by reflexivity.
  destruct (nonempty_last (sorted snd (agent_paths (os_walk save_dir top))))
    as (l' & [file mtime] & El).
  { intros E. rewrite Hfiles, E in Hhas. cbn in Hhas. lia. }
  rewrite El in Hsorted, Hperm.
  exists file, mtime. split; [|split].
  - eapply Permutation_in; [symmetry; exact Hperm|]. apply in_or_app. right. left. reflexivity.
  - intros p m Hp. apply (Permutation_in _ Hperm) in Hp.
    apply in_app_or in Hp as [Hp|[Hp|[]]].
    + apply (sorted_last_greatest _ _ _ Hsorted (p, m) Hp).
    + injection Hp as _ <-. lia.
  - apply (get_filepath_pick _ idx c "1" file rest Hin).
    split; [intros [H|H]; discriminate H|].
    unfold select_file. change (py_int "1") with (Some 1).
    rewrite Hfiles, El, map_app, length_app. cbn [map List.length fst].
    destruct (Z.leb_spec 0 (Z.of_nat (List.length (map fst l') + 1) - 1)) as [_|H]; [|lia].
    replace (Z.to_nat (Z.of_nat (List.length (map fst l') + 1) - 1))
      with (List.length (map fst l') + 0)%nat by lia.
    rewrite nth_error_app2 by lia.
    replace (List.length (map fst l') + 0 - List.length (map fst l'))%nat with 0%nat by lia.
    reflexivity.
Qed.

Lemma number_one_is_latest_witness :
  exists file mtime,
    In (file, mtime)
       (agent_paths (os_walk "saves" (Some [Dir "run" [File "a.agent" 7]; File "b.agent" 3])))
    /\ (forall p m,
          In (p, m) (agent_paths (os_walk "saves"
                                    (Some [Dir "run" [File "a.agent" 7]; File "b.agent" 3]))) ->
          m <= mtime)
    /\ _get_filepath (_get_files "saves" (Some [Dir "run" [File "a.agent" 7]; File "b.agent" 3]))
         0 (Console ["1"] [])
       = (Console []
            ([] ++ [file_menu (_get_files "saves"
                                 (Some [Dir "run" [File "a.agent" 7]; File "b.agent" 3])) 0]),
          Ok file).
Proof.
  apply (number_one_is_latest "saves" (Some [Dir "run" [File "a.agent" 7]; File "b.agent" 3])
           0 (Console ["1"] []) []).
  - apply (get_files_nonempty "saves"). vm_compute. lia.
  - reflexivity.
Defined.

Lemma prompt_each_picks (files : list string) (idxs : list Z) (c : console)
    (lines chosen rest : list string) :
  stdin c = (lines ++ rest)%list ->
  Forall2 (picks files) lines chosen ->
  List.length lines = List.length idxs ->
  exists c', prompt_each files idxs c = (c', Ok chosen) /\ stdin c' = rest.
Proof.
  intros Hin Hpicks. revert idxs c Hin.
  induction Hpicks as [|line file lines chosen Hpick _ IH]; intros idxs c Hin Hlen.
  - destruct idxs; [|discriminate Hlen]. exists c. split; [reflexivity|exact Hin].
  - destruct idxs as [|idx idxs]; [discriminate Hlen|]. cbn [prompt_each].
    rewrite (get_filepath_pick files idx c line file (lines ++ rest) Hin Hpick).
    destruct (IH idxs (Console (lines ++ rest) (stdout c ++ [file_menu files idx])))
      as (c' & Hrun & Hstd); [reflexivity|cbn in Hlen; lia|].
    rewrite Hrun. exists c'. split; [reflexivity|exact Hstd].
Qed.

(** X6: in resume or eval mode, when files are found and the user answers
    each agent's prompt with a valid selection, [_get_agent_file] returns one
    selected file per agent, in the order of the agents, having read one line
    per agent; the [Saver] that starts then holds exactly these files as
    loaded. *)
Theorem resume_loads_selection (a : Args.t) (agent_count : nat)
    (framework timestamp : string) (top : option (list entry)) (c : console)
    (lines chosen rest : list string) :
  Args.resume a || Args.eval a = true ->
  _get_files (Args.save_dir a) top <> [] ->
  stdin c = (lines ++ rest)%list ->
  Forall2 (picks (_get_files (Args.save_dir a) top)) lines chosen ->
  List.length lines = agent_count ->
  exists c',
    _get_agent_file a agent_count top c = (c', Ok (Some chosen))
    /\ stdin c' = rest
    /\ List.length chosen = agent_count
    /\ forall path name,
         snd (generate_savename framework (Args.save_dir a) timestamp top) = Ok (path, name) ->
         (0 < agent_count)%nat ->
         exists c'',
           Saver.__init__ framework agent_count a timestamp top c
           = (Some (check_dir top), c'', Ok (Make ".agent" path name chosen)).
Proof.
  intros Hmode Hne Hin Hpicks Hlen.
  destruct (prompt_each_picks (_get_files (Args.save_dir a) top)
              (map Z.of_nat (seq 0 agent_count)) c lines chosen rest Hin Hpicks)
    as (c' & Hrun & Hstd).
  { rewrite length_map, length_seq. exact Hlen. }
  assert (Hget : _get_agent_file a agent_count top c = (c', Ok (Some chosen))).
  { unfold _get_agent_file. rewrite Hmode.
    destruct (_get_files (Args.save_dir a) top) as [|f files] eqn:E; [contradiction|].
    cbn [List.length Nat.ltb Nat.leb]. rewrite Hrun. reflexivity. }
  exists c'. split; [exact Hget|]. split; [exact Hstd|].
  assert (Hchosen : List.length chosen = agent_count).
  { rewrite <- Hlen. symmetry. eapply Forall2_length. exact Hpicks. }
  split; [exact Hchosen|].
  intros path name Hgen Hpos.
  unfold Saver.__init__. rewrite Hget.
  destruct (generate_savename framework (Args.save_dir a) timestamp top) as [children r] eqn:Eg.
  cbn [snd] in Hgen. subst r.
  assert (Hch : children = check_dir top).
  { pose proof (f_equal fst Eg) as E1. symmetry. exact E1. }
  subst children.
  destruct chosen as [|file files]; [cbn in Hchosen; lia|].
  eexists. reflexivity.
Qed.

Lemma resume_loads_selection_witness :
  exists c',
    _get_agent_file resume_args 2 (Some [File "old.agent" 1; File "new.agent" 2])
      (Console ["1"; "2"; "x"] [])
    = (c', Ok (Some ["saves/new.agent"; "saves/old.agent"]))
    /\ stdin c' = ["x"]
    /\ List.length ["saves/new.agent"; "saves/old.agent"] = 2%nat
    /\ forall path name,
         snd (generate_savename "MAD4PG" (Args.save_dir resume_args) "20240101"
                (Some [File "old.agent" 1; File "new.agent" 2])) = Ok (path, name) ->
         (0 < 2)%nat ->
         exists c'',
           Saver.__init__ "MAD4PG" 2 resume_args "20240101"
             (Some [File "old.agent" 1; File "new.agent" 2]) (Console ["1"; "2"; "x"] [])
           = (Some (check_dir (Some [File "old.agent" 1; File "new.agent" 2])), c'',
              Ok (Make ".agent" path name ["saves/new.agent"; "saves/old.agent"])).
Proof.
  apply (resume_loads_selection resume_args 2 "MAD4PG" "20240101"
           (Some [File "old.agent" 1; File "new.agent" 2])
           (Console ["1"; "2"; "x"] []) ["1"; "2"]
           ["saves/new.agent"; "saves/old.agent"] ["x"]).
  - reflexivity.
  - discriminate.
  - reflexivity.
  - constructor; [|constructor; [|constructor]].
    + split; [intros [H|H]; discriminate H|reflexivity].
    + split; [intros [H|H]; discriminate H|reflexivity].
  - reflexivity.
Defined.

End Resuming.

(** ** What a save leaves on disk *)

Section Saving.
Import Str Saver.

Lemma listdir_torch_save (name : string) (now : Z) (files : list entry) (n : string) :
  In n (os_listdir (torch_save name now files)) <-> n = name \/ In n (os_listdir files).
Proof.
  unfold os_listdir. induction files as [|e files IH]; cbn [torch_save map In].
  - split; [intros [H|[]]; auto|intros [H|[]]; auto].
  - destruct (String.eqb_spec (entry_name e) name) as [E|E]; cbn [map In entry_name].
    + rewrite E. split; [intros [H|H]; auto|intros [H|[H|H]]; auto].
    + rewrite IH. tauto.
Qed.

Lemma listdir_fold_torch_save (g : nat -> string) (now : Z) (idxs : list nat)
    (files : list entry) (n : string) :
  In n (os_listdir (fold_left (fun files idx => torch_save (g idx) now files) idxs files))
  <-> (exists idx, In idx idxs /\ n = g idx) \/ In n (os_listdir files).
Proof.
  revert files. induction idxs as [|idx idxs IH]; intros files; cbn [fold_left].
  - split; [auto|]. intros [(idx & [] & _)|H]; exact H.
  - rewrite IH, listdir_torch_save. split.
    + intros [(i & Hi & ->)|[->|H]]; [left; exists i; split; [right|]; auto| |auto].
      left. exists idx. split; [left|]; reflexivity.
    + intros [(i & [<-|Hi] & ->)|H]; [right; left; reflexivity| |right; right; exact H].
      left. exists i. auto.
Qed.

Lemma listdir_in_subdir (name : string) (f : list entry -> list entry)
    (children : list entry) :
  os_listdir (in_subdir name f children) = os_listdir children.
Proof.
  unfold os_listdir. induction children as [|[n m|n inner] rest IH]; cbn [in_subdir map].
  - reflexivity.
  - rewrite IH. reflexivity.
  - destruct (String.eqb n name); cbn [map entry_name]; [reflexivity|]. rewrite IH. reflexivity.
Qed.

Lemma in_subdir_others (name : string) (f : list entry -> list entry)
    (children : list entry) (e : entry) :
  In e children -> entry_name e <> name -> In e (in_subdir name f children).
Proof.
  induction children as [|[n m|n inner] rest IH]; intros He Hne; [destruct He| |].
  - cbn [in_subdir]. destruct He as [<-|He]; [left; reflexivity|right; apply IH; assumption].
  - cbn [in_subdir]. destruct (String.eqb_spec n name) as [E|E].
    + destruct He as [<-|He]; [cbn in Hne; contradiction|right; exact He].
    + destruct He as [<-|He]; [left; reflexivity|right; apply IH; assumption].
Qed.

Lemma in_subdir_applies (name : string) (f : list entry -> list entry)
    (children : list entry) :
  (forall e, In e children -> entry_name e = name -> exists inner, e = Dir name inner) ->
  In name (os_listdir children) ->
  exists inner, In (Dir name inner) children
                /\ In (Dir name (f inner)) (in_subdir name f children).
Proof.
  induction children as [|e rest IH]; intros Hdirs Hin; [destruct Hin|].
  destruct e as [n m|n inner].
  - cbn [in_subdir]. destruct Hin as [E|Hin].
    + cbn in E. destruct (Hdirs (File n m)) as [inner H]; [left; reflexivity|exact E|].
      discriminate H.
    + destruct IH as (inner & H1 & H2); [intros e He; apply Hdirs; right; exact He|exact Hin|].
      exists inner. split; right; assumption.
  - cbn [in_subdir]. destruct (String.eqb_spec n name) as [->|E].
    + exists inner. split; left; reflexivity.
    + destruct Hin as [E'|Hin]; [cbn in E'; contradiction|].
      destruct IH as (inner' & H1 & H2); [intros e He; apply Hdirs; right; exact He|exact Hin|].
      exists inner'. split; right; assumption.
Qed.

Lemma check_subdir_lists (name : string) (children : list entry) :
  In name (os_listdir (check_subdir name children))
  /\ (forall e, In e children -> In e (check_subdir name children))
  /\ (forall e, In e (check_subdir name children) -> In e children \/ e = Dir name []).
Proof.
  unfold check_subdir.
  destruct (existsb (fun e => String.eqb (entry_name e) name) children) eqn:E.
  - split; [|split; auto].
    apply existsb_exists in E as (e & He & Hn). apply String.eqb_eq in Hn.
    unfold os_listdir. apply in_map_iff. exists e. auto.
  - split; [|split].
    + unfold os_listdir. rewrite map_app. apply in_or_app. right. left. reflexivity.
    + intros e He. apply in_or_app. left. exact He.
    + intros e He. apply in_app_or in He as [He|[<-|[]]]; auto.
Qed.

(** X7: [_save] removes nothing from the save directory: what is listed there
    afterwards is what was listed before plus the run's own directory, entries
    of other names are untouched, and the run's directory holds a file
    [<save_name>_agent<i><ext>] for each agent [i]. *)
Theorem save_writes_agent_files (s : Saver.t) (agent_count : nat) (save_name mssg : string)
    (now : Z) (children : list entry) (c : console) :
  (forall e, In e children -> entry_name e = filename s ->
             exists inner, e = Dir (filename s) inner) ->
  os_listdir (fst (_save s agent_count save_name mssg now children c))
    = os_listdir (check_subdir (filename s) children)
  /\ In (filename s) (os_listdir (fst (_save s agent_count save_name mssg now children c)))
  /\ (forall e, In e children -> entry_name e <> filename s ->
                In e (fst (_save s agent_count save_name mssg now children c)))
  /\ exists inner,
       In (Dir (filename s) inner) (fst (_save s agent_count save_name mssg now children c))
       /\ forall idx, (idx < agent_count)%nat ->
            In (save_name ++ "_agent" ++ str_int (Z.of_nat idx + 1) ++ file_ext s)
               (os_listdir inner).
Proof.
  intros Hdirs. unfold _save. cbn [fst].
  destruct (check_subdir_lists (filename s) children) as (Hname & Hkeep & Hfrom).
  rewrite listdir_in_subdir.
  split; [reflexivity|]. split; [exact Hname|]. split.
  - intros e He Hne. apply in_subdir_others; [apply Hkeep, He|exact Hne].
  - set (f := fun files =>
                fold_left (fun files idx =>
                             torch_save (save_name ++ "_agent" ++ str_int (Z.of_nat idx + 1)
                                         ++ file_ext s) now files)
                          (seq 0 agent_count) files).
    destruct (in_subdir_applies (filename s) f (check_subdir (filename s) children))
      as (inner & _ & Hin).
    + intros e He Hn. apply Hfrom in He as [He| ->]; [apply Hdirs; assumption|].
      exists []. reflexivity.
    + exact Hname.
    + exists (f inner). split; [exact Hin|].
      intros idx Hidx. unfold f.
      apply (listdir_fold_torch_save
               (fun idx => save_name ++ "_agent" ++ str_int (Z.of_nat idx + 1) ++ file_ext s)).
      left. exists idx. split; [apply in_seq; lia|reflexivity].
Qed.

Lemma save_writes_agent_files_witness :
  os_listdir (fst (_save (Make ".agent" "saves/MAD4PG_20240101_v002" "MAD4PG_20240101_v002" [])
                     2 "MAD4PG_20240101_v002_eps0100_ckpt" "Saving Agent checkpoint to: " 9
                     [Dir "MAD4PG_20240101_v001" [File "x.agent" 1]] (Console [] [])))
  = os_listdir (check_subdir "MAD4PG_20240101_v002" [Dir "MAD4PG_20240101_v001" [File "x.agent" 1]])
  /\ In "MAD4PG_20240101_v002"
        (os_listdir (fst (_save (Make ".agent" "saves/MAD4PG_20240101_v002"
                                   "MAD4PG_20240101_v002" [])
                            2 "MAD4PG_20240101_v002_eps0100_ckpt" "Saving Agent checkpoint to: " 9
                            [Dir "MAD4PG_20240101_v001" [File "x.agent" 1]] (Console [] []))))
  /\ (forall e, In e [Dir "MAD4PG_20240101_v001" [File "x.agent" 1]] ->
                entry_name e <> "MAD4PG_20240101_v002" ->
                In e (fst (_save (Make ".agent" "saves/MAD4PG_20240101_v002"
                                    "MAD4PG_20240101_v002" [])
                             2 "MAD4PG_20240101_v002_eps0100_ckpt" "Saving Agent checkpoint to: " 9
                             [Dir "MAD4PG_20240101_v001" [File "x.agent" 1]] (Console [] []))))
  /\ exists inner,
       In (Dir "MAD4PG_20240101_v002" inner)
          (fst (_save (Make ".agent" "saves/MAD4PG_20240101_v002" "MAD4PG_20240101_v002" [])
                  2 "MAD4PG_20240101_v002_eps0100_ckpt" "Saving Agent checkpoint to: " 9
                  [Dir "MAD4PG_20240101_v001" [File "x.agent" 1]] (Console [] [])))
       /\ forall idx, (idx < 2)%nat ->
            In ("MAD4PG_20240101_v002_eps0100_ckpt" ++ "_agent" ++ str_int (Z.of_nat idx + 1)
                ++ ".agent")
               (os_listdir inner).
Proof.
  apply (save_writes_agent_files
           (Make ".agent" "saves/MAD4PG_20240101_v002" "MAD4PG_20240101_v002" [])
           2 "MAD4PG_20240101_v002_eps0100_ckpt" "Saving Agent checkpoint to: " 9
           [Dir "MAD4PG_20240101_v001" [File "x.agent" 1]] (Console [] [])).
  intros e [<-|[]] H. discriminate H.
Defined.

End Saving.

(** * Further properties of the Logger *)

Section LoggerInvariants.
Import Str Logger.

Lemma deque_append_spec (maxlen : nat) (x : Qc) (d : list Qc) :
  (List.length (deque_append maxlen x d) <= maxlen)%nat
  /\ exists dropped, (d ++ [x])%list = (dropped ++ deque_append maxlen x d)%list.
Proof.
  unfold deque_append. split.
  - rewrite length_skipn. lia.
  - exists (firstn (List.length (d ++ [x]) - maxlen) (d ++ [x])).
    symmetry. apply firstn_skipn.
Qed.

Lemma latest_of_deque (maxlen : nat) (score x : Qc) (d : list Qc) (L : Logger.t) :
  latest_score (set_scores (deque_append maxlen score d) L) = Ok x -> x = score.
Proof.
  unfold latest_score. cbn [scores set_scores].
  destruct (deque_append_spec maxlen score d) as [_ [dropped Hd]].
  destruct (List.rev (deque_append maxlen score d)) as [|y l] eqn:Er; [discriminate|].
  intros [= <-].
  apply (f_equal (@List.rev Qc)) in Hd. rewrite !rev_app_distr, Er in Hd.
  cbn in Hd. injection Hd as <- _. reflexivity.
Qed.

Lemma step_result (str_float : Qc -> string) (eps_num : option Z)
    (L L' : Logger.t) (fs fs' : files) :
  Logger.step str_float eps_num L fs = (fs', Ok L') ->
  exists score,
    Np.max (Logger.rewards L) = Ok score
    /\ L' = _reset_rewards (set_scores (deque_append (Z.to_nat (print_every L)) score (scores L)) L)
    /\ latest_score L' = Ok score.
Proof.
  unfold Logger.step, _update_score.
  destruct (Np.max (Logger.rewards L)) as [score|e] eqn:Emax; cbn [mbind result_bind];
    [|discriminate].
  set (L1 := _reset_rewards
               (set_scores (deque_append (Z.to_nat (print_every L)) score (scores L)) L)).
  assert (Hl : forall x, latest_score L1 = Ok x -> latest_score L1 = Ok score).
  { intros x Hx. rewrite Hx. f_equal.
    apply (latest_of_deque (Z.to_nat (print_every L)) score x (scores L) L). exact Hx. }
  destruct (Logger.eval L1).
  - destruct (latest_score L1) as [x|e] eqn:El; [|discriminate].
    intros [= _ <-]. exists score. split; [reflexivity|]. split; [reflexivity|].
    rewrite El. apply (Hl x). reflexivity.
  - unfold _write_scores.
    destruct (latest_score L1) as [x|e] eqn:El; [|discriminate].
    destruct eps_num as [n|]; [|discriminate].
    destruct (print_every L1 =? 0); [discriminate|].
    destruct ((n mod print_every L1 =? 0) || (n =? max_eps L1));
      [destruct (n =? 0); [discriminate|]|];
      intros [= _ <-]; exists score; (split; [reflexivity|]); (split; [reflexivity|]);
      rewrite El; apply (Hl x); reflexivity.
Qed.

(** X8: whatever the mode, after a [step] that returns, the reward
    accumulator is all zeros, one per agent, and the scores kept are the
    latest ones, at most [print_every] of them: the old scores followed by
    the new one, with the oldest dropped. *)
Theorem step_resets_and_bounds (str_float : Qc -> string) (eps_num : option Z)
    (L L' : Logger.t) (fs fs' : files) :
  Logger.step str_float eps_num L fs = (fs', Ok L') ->
  Logger.rewards L' = Np.zeros (agent_count L)
  /\ (List.length (scores L') <= Z.to_nat (print_every L))%nat
  /\ exists score dropped,
       Np.max (Logger.rewards L) = Ok score
       /\ (scores L ++ [score])%list = (dropped ++ scores L')%list
       /\ latest_score L' = Ok score.
Proof.
  intros Hstep. destruct (step_result _ _ _ _ _ _ Hstep) as (score & Hmax & -> & Hlatest).
  destruct (deque_append_spec (Z.to_nat (print_every L)) score (scores L)) as [Hlen [dropped Hd]].
  split; [reflexivity|]. split; [exact Hlen|].
  exists score, dropped. split; [exact Hmax|]. split; [exact Hd|exact Hlatest].
Qed.

(** A logger in eval mode that keeps two scores, at the end of an episode. *)
Definition eval_logger : Logger.t :=
  Logger.Make "." ∅ true 1 false 15 2 "MAD4PG" 2 "./logs" "." "./logs/."
              [Np.of_Z 1; Np.of_Z 2] [Np.of_Z 3; Np.of_Z 0] EmptyString EmptyString.

Lemma step_resets_and_bounds_witness :
  exists L',
    Logger.step str_whole None eval_logger ∅ = (∅, Ok L')
    /\ Logger.rewards L' = Np.zeros 2
    /\ (List.length (scores L') <= 2)%nat
    /\ latest_score L' = Ok (Np.of_Z 3).
Proof.
  exists (_reset_rewards (set_scores (deque_append 2 (Np.of_Z 3) [Np.of_Z 1; Np.of_Z 2])
                                     eval_logger)).
  split; [reflexivity|].
  destruct (step_resets_and_bounds str_whole None eval_logger
              (_reset_rewards (set_scores (deque_append 2 (Np.of_Z 3) [Np.of_Z 1; Np.of_Z 2])
                                          eval_logger))
              ∅ ∅ eq_refl) as (H1 & H2 & _).
  split; [exact H1|]. split; [exact H2|reflexivity].
Defined.

End LoggerInvariants.

(** ** The log files *)

Section LoggerFiles.
Import Str Logger.

Lemma write_agent_losses_fst_eval (str_float : Qc -> string) (agent : MultiAgent.agent)
    (names : list string) (fs : files) (path : string) :
  ~ In path names ->
  fst (write_agent_losses str_float agent names fs) !! path = fs !! path.
Proof.
  revert fs. induction names as [|f names IH]; intros fs Hnot; [reflexivity|].
  cbn [write_agent_losses]. destruct (loss_for f agent) as [loss|e]; [|reflexivity].
  rewrite IH by (intros H; apply Hnot; right; exact H).
  unfold append_file. apply lookup_insert_ne. intros ->. apply Hnot. left. reflexivity.
Qed.

(** No loss file of the logger is its scores file. *)
Definition scores_apart (L : Logger.t) : Prop :=
  forall idx names, lossfiles L !! idx = Some names -> ~ In (scoresfile L) names.

Lemma write_losses_from_apart (str_float : Qc -> string) (L : Logger.t)
    (agents : list MultiAgent.agent) (idx : nat) (fs : files) :
  scores_apart L ->
  fst (write_losses_from str_float idx agents L fs) !! scoresfile L = fs !! scoresfile L.
Proof.
  intros Hapart. revert idx fs. induction agents as [|agent agents IH]; intros idx fs;
    [reflexivity|].
  cbn [write_losses_from]. destruct (lossfiles L !! idx) as [names|] eqn:El; [|reflexivity].
  pose proof (write_agent_losses_fst_eval str_float agent names fs (scoresfile L)
                (Hapart idx names El)) as Hw.
  destruct (write_agent_losses str_float agent names fs) as [fs1 [u|e]]; cbn [fst] in *.
  - rewrite IH. exact Hw.
  - exact Hw.
Qed.

(** X9: loss logging never touches the score log: when no loss file of the
    logger is its scores file, a call of [log], failed or not, leaves the
    contents of the scores file as they were. *)
Theorem log_leaves_scores_file (str_float : Qc -> string) (r : list Qc)
    (multi_agent : option MultiAgent.t) (L : Logger.t) (fs : files) :
  scores_apart L ->
  fst (Logger.log str_float r multi_agent L fs) !! scoresfile L = fs !! scoresfile L.
Proof.
  intros Hapart. unfold Logger.log.
  destruct (Np.iadd (Logger.rewards L) r) as [acc|e]; [|reflexivity].
  destruct (Logger.eval (set_rewards acc L)); [reflexivity|].
  destruct multi_agent as [ma|]; [|reflexivity].
  destruct (log_every (set_rewards acc L) =? 0); [reflexivity|].
  destruct (MultiAgent.t_step ma mod log_every (set_rewards acc L) =? 0); [|reflexivity].
  unfold _write_losses.
  pose proof (write_losses_from_apart str_float (set_rewards acc L)
                (MultiAgent.agents ma) 0 fs Hapart) as Hw.
  destruct (write_losses_from str_float 0 (MultiAgent.agents ma) (set_rewards acc L) fs)
    as [fs1 [u|e]]; exact Hw.
Qed.

Lemma fresh_logger_apart : scores_apart fresh_logger.
Proof.
  intros idx names E Hin. destruct idx as [|[|idx]].
  - injection E as <-. destruct Hin as [H|[H|[]]]; discriminate H.
  - injection E as <-. destruct Hin as [H|[H|[]]]; discriminate H.
  - unfold fresh_logger in E. cbn [lossfiles] in E.
    rewrite lookup_insert_ne, lookup_singleton_ne in E by lia. discriminate E.
Defined.

Lemma log_leaves_scores_file_witness :
  fst (Logger.log str_whole [Np.of_Z 1; Np.of_Z 0] (Some two_agents) fresh_logger
         {[ scoresfile fresh_logger := "3" ++ nl ]}) !! scoresfile fresh_logger
  = Some ("3" ++ nl).
Proof.
  rewrite (log_leaves_scores_file str_whole [Np.of_Z 1; Np.of_Z 0] (Some two_agents)
             fresh_logger {[ scoresfile fresh_logger := "3" ++ nl ]} fresh_logger_apart).
  apply lookup_singleton_eq.
Defined.

(** X10: in eval mode the logger writes nothing: [log] and [step] return the
    files as they got them, and a logger created for an evaluation run
    creates none. *)
Theorem eval_mode_writes_nothing (str_float : Qc -> string) (L : Logger.t) :
  Logger.eval L = true ->
  (forall r multi_agent fs, fst (Logger.log str_float r multi_agent L fs) = fs)
  /\ (forall eps_num fs, fst (Logger.step str_float eps_num L fs) = fs)
  /\ (forall multi_agent a save_dir params fs,
        Args.eval a = true -> fst (Logger.__init__ multi_agent a save_dir params fs) = fs).
Proof.
  intros Heval. split; [|split].
  - intros r ma fs. unfold Logger.log.
    destruct (Np.iadd (Logger.rewards L) r) as [acc|e]; [|reflexivity].
    change (Logger.eval (set_rewards acc L)) with (Logger.eval L). rewrite Heval. reflexivity.
  - intros eps fs. unfold Logger.step.
    destruct (_update_score L) as [L1|e] eqn:E; [|reflexivity].
    assert (Hev : Logger.eval (_reset_rewards L1) = true).
    { unfold _update_score in E. destruct (Np.max (Logger.rewards L)); [|discriminate E].
      cbn [mbind result_bind] in E. injection E as <-. exact Heval. }
    rewrite Hev. destruct (latest_score (_reset_rewards L1)); reflexivity.
  - intros ma a save_dir params fs Ha. unfold Logger.__init__.
    destruct (Args.print_every a <? 0); [reflexivity|].
    cbn [Logger.eval _reset_rewards set_rewards]. rewrite Ha. reflexivity.
Qed.

Lemma eval_mode_writes_nothing_witness :
  (forall r multi_agent fs, fst (Logger.log str_whole r multi_agent eval_logger fs) = fs)
  /\ (forall eps_num fs, fst (Logger.step str_whole eps_num eval_logger fs) = fs)
  /\ (forall multi_agent a save_dir params fs,
        Args.eval a = true -> fst (Logger.__init__ multi_agent a save_dir params fs) = fs).
Proof.
  apply (eval_mode_writes_nothing str_whole eval_logger). reflexivity.
Defined.

(** X11: with [print_every] zero no score is kept, and [step] fails with
    [IndexError] when it asks for the latest score, in eval mode and in
    training alike. *)
Theorem step_without_kept_scores (str_float : Qc -> string) (eps_num : option Z)
    (L : Logger.t) (fs : files) :
  print_every L = 0 -> Logger.rewards L <> [] ->
  snd (Logger.step str_float eps_num L fs) = Raise IndexError.
Proof.
  intros Hpe Hne. unfold Logger.step, _update_score.
  destruct (Logger.rewards L) as [|x a] eqn:Er; [contradiction|].
  cbn [Np.max mbind result_bind]. rewrite Hpe.
  assert (Hd : forall y d, deque_append (Z.to_nat 0) y d = []).
  { intros y d. unfold deque_append. cbn [Z.to_nat]. rewrite Nat.sub_0_r.
    apply skipn_all. }
  rewrite Hd.
  destruct (Logger.eval _); reflexivity.
Qed.

(** A training logger told to keep no scores, at the end of an episode. *)
Definition unkept_logger : Logger.t :=
  Logger.Make "saves/run" ∅ false 1000 false 15 0 "MAD4PG" 2 "saves/run/logs" "run"
              "saves/run/logs/run" [] [Np.of_Z 3; Np.of_Z 0]
              "saves/run/logs/run_scores.txt" "saves/run/logs/run_LOG.txt".

Lemma step_without_kept_scores_witness :
  snd (Logger.step str_whole (Some 1) unkept_logger ∅) = Raise IndexError.
Proof.
  apply (step_without_kept_scores str_whole (Some 1) unkept_logger ∅).
  - reflexivity.
  - discriminate.
Defined.


(** Opening a file for appending and closing it at once creates it when it
    is missing and leaves it alone otherwise. *)
Lemma touch_lookup (file path : string) (fs : files) :
  append_file file EmptyString fs !! path
  = match fs !! path with
    | Some text => Some text
    | None => if decide (path = file) then Some EmptyString else None
    end.
Proof.
  unfold append_file. destruct (decide (path = file)) as [->|Hne].
  - rewrite lookup_insert_eq. destruct (fs !! file) as [text|]; cbn [default].
    + rewrite append_empty_r. reflexivity.
    + reflexivity.
  - rewrite lookup_insert_ne by congruence. destruct (fs !! path); reflexivity.
Qed.

Lemma touch_all_keeps (names : list string) (path text : string) (fs : files) :
  fs !! path = Some text ->
  fold_left (fun fs file => append_file file EmptyString fs) names fs !! path = Some text.
Proof.
  revert fs. induction names as [|file names IH]; intros fs H; cbn [fold_left]; [exact H|].
  apply IH. rewrite touch_lookup, H. reflexivity.
Qed.

Lemma touch_all_creates (names : list string) (path : string) (fs : files) :
  In path names ->
  is_Some (fold_left (fun fs file => append_file file EmptyString fs) names fs !! path).
Proof.
  revert fs. induction names as [|file names IH]; intros fs Hin; [destruct Hin|].
  destruct Hin as [->|Hin]; cbn [fold_left].
  - destruct (append_file path EmptyString fs !! path) as [text|] eqn:E.
    + exists text. apply touch_all_keeps, E.
    + rewrite touch_lookup in E. destruct (fs !! path); [discriminate E|].
      destruct (decide (path = path)); [discriminate E|congruence].
  - apply IH, Hin.
Qed.

(** The loss files [_generate_logfiles] names for agent [idx]. *)
Definition loss_names (base : string) (idx : nat) : list string :=
  map (fun name => base ++ name) (_get_agentlog_names idx).

(** The loop of [_generate_logfiles] over the agents [idxs]. *)
Definition generate_loop (base : string) (idxs : list nat) (st : files * gmap nat (list string))
    : files * gmap nat (list string) :=
  fold_left (fun '(fs, lossfiles) idx =>
               let names := map (fun name => base ++ name) (_get_agentlog_names idx) in
               (fold_left (fun fs file => append_file file EmptyString fs) names fs,
                <[idx := names]> lossfiles))
            idxs st.

Lemma generate_loop_cons (base : string) (idx : nat) (idxs : list nat) (fs : files)
    (lf : gmap nat (list string)) :
  generate_loop base (idx :: idxs) (fs, lf)
  = generate_loop base idxs
      (fold_left (fun fs file => append_file file EmptyString fs) (loss_names base idx) fs,
       <[idx := loss_names base idx]> lf).
Proof. reflexivity. Qed.

Lemma generate_loop_spec (base : string) (idxs : list nat) (fs : files)
    (lf : gmap nat (list string)) :
  (forall i, In i idxs -> snd (generate_loop base idxs (fs, lf)) !! i = Some (loss_names base i))
  /\ (forall i, ~ In i idxs -> snd (generate_loop base idxs (fs, lf)) !! i = lf !! i)
  /\ (forall path text, fs !! path = Some text ->
        fst (generate_loop base idxs (fs, lf)) !! path = Some text)
  /\ (forall i path, In i idxs -> In path (loss_names base i) ->
        is_Some (fst (generate_loop base idxs (fs, lf)) !! path)).
Proof.
  revert fs lf. induction idxs as [|idx idxs IH]; intros fs lf.
  - split; [intros i []|]. split; [reflexivity|]. split; [intros path text H; exact H|].
    intros i path [].
  - rewrite generate_loop_cons.
    set (fs1 := fold_left (fun fs file => append_file file EmptyString fs)
                          (loss_names base idx) fs).
    destruct (IH fs1 (<[idx := loss_names base idx]> lf)) as (IH1 & IH2 & IH3 & IH4).
    split; [|split; [|split]].
    + intros i Hi. destruct (in_dec Nat.eq_dec i idxs) as [Hin|Hnot]; [apply IH1, Hin|].
      destruct Hi as [->|Hi]; [|contradiction].
      rewrite IH2 by exact Hnot. apply lookup_insert_eq.
    + intros i Hi. rewrite IH2 by (intros H; apply Hi; right; exact H).
      apply lookup_insert_ne. intros ->. apply Hi. left. reflexivity.
    + intros path text H. apply IH3. unfold fs1. apply touch_all_keeps, H.
    + intros i path Hi Hp. destruct (in_dec Nat.eq_dec i idxs) as [Hin|Hnot].
      * apply (IH4 i path Hin Hp).
      * destruct Hi as [->|Hi]; [|contradiction].
        destruct (touch_all_creates (loss_names base i) path fs Hp) as [text Htext].
        exists text. apply IH3. exact Htext.
Qed.

Lemma append_inj_l (base x y : string) : base ++ x = base ++ y -> x = y.
Proof.
  induction base as [|c base IH]; cbn; intros E; [exact E|].
  injection E as E. apply IH, E.
Qed.

Lemma contains_skip (sub front s : string) :
  contains sub s = true -> contains sub (front ++ s) = true.
Proof.
  intros H. induction front as [|c front IH]; [exact H|].
  change (contains sub (String c (front ++ s)) = true).
  cbn [contains]. rewrite IH. apply orb_true_r.
Qed.

Lemma loss_names_named (base : string) (idx : nat) :
  Forall (fun f => contains "actorloss" f = true \/ contains "criticloss" f = true)
         (loss_names base idx).
Proof.
  unfold loss_names, _get_agentlog_names. cbn [map].
  constructor; [left|constructor; [right|constructor]];
    apply contains_skip, (contains_skip _ "_agent"), contains_skip; reflexivity.
Qed.

Lemma loss_names_not_scores (base : string) (idx : nat) :
  ~ In (base ++ "_scores.txt") (loss_names base idx).
Proof.
  unfold loss_names, _get_agentlog_names. cbn [map In].
  intros [E|[E|[]]]; apply append_inj_l in E; discriminate E.
Qed.


Lemma generate_logfiles_loop (multi_agent : MultiAgent.t) (L : Logger.t) (fs : files) :
  _generate_logfiles multi_agent L fs
  = let r := generate_loop (logs_basename L)
               (seq 0 (List.length (MultiAgent.agents multi_agent)))
               (append_file (logs_basename L ++ "_scores.txt") EmptyString fs, ∅) in
    (fst r, set_logfiles (logs_basename L ++ "_scores.txt") (paramfile L) (snd r) L).
Proof.
  unfold _generate_logfiles, generate_loop.
  destruct (fold_left _ _ _) as [fs1 lf]. reflexivity.
Qed.

(** X12: a training run's [Logger(multi_agent, args, save_dir)] with a
    [print_every] that is not negative returns a logger whose loss files are
    there for every agent and named after their loss, none of them being the
    scores file; the parameter file holds the parameters, one per line; the
    scores file and every loss file exist afterwards; and every other file
    that was there keeps its contents, the log files of an earlier run in the
    same place included. *)
Theorem init_creates_logs (multi_agent : MultiAgent.t) (a : Args.t) (save_dir : string)
    (params : list string) (fs : files) :
  0 <= Args.print_every a -> Args.eval a = false ->
  exists (fs' : files) (L : Logger.t),
    Logger.__init__ multi_agent a save_dir params fs = (fs', Ok L)
    /\ losses_writable L multi_agent
    /\ scores_apart L
    /\ fs' !! paramfile L = Some (String.concat EmptyString (map (fun line => line ++ nl) params))
    /\ is_Some (fs' !! scoresfile L)
    /\ (forall idx names f, lossfiles L !! idx = Some names -> In f names -> is_Some (fs' !! f))
    /\ (forall path text, fs !! path = Some text -> path <> paramfile L ->
          fs' !! path = Some text).
Proof.
  intros Hpe Heval. unfold Logger.__init__.
  destruct (Z.ltb_spec (Args.print_every a) 0) as [H|_]; [lia|].
  cbn [Logger.eval _reset_rewards set_rewards]. rewrite Heval.
  unfold _init_logs. rewrite generate_logfiles_loop.
  cbn [logs_basename set_logfiles paramfile].
  set (base := os_path_join (replace_char "\" "/" (os_path_join save_dir "logs"))
                            (basename save_dir)).
  set (text := String.concat EmptyString (map (fun line => line ++ nl) params)).
  set (fs0 := write_file (base ++ "_LOG.txt") text fs).
  set (fs1 := append_file (base ++ "_scores.txt") EmptyString fs0).
  set (n := List.length (MultiAgent.agents multi_agent)).
  destruct (generate_loop_spec base (seq 0 n) fs1 ∅) as (H1 & H2 & H3 & H4).
  cbn zeta. eexists. eexists. split; [reflexivity|].
  cbn [lossfiles scoresfile paramfile].
  assert (Hparam : fs1 !! (base ++ "_LOG.txt") = Some text).
  { unfold fs1. rewrite touch_lookup. unfold fs0, write_file.
    rewrite lookup_insert_eq. reflexivity. }
  assert (Hnames : forall idx names,
            snd (generate_loop base (seq 0 n) (fs1, ∅)) !! idx = Some names ->
            In idx (seq 0 n) /\ names = loss_names base idx).
  { intros idx names E. destruct (in_dec Nat.eq_dec idx (seq 0 n)) as [Hin|Hnot].
    - rewrite H1 in E by exact Hin. injection E as <-. split; [exact Hin|reflexivity].
    - rewrite H2 in E by exact Hnot. rewrite lookup_empty in E. discriminate E. }
  split; [|split; [|split; [|split; [|split]]]].
  - intros idx Hidx. exists (loss_names base idx). split.
    + apply H1, in_seq. fold n in Hidx. lia.
    + apply loss_names_named.
  - intros idx names E. destruct (Hnames idx names E) as [_ ->].
    apply loss_names_not_scores.
  - apply H3, Hparam.
  - destruct (fs1 !! (base ++ "_scores.txt")) as [t|] eqn:E.
    + exists t. apply H3, E.
    + unfold fs1 in E. rewrite touch_lookup in E.
      destruct (fs0 !! (base ++ "_scores.txt")); [discriminate E|].
      destruct (decide (base ++ "_scores.txt" = base ++ "_scores.txt"));
        [discriminate E|congruence].
  - intros idx names f E Hf. destruct (Hnames idx names E) as [Hin ->].
    apply (H4 idx f Hin Hf).
  - intros path t Hpath Hne. apply H3. unfold fs1. rewrite touch_lookup.
    unfold fs0, write_file.
    rewrite lookup_insert_ne by (intros Heq; apply Hne; symmetry; exact Heq).
    rewrite Hpath. reflexivity.
Qed.

Lemma init_creates_logs_witness :
  exists (fs' : files) (L : Logger.t),
    Logger.__init__ two_agents training_args "saves/MAD4PG_20240101_v001"
      ["NUM_EPISODES: 1000"] {[ "notes.txt" := "kept" ]} = (fs', Ok L)
    /\ losses_writable L two_agents
    /\ scores_apart L
    /\ is_Some (fs' !! scoresfile L)
    /\ fs' !! "notes.txt" = Some "kept".
Proof.
  destruct (init_creates_logs two_agents training_args "saves/MAD4PG_20240101_v001"
              ["NUM_EPISODES: 1000"] {[ "notes.txt" := "kept" ]})
    as (fs' & L & Hinit & Hw & Ha & _ & Hs & _ & Hkeep).
  - cbn. lia.
  - reflexivity.
  - exists fs', L. split; [exact Hinit|]. split; [exact Hw|]. split; [exact Ha|].
    split; [exact Hs|]. apply Hkeep.
    + apply lookup_singleton_eq.
    + unfold Logger.__init__ in Hinit. cbn in Hinit. injection Hinit as _ <-. discriminate.
Defined.

End LoggerFiles.

(** ** The moving average, further *)

Section MovingAverageRange.
Import Np.

(** X13: a window that [int] takes to zero or below makes [_moving_avg] fail
    with [ValueError] whatever the data: [np.ones] refuses a negative length
    and [np.convolve] an empty window. *)
Theorem moving_avg_bad_window (data : list Qc) (avg_across : Qc) :
  Np.int avg_across <= 0 ->
  Logger._moving_avg data avg_across = Raise ValueError.
Proof.
  intros Hw. unfold Logger._moving_avg.
  destruct (Z.ltb_spec (Np.int avg_across) 0) as [_|H]; [reflexivity|].
  replace (Np.int avg_across) with 0 by lia. cbn [Z.to_nat].
  destruct data as [|x data]; reflexivity.
Qed.

Lemma moving_avg_bad_window_witness :
  Logger._moving_avg [of_Z 1; of_Z 2; of_Z 3] (Q2Qc (1 # 2)) = Raise ValueError.
Proof.
  apply (moving_avg_bad_window [of_Z 1; of_Z 2; of_Z 3] (Q2Qc (1 # 2))).
  vm_compute. discriminate.
Defined.

End MovingAverageRange.

Section ScoreCurves.
Import Str Logger.

Lemma score_window_bounds (num_eps : nat) : 1 <= score_window num_eps <= 100.
Proof. unfold score_window. lia. Qed.

(** X15: the curves of the scores plot: whenever the scores file holds at
    least one line and every line reads as a number, both windows
    [plot_logs] derives from the number of episodes are at least 1, so both
    calls of [_moving_avg] return, each a curve with one point per
    episode. *)
Theorem scores_curves_lengths (float : string -> option Qc) (L : Logger.t) (fs : files)
    (scores : list Qc) :
  read_scores float L fs = Ok scores -> scores <> [] ->
  exists ma1 ma2 : list Qc,
    scores_curves float L fs = Ok (scores, ma1, ma2)
    /\ Logger._moving_avg scores (Np.of_Z (score_window (List.length scores))) = Ok ma1
    /\ Logger._moving_avg scores (Np.of_Z (score_window (List.length scores) * 2)) = Ok ma2
    /\ List.length ma1 = List.length scores
    /\ List.length ma2 = List.length scores.
Proof.
  intros Hread Hne. unfold scores_curves. rewrite Hread. cbn [mbind result_bind].
  pose proof (score_window_bounds (List.length scores)) as Hw.
  rewrite (moving_avg_slice scores (score_window (List.length scores)) Hne) by lia.
  rewrite (moving_avg_slice scores (score_window (List.length scores) * 2) Hne) by lia.
  cbn [mbind result_bind].
  eexists. eexists. split; [reflexivity|]. split; [reflexivity|]. split; [reflexivity|].
  rewrite !length_map, !length_seq. split; reflexivity.
Qed.

Lemma scores_curves_lengths_witness :
  exists ma1 ma2 : list Qc,
    scores_curves float_whole (logger_with_scores "s.txt" [])
      {[ "s.txt" := "3" ++ nl ++ "0" ++ nl ++ "5" ++ nl ]}
    = Ok ([Np.of_Z 3; Np.of_Z 0; Np.of_Z 5], ma1, ma2)
    /\ List.length ma1 = 3%nat /\ List.length ma2 = 3%nat.
Proof.
  destruct (scores_curves_lengths float_whole (logger_with_scores "s.txt" [])
              {[ "s.txt" := "3" ++ nl ++ "0" ++ nl ++ "5" ++ nl ]}
              [Np.of_Z 3; Np.of_Z 0; Np.of_Z 5])
    as (ma1 & ma2 & Hrun & _ & _ & H1 & H2).
  - vm_compute. reflexivity.
  - discriminate.
  - exists ma1, ma2. split; [exact Hrun|]. split; [exact H1|exact H2].
Defined.

End ScoreCurves.

(** ** The run modes *)

Section RunModes.
Import Str GatherArgs.

(** X16: what [gather_args] makes of the parsed command line. It fails, with
    an [AssertionError], exactly when the update type is neither [hard] nor
    [soft] in any capitalisation, or the pretraining is shorter than a batch,
    or the rollout is below 1. Otherwise [train] is the opposite of [eval];
    the run is an evaluation as soon as one of [-eval] and [-feval] is given;
    an evaluation that is not forced is cut to one episode of 1000 steps; and
    a training run or a forced evaluation keeps the number of episodes asked
    for and gets no [max_steps] attribute. *)
Theorem gather_args_modes (p : parsed) :
  match gather_args p with
  | Ok a =>
      train a = negb (Args.eval (args a))
      /\ Args.eval (args a) = eval p || force_eval p
      /\ (force_eval p = false -> eval p = true ->
          Args.num_episodes (args a) = 1 /\ max_steps a = Some 1000)
      /\ (force_eval p = true \/ eval p = false ->
          Args.num_episodes (args a) = num_episodes p /\ max_steps a = None)
      /\ (lowered_update_type a = "hard" \/ lowered_update_type a = "soft")
      /\ lowered_update_type a = lower (update_type p)
      /\ batch_size p <= pretrain p
      /\ 1 <= rollout p
  | Raise e =>
      (exists msg, e = AssertionError msg)
      /\ ((lower (update_type p) <> "hard" /\ lower (update_type p) <> "soft")
          \/ pretrain p < batch_size p
          \/ rollout p < 1)
  end.
Proof.
  unfold gather_args.
  destruct (String.eqb_spec (lower (update_type p)) "hard") as [Hh|Hh];
    destruct (String.eqb_spec (lower (update_type p)) "soft") as [Hs|Hs];
    cbn [orb negb];
    try (destruct (Z.leb_spec (batch_size p) (pretrain p)) as [Hb|Hb]; cbn [negb];
         [destruct (Z.leb_spec 1 (rollout p)) as [Hr|Hr]; cbn [negb]|]).
  all: try (split; [eexists; reflexivity|]; auto; fail).
  all: destruct (eval p), (force_eval p); cbn [andb negb orb args train max_steps
         lowered_update_type Args.eval Args.num_episodes];
    repeat apply conj; auto;
    first [ intros H1 H2; first [discriminate H1 | discriminate H2 | split; reflexivity]
          | intros [H|H]; first [discriminate H | split; reflexivity] ].
Qed.

End RunModes.

(** ** Whole runs *)

Section WholeRuns.
Import Str Logger Main Run.

(** The logger never writes losses to [path]: it is in eval mode, or none of
    its loss files is [path]. *)
Definition spares (path : string) (L : Logger.t) : Prop :=
  Logger.eval L = true
  \/ forall idx names, lossfiles L !! idx = Some names -> ~ In path names.

Lemma write_losses_from_spares (str_float : Qc -> string) (path : string) (L : Logger.t)
    (agents : list MultiAgent.agent) (idx : nat) (fs : files) :
  (forall idx names, lossfiles L !! idx = Some names -> ~ In path names) ->
  fst (write_losses_from str_float idx agents L fs) !! path = fs !! path.
Proof.
  intros Hapart. revert idx fs. induction agents as [|agent agents IH]; intros idx fs;
    [reflexivity|].
  cbn [write_losses_from]. destruct (lossfiles L !! idx) as [names|] eqn:El; [|reflexivity].
  pose proof (write_agent_losses_fst_eval str_float agent names fs path
                (Hapart idx names El)) as Hw.
  destruct (write_agent_losses str_float agent names fs) as [fs1 [u|e]]; cbn [fst] in *.
  - rewrite IH. exact Hw.
  - exact Hw.
Qed.

Lemma log_spares (str_float : Qc -> string) (path : string) (r : list Qc)
    (multi_agent : option MultiAgent.t) (L : Logger.t) (fs : files) :
  spares path L ->
  fst (Logger.log str_float r multi_agent L fs) !! path = fs !! path
  /\ forall fs' L', Logger.log str_float r multi_agent L fs = (fs', Ok L') -> spares path L'.
Proof.
  intros Hs. unfold Logger.log.
  destruct (Np.iadd (Logger.rewards L) r) as [acc|e]; [|split; [reflexivity|discriminate]].
  assert (Hs' : spares path (set_rewards acc L)) by exact Hs.
  destruct (Logger.eval (set_rewards acc L)) eqn:Ee.
  { split; [reflexivity|]. intros fs' L' [= _ <-]. exact Hs'. }
  destruct multi_agent as [ma|]; [|split; [reflexivity|discriminate]].
  destruct (log_every (set_rewards acc L) =? 0); [split; [reflexivity|discriminate]|].
  destruct (MultiAgent.t_step ma mod log_every (set_rewards acc L) =? 0).
  - unfold _write_losses.
    destruct Hs as [He|Hapart]; [change (Logger.eval L = false) in Ee; congruence|].
    pose proof (write_losses_from_spares str_float path (set_rewards acc L)
                  (MultiAgent.agents ma) 0 fs Hapart) as Hw.
    destruct (write_losses_from str_float 0 (MultiAgent.agents ma) (set_rewards acc L) fs)
      as [fs1 [u|e]]; (split; [exact Hw|]).
    + intros fs' L' [= _ <-]. exact Hs'.
    + discriminate.
  - split; [reflexivity|]. intros fs' L' [= _ <-]. exact Hs'.
Qed.

Lemma episode_spares (str_float : Qc -> string) (path : string) (trace : list env_step)
    (L : Logger.t) (fs : files) :
  spares path L -> fst (episode str_float trace L fs) !! path = fs !! path.
Proof.
  revert L fs. induction trace as [|s trace IH]; intros L fs Hs; [reflexivity|].
  cbn [episode].
  destruct (log_spares str_float path (rewards s) (Some (multi_agent s)) L fs Hs)
    as [Hfs HL].
  destruct (Logger.log str_float (rewards s) (Some (multi_agent s)) L fs)
    as [fs1 [L1|e]]; cbn [fst] in Hfs; [|exact Hfs].
  destruct (existsb id (dones s)); [exact Hfs|].
  destruct (cutoff (Logger.rewards L1)); [exact Hfs|].
  rewrite IH by (apply (HL fs1 L1); reflexivity). exact Hfs.
Qed.

Lemma train_episodes_spares (str_float : Qc -> string) (float : string -> option Qc)
    (path : string) (numbers : list Z) (trace : list env_step) (L : Logger.t) (fs : files) :
  spares path L ->
  fst (train_episodes str_float float numbers trace L fs) !! path = fs !! path.
Proof.
  intros Hs. destruct numbers as [|number later]; [reflexivity|].
  cbn [train_episodes]. pose proof (episode_spares str_float path trace L fs Hs) as He.
  destruct (episode str_float trace L fs) as [fs1 [[[[| |] L1] rest]|e]]; exact He.
Qed.

Lemma train_episodes_outcome (str_float : Qc -> string) (float : string -> option Qc)
    (numbers : list Z) (trace : list env_step) (L : Logger.t) (fs : files) :
  returned (snd (train_episodes str_float float numbers trace L fs)) = false.
Proof.
  destruct numbers as [|number later]; [reflexivity|].
  cbn [train_episodes].
  destruct (episode str_float trace L fs) as [fs1 [[[[| |] L1] rest]|e]]; reflexivity.
Qed.

(** Where [Logger(multi_agent, args, save_dir)] keeps the scores. *)
Definition scores_path (save_dir : string) : string :=
  os_path_join (replace_char "\" "/" (os_path_join save_dir "logs")) (basename save_dir)
  ++ "_scores.txt".

Lemma init_scores_file (multi_agent : MultiAgent.t) (a : Args.t) (save_dir : string)
    (params : list string) (fs fs' : files) (L : Logger.t) :
  Logger.__init__ multi_agent a save_dir params fs = (fs', Ok L) ->
  default EmptyString (fs' !! scores_path save_dir)
  = default EmptyString (fs !! scores_path save_dir)
  /\ spares (scores_path save_dir) L.
Proof.
  unfold Logger.__init__.
  destruct (Args.print_every a <? 0); [discriminate|].
  cbn [Logger.eval _reset_rewards set_rewards].
  destruct (Args.eval a) eqn:Ee.
  { intros [= <- <-]. split; [reflexivity|]. left. reflexivity. }
  unfold _init_logs. rewrite generate_logfiles_loop.
  cbn [logs_basename set_logfiles paramfile].
  change (scores_path save_dir)
    with (os_path_join (replace_char "\" "/" (os_path_join save_dir "logs"))
                       (basename save_dir) ++ "_scores.txt").
  set (base := os_path_join (replace_char "\" "/" (os_path_join save_dir "logs"))
                            (basename save_dir)).
  set (text := String.concat EmptyString (map (fun line => line ++ nl) params)).
  set (fs0 := write_file (base ++ "_LOG.txt") text fs).
  set (fs1 := append_file (base ++ "_scores.txt") EmptyString fs0).
  set (n := List.length (MultiAgent.agents multi_agent)).
  destruct (generate_loop_spec base (seq 0 n) fs1 ∅) as (H1 & H2 & H3 & _).
  cbn zeta. intros [= <- <-]. split.
  - assert (H0 : fs0 !! (base ++ "_scores.txt") = fs !! (base ++ "_scores.txt")).
    { unfold fs0, write_file. apply lookup_insert_ne.
      intros E. apply append_inj_l in E. discriminate E. }
    assert (Hf : fs1 !! (base ++ "_scores.txt")
                 = Some (default EmptyString (fs !! (base ++ "_scores.txt")))).
    { unfold fs1. rewrite touch_lookup, H0.
      destruct (fs !! (base ++ "_scores.txt")); [reflexivity|].
      destruct (decide (base ++ "_scores.txt" = base ++ "_scores.txt")); [reflexivity|].
      congruence. }
    pose proof (H3 _ _ Hf) as Hk. unfold fs1, fs0 in Hk. rewrite Hk. reflexivity.
  - right. cbn [lossfiles]. unfold fs1, fs0 in H1, H2. intros idx names E.
    destruct (in_dec Nat.eq_dec idx (seq 0 n)) as [Hin|Hnot].
    + rewrite H1 in E by exact Hin. injection E as <-.
      apply loss_names_not_scores.
    + rewrite H2 in E by exact Hnot. rewrite lookup_empty in E. discriminate E.
Qed.

Lemma train_never_returns_aux (str_float : Qc -> string) (float : string -> option Qc)
    (multi_agent : MultiAgent.t) (a : Args.t) (save_dir : string) (params : list string)
    (trace : list env_step) (fs : files) :
  returned (snd (train str_float float multi_agent a save_dir params trace fs)) = false.
Proof.
  unfold train.
  destruct (Logger.__init__ multi_agent a save_dir params fs) as [fs1 [L|e]];
    [apply train_episodes_outcome|reflexivity].
Qed.

Lemma gather_args_spec (p : GatherArgs.parsed) :
  match GatherArgs.gather_args p with
  | Ok a => GatherArgs.train a = negb (Args.eval (GatherArgs.args a))
            /\ Args.eval (GatherArgs.args a) = GatherArgs.eval p || GatherArgs.force_eval p
  | Raise _ => True
  end.
Proof.
  unfold GatherArgs.gather_args.
  repeat match goal with
         | |- context [if negb ?b then _ else _] => destruct b; cbn [negb]; try exact I
         end.
  destruct (GatherArgs.eval p), (GatherArgs.force_eval p); split; reflexivity.
Qed.

(** X17: [train] never returns: whatever the arguments and the environment,
    the run ends in an exception (or is still inside an episode when the
    environment's answers are used up), at the latest with the
    [AttributeError] of [saver.save]. And it never reaches [logger.step]:
    the scores file holds afterwards what it held before, nothing when it
    was not there. *)
Theorem train_never_returns (str_float : Qc -> string) (float : string -> option Qc)
    (multi_agent : MultiAgent.t) (a : Args.t) (save_dir : string) (params : list string)
    (trace : list env_step) (fs : files) :
  returned (snd (train str_float float multi_agent a save_dir params trace fs)) = false
  /\ default EmptyString
       (fst (train str_float float multi_agent a save_dir params trace fs)
          !! scores_path save_dir)
     = default EmptyString (fs !! scores_path save_dir).
Proof.
  unfold train.
  destruct (Logger.__init__ multi_agent a save_dir params fs) as [fs1 [L|e]] eqn:Ei.
  - destruct (init_scores_file _ _ _ _ _ _ _ Ei) as [Hfs Hs]. split.
    + apply train_episodes_outcome.
    + rewrite train_episodes_spares by exact Hs. exact Hfs.
  - split; [reflexivity|].
    unfold Logger.__init__ in Ei.
    destruct (Args.print_every a <? 0); [injection Ei as <- _; reflexivity|].
    cbn [Logger.eval _reset_rewards set_rewards] in Ei.
    destruct (Args.eval a); [discriminate Ei|].
    destruct (_init_logs _ _ _ _); discriminate Ei.
Qed.


Lemma init_training (multi_agent : MultiAgent.t) (a : Args.t) (save_dir : string)
    (params : list string) (fs : files) :
  0 <= Args.print_every a -> Args.eval a = false ->
  exists fs' L,
    Logger.__init__ multi_agent a save_dir params fs = (fs', Ok L)
    /\ Logger.eval L = false
    /\ log_every L = Args.log_every a
    /\ Logger.rewards L = Np.zeros (MultiAgent.agent_count multi_agent)
    /\ forall idx, (idx < List.length (MultiAgent.agents multi_agent))%nat ->
         lossfiles L !! idx = Some (loss_names (logs_basename L) idx).
Proof.
  intros Hpe Heval. unfold Logger.__init__.
  destruct (Z.ltb_spec (Args.print_every a) 0) as [H|_]; [lia|].
  cbn [Logger.eval _reset_rewards set_rewards]. rewrite Heval.
  unfold _init_logs. rewrite generate_logfiles_loop.
  cbn [logs_basename set_logfiles paramfile].
  set (base := os_path_join (replace_char "\" "/" (os_path_join save_dir "logs"))
                            (basename save_dir)).
  set (text := String.concat EmptyString (map (fun line => line ++ nl) params)).
  destruct (generate_loop_spec base (seq 0 (List.length (MultiAgent.agents multi_agent)))
              (append_file (base ++ "_scores.txt") EmptyString
                 (write_file (base ++ "_LOG.txt") text fs)) ∅) as (H1 & _).
  cbn zeta. eexists. eexists. split; [reflexivity|].
  cbn [Logger.eval log_every Logger.rewards lossfiles logs_basename agent_count].
  split; [reflexivity|]. split; [reflexivity|]. split; [reflexivity|].
  intros idx Hidx. apply H1, in_seq. lia.
Qed.

(** X18: a training run that gets through its first episode ends right
    after it: when the logger can be created, [log_every] is not zero, at
    least one episode is asked for, and the environment's steps carry one
    reward per agent and the agents created at the start, the last step and
    no other reporting a done flag, [train] raises the [AttributeError] of
    [saver.save] without a call of [logger.step], however many episodes were
    asked for. *)
Theorem train_ends_after_first_episode (str_float : Qc -> string)
    (float : string -> option Qc) (multi_agent : MultiAgent.t) (a : Args.t)
    (save_dir : string) (params : list string) (pre : list env_step) (last : env_step)
    (fs : files) :
  0 <= Args.print_every a -> Args.eval a = false -> Args.log_every a <> 0 ->
  1 <= Args.num_episodes a ->
  Forall (fun s => List.length (rewards s) = MultiAgent.agent_count multi_agent
                   /\ List.length (MultiAgent.agents (Main.multi_agent s))
                      = List.length (MultiAgent.agents multi_agent)) (pre ++ [last]) ->
  none_done pre -> existsb id (dones last) = true ->
  snd (train str_float float multi_agent a save_dir params (pre ++ [last]) fs)
  = Raised AttributeError.
Proof.
  intros Hpe Heval Hle Hnum Hall Hpre Hlast.
  destruct (init_training multi_agent a save_dir params fs Hpe Heval)
    as (fs1 & L & Hinit & HLe & HLl & HLr & HLf).
  unfold train. rewrite Hinit.
  destruct (episode_until_done str_float pre last L fs1) as [fs2 Hrun]; try assumption.
  { rewrite HLl. exact Hle. }
  { eapply Forall_impl; [|exact Hall]. intros s [Hr Ha]. split.
    - rewrite HLr. unfold Np.zeros. rewrite repeat_length. exact Hr.
    - intros idx Hidx. exists (loss_names (logs_basename L) idx). split.
      + apply HLf. lia.
      + apply loss_names_named. }
  unfold episode_numbers.
  destruct (Z.to_nat (Args.num_episodes a)) as [|k] eqn:Ek; [lia|].
  cbn [seq map train_episodes]. rewrite Hrun. reflexivity.
Qed.

Lemma train_ends_after_first_episode_witness :
  snd (train str_whole float_whole two_agents training_args "saves/MAD4PG_20240101_v001"
         ["NUM_EPISODES: 1000"] two_steps ∅)
  = Raised AttributeError.
Proof.
  apply (train_ends_after_first_episode str_whole float_whole two_agents training_args
           "saves/MAD4PG_20240101_v001" ["NUM_EPISODES: 1000"]
           [Step [Q2Qc (1 # 10); Q2Qc 0] [false; false] two_agents]
           (Step [Q2Qc (1 # 10); Q2Qc (3 # 10)] [false; true] two_agents) ∅).
  - cbn. lia.
  - reflexivity.
  - cbn. lia.
  - cbn. lia.
  - repeat constructor.
  - repeat constructor.
  - reflexivity.
Defined.

(** *** Evaluation runs *)

(** A logger in eval mode at the start of an episode of [n] agents. *)
Definition ready (n : nat) (L : Logger.t) : Prop :=
  Logger.eval L = true /\ List.length (Logger.rewards L) = n /\ agent_count L = n
  /\ 1 <= print_every L.

(** An episode of [n] agents that ends: one reward per agent at every
    step, and the last step, no other, reports a done flag. *)
Definition complete (n : nat) (steps : list env_step) : Prop :=
  exists pre last,
    steps = (pre ++ [last])%list
    /\ none_done pre /\ existsb id (dones last) = true
    /\ Forall (fun s => List.length (rewards s) = n) steps.

Lemma log_eval (str_float : Qc -> string) (r : list Qc) (multi_agent : option MultiAgent.t)
    (L : Logger.t) (fs : files) :
  Logger.eval L = true ->
  Logger.log str_float r multi_agent L fs
  = (fs, acc ← Np.iadd (Logger.rewards L) r; Ok (set_rewards acc L)).
Proof.
  intros He. unfold Logger.log.
  destruct (Np.iadd (Logger.rewards L) r) as [acc|e]; cbn [mbind result_bind]; [|reflexivity].
  change (Logger.eval (set_rewards acc L)) with (Logger.eval L). rewrite He. reflexivity.
Qed.

Lemma step_eval (str_float : Qc -> string) (eps_num : option Z) (L : Logger.t) (fs : files) :
  Logger.eval L = true ->
  Logger.step str_float eps_num L fs
  = (fs, L1 ← _update_score L; _ ← latest_score (_reset_rewards L1);
         Ok (_reset_rewards L1)).
Proof.
  intros He. unfold Logger.step.
  destruct (_update_score L) as [L1|e] eqn:E; cbn [mbind result_bind]; [|reflexivity].
  assert (H1 : Logger.eval (_reset_rewards L1) = true).
  { unfold _update_score in E. destruct (Np.max (Logger.rewards L)); [|discriminate E].
    cbn [mbind result_bind] in E. injection E as <-. exact He. }
  rewrite H1. destruct (latest_score (_reset_rewards L1)); reflexivity.
Qed.

Lemma eval_episode_fs (str_float : Qc -> string) (trace : list env_step) (L : Logger.t)
    (fs : files) :
  Logger.eval L = true ->
  fst (eval_episode str_float trace L fs) = fs
  /\ forall e L' rest, snd (eval_episode str_float trace L fs) = Ok (e, L', rest) ->
                       Logger.eval L' = true.
Proof.
  revert L. induction trace as [|s trace IH]; intros L He.
  - split; [reflexivity|]. intros e L' rest [= _ <- _]. exact He.
  - cbn [eval_episode]. rewrite log_eval by exact He.
    destruct (Np.iadd (Logger.rewards L) (rewards s)) as [acc|e]; cbn [mbind result_bind].
    + destruct (existsb id (dones s)).
      * split; [reflexivity|]. intros e L' rest [= _ <- _]. exact He.
      * apply IH. exact He.
    + split; [reflexivity|]. discriminate.
Qed.

Lemma eval_episodes_fs (str_float : Qc -> string) (numbers : list Z) (trace : list env_step)
    (L : Logger.t) (fs : files) :
  Logger.eval L = true -> fst (eval_episodes str_float numbers trace L fs) = fs.
Proof.
  revert trace L. induction numbers as [|number later IH]; intros trace L He; [reflexivity|].
  cbn [eval_episodes].
  destruct (eval_episode_fs str_float trace L fs He) as [Hfs HL].
  destruct (eval_episode str_float trace L fs) as [fs1 [[[e L1] rest]|e]];
    cbn [fst snd] in *; subst fs1; [|reflexivity].
  specialize (HL e L1 rest eq_refl).
  destruct e; try reflexivity.
  rewrite step_eval by exact HL.
  destruct (_update_score L1) as [L2|e] eqn:E; cbn [mbind result_bind]; [|reflexivity].
  destruct (latest_score (_reset_rewards L2)); cbn [mbind result_bind]; [|reflexivity].
  apply IH. unfold _update_score in E.
  destruct (Np.max (Logger.rewards L1)); [|discriminate E].
  cbn [mbind result_bind] in E. injection E as <-. exact HL.
Qed.

Lemma eval_fs (str_float : Qc -> string) (multi_agent : MultiAgent.t) (a : Args.t)
    (params : list string) (trace : list env_step) (fs : files) :
  Args.eval a = true -> fst (Run.eval str_float multi_agent a params trace fs) = fs.
Proof.
  intros He. unfold Run.eval, Logger.__init__.
  destruct (Args.print_every a <? 0); [reflexivity|].
  cbn [Logger.eval _reset_rewards set_rewards]. rewrite He.
  apply eval_episodes_fs. reflexivity.
Qed.

Lemma eval_episode_complete (str_float : Qc -> string) (n : nat) (pre : list env_step)
    (last : env_step) (later : list env_step) (L : Logger.t) (fs : files) :
  ready n L -> none_done pre -> existsb id (dones last) = true ->
  Forall (fun s => List.length (rewards s) = n) (pre ++ [last]) ->
  exists L', eval_episode str_float ((pre ++ [last]) ++ later) L fs
             = (fs, Ok (Break_done, L', later))
             /\ ready n L'.
Proof.
  revert L. induction pre as [|s pre IH]; intros L (He & Hr & Hc & Hp) Hpre Hlast Hall.
  - cbn [app eval_episode]. rewrite log_eval by exact He.
    cbn [app] in Hall. pose proof (Forall_inv Hall) as Hlen. cbn beta in Hlen.
    unfold Np.iadd. rewrite Hr, Hlen, Nat.eqb_refl. cbn [mbind result_bind].
    rewrite Hlast. eexists. split; [reflexivity|].
    repeat split; try assumption.
    cbn [Logger.rewards set_rewards]. rewrite length_zip_plus by lia. exact Hr.
  - cbn [app eval_episode]. rewrite log_eval by exact He.
    cbn [app] in Hall. pose proof (Forall_inv Hall) as Hlen. cbn beta in Hlen.
    pose proof (Forall_inv_tail Hall) as Hrest.
    pose proof (Forall_inv Hpre) as Hs. cbn beta in Hs.
    pose proof (Forall_inv_tail Hpre) as Hpre'.
    unfold Np.iadd. rewrite Hr, Hlen, Nat.eqb_refl. cbn [mbind result_bind].
    rewrite Hs. apply IH; try assumption.
    repeat split; try assumption.
    cbn [Logger.rewards set_rewards]. rewrite length_zip_plus by lia. exact Hr.
Qed.

Lemma step_ready (str_float : Qc -> string) (n : nat) (L : Logger.t) (fs : files) :
  (0 < n)%nat -> ready n L ->
  exists L', Logger.step str_float None L fs = (fs, Ok L') /\ ready n L'.
Proof.
  intros Hn (He & Hr & Hc & Hp). rewrite step_eval by exact He.
  unfold _update_score.
  destruct (Logger.rewards L) as [|x acc] eqn:Er; [cbn in Hr; lia|].
  cbn [Np.max mbind result_bind].
  change (latest_score (_reset_rewards ?X)) with (latest_score X).
  rewrite latest_after_append by lia. cbn [mbind result_bind].
  eexists. split; [reflexivity|].
  repeat split; try assumption.
  cbn [Logger.rewards _reset_rewards set_rewards set_scores agent_count].
  unfold Np.zeros. rewrite repeat_length. exact Hc.
Qed.

Lemma eval_episodes_complete (str_float : Qc -> string) (n : nat) (numbers : list Z)
    (episodes : list (list env_step)) (L : Logger.t) (fs : files) :
  (0 < n)%nat -> ready n L -> List.length numbers = List.length episodes ->
  Forall (complete n) episodes ->
  eval_episodes str_float numbers (concat episodes) L fs = (fs, Returned).
Proof.
  intros Hn. revert episodes L.
  induction numbers as [|number later IH]; intros episodes L HL Hlen Hall.
  - reflexivity.
  - destruct episodes as [|ep episodes]; [discriminate Hlen|].
    inversion Hall as [|? ? (pre & last & -> & Hpre & Hlast & Hrs) Hrest]; subst.
    cbn [concat eval_episodes].
    destruct (eval_episode_complete str_float n pre last (concat episodes) L fs
                HL Hpre Hlast Hrs) as (L1 & -> & HL1).
    destruct (step_ready str_float n L1 fs Hn HL1) as (L2 & -> & HL2).
    apply IH; [exact HL2| |exact Hrest].
    cbn [List.length] in Hlen. lia.
Qed.

(** X19: an evaluation run over episodes that all end returns and leaves
    the log files as they were: with [args.eval] set, [print_every] at least
    1, at least one agent, and the environment answering [num_episodes]
    episodes, each with one reward per agent at every step and a done flag
    at its last step only, [eval] runs [log] and [step] through all of them
    without an error and writes nothing. *)
Theorem eval_run_returns (str_float : Qc -> string) (multi_agent : MultiAgent.t) (a : Args.t)
    (params : list string) (episodes : list (list env_step)) (fs : files) :
  Args.eval a = true -> 1 <= Args.print_every a ->
  (0 < MultiAgent.agent_count multi_agent)%nat ->
  List.length episodes = Z.to_nat (Args.num_episodes a) ->
  Forall (complete (MultiAgent.agent_count multi_agent)) episodes ->
  Run.eval str_float multi_agent a params (concat episodes) fs = (fs, Returned).
Proof.
  intros He Hpe Hn Hlen Hall. unfold Run.eval, Logger.__init__.
  destruct (Z.ltb_spec (Args.print_every a) 0) as [H|_]; [lia|].
  cbn [Logger.eval _reset_rewards set_rewards]. rewrite He.
  apply (eval_episodes_complete str_float (MultiAgent.agent_count multi_agent)).
  - exact Hn.
  - repeat split; try assumption.
    cbn [Logger.rewards agent_count]. unfold Np.zeros. apply repeat_length.
  - unfold episode_numbers. rewrite length_map, length_seq. lia.
  - exact Hall.
Qed.

Definition eval_args : Args.t := Args.Make false true "saves" 2 false 15 10 100.

Lemma two_steps_complete : complete 2 two_steps.
Proof.
  exists [Step [Q2Qc (1 # 10); Q2Qc 0] [false; false] two_agents],
         (Step [Q2Qc (1 # 10); Q2Qc (3 # 10)] [false; true] two_agents).
  split; [reflexivity|]. split; [repeat constructor|]. split; [reflexivity|].
  repeat constructor.
Defined.

Lemma eval_run_returns_witness :
  Run.eval str_whole two_agents eval_args [] (concat [two_steps; two_steps]) ∅
  = (∅, Returned).
Proof.
  apply (eval_run_returns str_whole two_agents eval_args [] [two_steps; two_steps] ∅).
  - reflexivity.
  - cbn. lia.
  - cbn. lia.
  - reflexivity.
  - constructor; [exact two_steps_complete|]. constructor; [exact two_steps_complete|].
    constructor.
Defined.

(** X20: the two modes of [main]. Without [-eval] and [-feval] the program
    never returns: it stops with an exception, at the latest with the one of
    [saver.save] in [train] (or is still inside an episode when the
    environment's answers are used up). With one of them it never writes a
    log file. *)
Theorem main_modes (str_float : Qc -> string) (float : string -> option Qc)
    (p : GatherArgs.parsed) (multi_agent : MultiAgent.t) (timestamp : string)
    (params : list string) (trace : list env_step) (w : world) :
  (GatherArgs.eval p || GatherArgs.force_eval p = false ->
   returned (snd (main str_float float p multi_agent timestamp params trace w)) = false)
  /\ (GatherArgs.eval p || GatherArgs.force_eval p = true ->
      logs (fst (main str_float float p multi_agent timestamp params trace w)) = logs w).
Proof.
  unfold main. pose proof (gather_args_spec p) as Hg.
  destruct (GatherArgs.gather_args p) as [a|e]; [|split; reflexivity].
  destruct Hg as (Htrain & Heval).
  destruct (Saver.__init__ _ _ _ _ _ _) as [[top' c'] [saver|e]]; [|split; reflexivity].
  rewrite Htrain. split; intros Hm; rewrite Hm in Heval; rewrite Heval; cbn [negb].
  - pose proof (train_never_returns_aux str_float float multi_agent (GatherArgs.args a)
                  (Saver.save_dir saver) params trace (logs w)) as Ht.
    destruct (train _ _ _ _ _ _ _ _) as [fs o]. exact Ht.
  - pose proof (eval_fs str_float multi_agent (GatherArgs.args a) params trace (logs w)
                  Heval) as Hf.
    destruct (Run.eval _ _ _ _ _ _) as [fs o]. exact Hf.
Qed.

End WholeRuns.

(** ** The parameter log *)

Section ParameterLog.
Import Str Logger LoggerReport.

Fixpoint no_colon (s : string) : bool :=
  match s with
  | EmptyString => true
  | String c s' => negb (Ascii.eqb c ":") && no_colon s'
  end.

Lemma upper_char_colon (c : ascii) : Ascii.eqb (upper_char c) ":" = Ascii.eqb c ":".
Proof. destruct c as [[] [] [] [] [] [] [] []]; reflexivity. Qed.

Lemma upper_char_underscore (c : ascii) : Ascii.eqb (upper_char c) "_" = Ascii.eqb c "_".
Proof. destruct c as [[] [] [] [] [] [] [] []]; reflexivity. Qed.

Lemma lower_char_underscore (c : ascii) : Ascii.eqb (lower_char c) "_" = Ascii.eqb c "_".
Proof. destruct c as [[] [] [] [] [] [] [] []]; reflexivity. Qed.

Lemma lower_upper_char (c : ascii) : lower_char (upper_char c) = lower_char c.
Proof. destruct c as [[] [] [] [] [] [] [] []]; reflexivity. Qed.

Lemma lower_upper (s : string) : lower (upper s) = lower s.
Proof.
  induction s as [|c s IH]; [reflexivity|].
  cbn [upper lower]. rewrite lower_upper_char, IH. reflexivity.
Qed.

Lemma no_colon_upper (s : string) : no_colon (upper s) = no_colon s.
Proof.
  induction s as [|c s IH]; [reflexivity|].
  cbn [upper no_colon]. rewrite upper_char_colon, IH. reflexivity.
Qed.

Lemma no_colon_lstrip (s : string) :
  no_colon s = true -> no_colon (lstrip_underscores s) = true.
Proof.
  induction s as [|c s IH]; [reflexivity|]. intros H.
  cbn [lstrip_underscores]. destruct (Ascii.eqb c "_"); [|exact H].
  cbn [no_colon] in H. apply andb_prop in H as [_ H]. apply IH, H.
Qed.

Lemma lower_lstrip (s : string) :
  lower (lstrip_underscores s) = lstrip_underscores (lower s).
Proof.
  induction s as [|c s IH]; [reflexivity|].
  cbn [lstrip_underscores lower]. rewrite lower_char_underscore.
  destruct (Ascii.eqb c "_"); [exact IH|reflexivity].
Qed.

Lemma before_colon_app (name value : string) :
  no_colon name = true -> before_colon (name ++ ": " ++ value) = name.
Proof.
  induction name as [|c name IH]; intros H; [reflexivity|].
  cbn [no_colon] in H. apply andb_prop in H as [Hc H].
  change (before_colon (String c (name ++ ": " ++ value)) = String c name).
  cbn [before_colon]. destruct (Ascii.eqb c ":"); [discriminate Hc|].
  rewrite (IH H). reflexivity.
Qed.

(** X21: which parameters [load_logs] finds again. The line
    [_format_param] writes for an attribute whose name holds no colon is one
    [load_logs] prints exactly when the name, lowered and without its leading
    underscores, is one of the sixteen listed, whatever the value. *)
Theorem format_param_printed (arg value : string) :
  no_colon arg = true ->
  printed (_format_param arg value)
  = existsb (String.eqb (lstrip_underscores (lower arg))) params_to_print.
Proof.
  intros H. unfold printed, _format_param.
  rewrite before_colon_app by (apply no_colon_lstrip; rewrite no_colon_upper; exact H).
  rewrite lower_lstrip, lower_upper. reflexivity.
Qed.

Lemma format_param_printed_witness :
  printed (_format_param "_gamma" "0.99") = true
  /\ printed (_format_param "quiet" "False") = false.
Proof.
  split.
  - rewrite (format_param_printed "_gamma" "0.99") by reflexivity. reflexivity.
  - rewrite (format_param_printed "quiet" "False") by reflexivity. reflexivity.
Defined.

(** [s] is the [lines], each followed by two spaces, with a line feed in
    front of some of them. *)
Definition laid_out (lines : list string) (s : string) : Prop :=
  exists seps : list string,
    List.length seps = List.length lines
    /\ Forall (fun sep => sep = EmptyString \/ sep = nl) seps
    /\ s = String.concat EmptyString
             (zip_with String.append seps (map (fun line => line ++ "  ") lines)).

Lemma concat_cons (x : string) (l : list string) :
  String.concat EmptyString (x :: l) = x ++ String.concat EmptyString l.
Proof.
  destruct l as [|y l]; cbn [String.concat]; [rewrite append_empty_r|]; reflexivity.
Qed.

Lemma fold_add_line (lines : list string) (acc : string) (counter : nat) :
  exists seps : list string,
    List.length seps = List.length (List.filter printed lines)
    /\ Forall (fun sep => sep = EmptyString \/ sep = nl) seps
    /\ fst (fold_left add_line lines (acc, counter))
       = acc ++ String.concat EmptyString
                  (zip_with String.append seps
                     (map (fun line => line ++ "  ") (List.filter printed lines))).
Proof.
  revert acc counter. induction lines as [|line lines IH]; intros acc counter.
  - exists []. split; [reflexivity|]. split; [constructor|].
    cbn. rewrite append_empty_r. reflexivity.
  - cbn [fold_left add_line List.filter]. destruct (printed line).
    + destruct (80 <? counter + String.length (line ++ "  "))%nat.
      * destruct (IH (acc ++ nl ++ line ++ "  ") 0%nat) as (seps & Hlen & Hall & Hs).
        exists (nl :: seps). split; [cbn [List.length]; lia|].
        split; [constructor; [right; reflexivity|exact Hall]|].
        rewrite Hs. cbn [map zip_with]. rewrite concat_cons, !append_assoc. reflexivity.
      * destruct (IH (acc ++ line ++ "  ") (counter + String.length (line ++ "  "))%nat)
          as (seps & Hlen & Hall & Hs).
        exists (EmptyString :: seps). split; [cbn [List.length]; lia|].
        split; [constructor; [left; reflexivity|exact Hall]|].
        rewrite Hs. cbn [map zip_with]. rewrite concat_cons, !append_assoc. reflexivity.
    + apply IH.
Qed.

(** X22: what [load_logs] keeps of the parameter file: the lines whose name
    is listed, all of them, in the order of the file and unchanged, each
    followed by two spaces, and nothing else but line feeds in front of some
    of them. *)
Theorem load_logs_layout (L : Logger.t) (fs : files) (text : string) :
  fs !! paramfile L = Some text ->
  exists s, load_logs L fs = Ok s
            /\ laid_out (List.filter printed (splitlines (universal_newlines text))) s.
Proof.
  intros Hfs. unfold load_logs. rewrite Hfs. eexists. split; [reflexivity|].
  destruct (fold_add_line (splitlines (universal_newlines text)) EmptyString 0%nat)
    as (seps & Hlen & Hall & Hs).
  exists seps. split; [exact Hlen|]. split; [exact Hall|]. exact Hs.
Qed.

Lemma load_logs_layout_witness :
  exists s,
    load_logs fresh_logger
      {[ paramfile fresh_logger := "GAMMA: 0.99" ++ nl ++ "QUIET: False" ++ nl
                                   ++ "ROLLOUT: 5" ++ nl ]} = Ok s
    /\ laid_out ["GAMMA: 0.99"; "ROLLOUT: 5"] s.
Proof.
  apply (load_logs_layout fresh_logger
           {[ paramfile fresh_logger := "GAMMA: 0.99" ++ nl ++ "QUIET: False" ++ nl
                                        ++ "ROLLOUT: 5" ++ nl ]}
           ("GAMMA: 0.99" ++ nl ++ "QUIET: False" ++ nl ++ "ROLLOUT: 5" ++ nl)).
  apply lookup_singleton_eq.
Defined.


Lemma param_lines_back (params : list string) :
  Forall (fun line => free_of_breaks line = true) params ->
  splitlines (universal_newlines
                (String.concat EmptyString (map (fun line => line ++ nl) params)))
  = params.
Proof.
  induction 1 as [|line params Hline _ IH]; [reflexivity|].
  cbn [map]. rewrite concat_cons, append_assoc, (universal_newlines_line _ _ Hline).
  unfold splitlines in *. rewrite (splitlines_from_line _ _ _ Hline), IH. reflexivity.
Qed.

Lemma init_param_file (multi_agent : MultiAgent.t) (a : Args.t) (save_dir : string)
    (params : list string) (fs : files) :
  0 <= Args.print_every a -> Args.eval a = false ->
  exists fs' L,
    Logger.__init__ multi_agent a save_dir params fs = (fs', Ok L)
    /\ fs' !! paramfile L
       = Some (String.concat EmptyString (map (fun line => line ++ nl) params)).
Proof.
  intros Hpe Heval. unfold Logger.__init__.
  destruct (Z.ltb_spec (Args.print_every a) 0) as [H|_]; [lia|].
  cbn [Logger.eval _reset_rewards set_rewards]. rewrite Heval.
  unfold _init_logs. rewrite generate_logfiles_loop.
  cbn [logs_basename set_logfiles paramfile].
  set (base := os_path_join (replace_char "\" "/" (os_path_join save_dir "logs"))
                            (basename save_dir)).
  set (text := String.concat EmptyString (map (fun line => line ++ nl) params)).
  destruct (generate_loop_spec base (seq 0 (List.length (MultiAgent.agents multi_agent)))
              (append_file (base ++ "_scores.txt") EmptyString
                 (write_file (base ++ "_LOG.txt") text fs)) ∅) as (_ & _ & H3 & _).
  cbn zeta. eexists. eexists. split; [reflexivity|].
  cbn [paramfile]. apply H3. rewrite touch_lookup. unfold write_file.
  rewrite lookup_insert_eq. reflexivity.
Qed.

(** X23: the parameters a training run logs are the ones its graph shows:
    after [Logger(multi_agent, args, save_dir)] has written the parameter
    file from lines without line breaks, [load_logs] returns those of them
    whose name is listed, in their order, each followed by two spaces, with
    line feeds in front of some. *)
Theorem init_then_load_logs (multi_agent : MultiAgent.t) (a : Args.t) (save_dir : string)
    (params : list string) (fs : files) :
  0 <= Args.print_every a -> Args.eval a = false ->
  Forall (fun line => free_of_breaks line = true) params ->
  exists fs' L s,
    Logger.__init__ multi_agent a save_dir params fs = (fs', Ok L)
    /\ load_logs L fs' = Ok s
    /\ laid_out (List.filter printed params) s.
Proof.
  intros Hpe Heval Hparams.
  destruct (init_param_file multi_agent a save_dir params fs Hpe Heval)
    as (fs' & L & Hinit & Hfile).
  exists fs', L. unfold load_logs. rewrite Hfile, (param_lines_back params Hparams).
  eexists. split; [exact Hinit|]. split; [reflexivity|].
  destruct (fold_add_line params EmptyString 0%nat) as (seps & Hlen & Hall & Hs).
  exists seps. split; [exact Hlen|]. split; [exact Hall|]. exact Hs.
Qed.

Lemma init_then_load_logs_witness :
  exists fs' L s,
    Logger.__init__ two_agents training_args "saves/MAD4PG_20240101_v001"
      [_format_param "num_episodes" "1000"; _format_param "quiet" "False";
       _format_param "_gamma" "0.99"] ∅ = (fs', Ok L)
    /\ load_logs L fs' = Ok s
    /\ laid_out ["NUM_EPISODES: 1000"; "GAMMA: 0.99"] s.
Proof.
  apply (init_then_load_logs two_agents training_args "saves/MAD4PG_20240101_v001"
           [_format_param "num_episodes" "1000"; _format_param "quiet" "False";
            _format_param "_gamma" "0.99"] ∅).
  - cbn. lia.
  - reflexivity.
  - repeat constructor.
Defined.

End ParameterLog.

(** ** The loss plots *)

Section LossPlots.
Import Str Logger LoggerReport.

(** Every agent has its two loss files, as [_generate_logfiles] leaves
    them. *)
Definition two_each (L : Logger.t) : Prop :=
  forall idx, (idx < agent_count L)%nat ->
    exists actor critic, lossfiles L !! idx = Some [actor; critic].

(** X24: [plot_logs] is made for two agents. It takes the loss file of row
    [row] of agent [col-1] for every row below the number of agents, and
    every agent has two loss files: with two agents all four files are read,
    with one agent the critic's losses are never read, and with three agents
    or more the third row of the first agent raises [IndexError]. *)
Theorem plot_reads_two_rows (L : Logger.t) :
  two_each L ->
  match agent_count L with
  | 0%nat => loss_files_read L = Ok []
  | 1%nat => exists actor critic,
               lossfiles L !! 0%nat = Some [actor; critic]
               /\ loss_files_read L = Ok [actor]
  | 2%nat => exists actor1 critic1 actor2 critic2,
               lossfiles L !! 0%nat = Some [actor1; critic1]
               /\ lossfiles L !! 1%nat = Some [actor2; critic2]
               /\ loss_files_read L = Ok [actor1; critic1; actor2; critic2]
  | _ => loss_files_read L = Raise IndexError
  end.
Proof.
  intros Htwo. unfold two_each in Htwo. unfold loss_files_read.
  destruct (agent_count L) as [|[|[|k]]].
  - reflexivity.
  - destruct (Htwo 0%nat) as (a0 & c0 & H0); [lia|].
    exists a0, c0. split; [exact H0|].
    cbn [Nat.add Nat.sub seq flat_map map app comprehension]. rewrite H0. reflexivity.
  - destruct (Htwo 0%nat) as (a0 & c0 & H0); [lia|].
    destruct (Htwo 1%nat) as (a1 & c1 & H1); [lia|].
    exists a0, c0, a1, c1. split; [exact H0|]. split; [exact H1|].
    cbn [Nat.add Nat.sub seq flat_map map app comprehension]. rewrite H0, H1. reflexivity.
  - destruct (Htwo 0%nat) as (a0 & c0 & H0); [lia|].
    replace (S (S (S k)) + 1 - 1)%nat with (S (S (S k))) by lia.
    cbn [seq flat_map map app comprehension Nat.sub]. rewrite H0. reflexivity.
Qed.

Lemma plot_reads_two_rows_witness :
  exists actor1 critic1 actor2 critic2,
    lossfiles fresh_logger !! 0%nat = Some [actor1; critic1]
    /\ lossfiles fresh_logger !! 1%nat = Some [actor2; critic2]
    /\ loss_files_read fresh_logger = Ok [actor1; critic1; actor2; critic2].
Proof.
  apply (plot_reads_two_rows fresh_logger).
  intros idx Hidx. destruct idx as [|[|idx]].
  - eexists. eexists. reflexivity.
  - eexists. eexists. reflexivity.
  - cbn in Hidx. lia.
Defined.

End LossPlots.

(** ** Checkpoints *)

Section Checkpoints.
Import Str Saver.


Lemma take_digits_before (d rest : string) :
  all_digits d = true -> take_digits (d ++ "_" ++ rest) = d.
Proof.
  induction d as [|c d IH]; intros H; [reflexivity|].
  cbn [all_digits] in H. apply andb_prop in H as [Hc Hd].
  change (take_digits (String c (d ++ "_" ++ rest)) = String c d).
  cbn [take_digits]. rewrite Hc, (IH Hd). reflexivity.
Qed.











End Checkpoints.

(** ** The log files found again *)

Section FoundAgain.
Import Str Logger LoggerGraph.

Lemma string_length_app (a b : string) :
  String.length (a ++ b) = (String.length a + String.length b)%nat.
Proof.
  induction a as [|c a IH]; [reflexivity|].
  change (S (String.length (a ++ b)) = S (String.length a + String.length b)).
  rewrite IH. reflexivity.
Qed.

Lemma substring_skip (x y : string) (k m : nat) :
  substring (String.length x + k) m (x ++ y) = substring k m y.
Proof.
  induction x as [|c x IH]; [reflexivity|]. exact IH.
Qed.

Lemma ends_with_app (suffix x y : string) :
  (String.length suffix <= String.length y)%nat ->
  ends_with suffix (x ++ y) = ends_with suffix y.
Proof.
  intros Hlen. unfold ends_with. rewrite string_length_app.
  replace (String.length x + String.length y - String.length suffix)%nat
    with (String.length x + (String.length y - String.length suffix))%nat by lia.
  rewrite substring_skip.
  destruct (Nat.leb_spec (String.length suffix) (String.length y)) as [_|H]; [|lia].
  destruct (Nat.leb_spec (String.length suffix) (String.length x + String.length y))
    as [_|H]; [reflexivity|lia].
Qed.

Lemma replace_char_app (a b : ascii) (x y : string) :
  replace_char a b (x ++ y) = replace_char a b x ++ replace_char a b y.
Proof.
  induction x as [|c x IH]; [reflexivity|].
  change (String (if Ascii.eqb c a then b else c) (replace_char a b (x ++ y))
          = String (if Ascii.eqb c a then b else c) (replace_char a b x ++ replace_char a b y)).
  rewrite IH. reflexivity.
Qed.

Lemma replace_char_digits (d : string) :
  all_digits d = true -> replace_char "\" "/" d = d.
Proof.
  induction d as [|c d IH]; intros H; [reflexivity|].
  cbn [all_digits] in H. apply andb_prop in H as [Hc Hd].
  cbn [replace_char]. rewrite (IH Hd).
  destruct (Ascii.eqb_spec c "\") as [->|_]; [discriminate Hc|reflexivity].
Qed.

Lemma os_path_join_app (d p x : string) :
  String.prefix "/" x = false -> os_path_join d (p ++ x) = os_path_join d p ++ x.
Proof.
  intros Hx. unfold os_path_join. destruct p as [|c p].
  - change (EmptyString ++ x) with x. rewrite Hx.
    change (String.prefix "/" EmptyString) with false. cbn match.
    destruct (String.eqb d EmptyString || ends_with "/" d).
    + rewrite append_empty_r. reflexivity.
    + rewrite !append_assoc. reflexivity.
  - assert (Hp : String.prefix "/" (String c p ++ x) = String.prefix "/" (String c p)).
    { change (String c p ++ x) with (String c (p ++ x)). cbn [String.prefix].
      destruct (ascii_dec "/" c); [|reflexivity].
      destruct p, x; reflexivity. }
    rewrite Hp.
    destruct (String.prefix "/" (String c p)); [reflexivity|].
    destruct (String.eqb d EmptyString || ends_with "/" d); rewrite !append_assoc; reflexivity.
Qed.

(** The path [graph] makes of an entry of the directory. *)
Definition norm (logdir file : string) : string :=
  replace_char "\" "/" (os_path_join logdir file).

Lemma norm_app (logdir p x : string) :
  String.prefix "/" x = false ->
  norm logdir (p ++ x) = norm logdir p ++ replace_char "\" "/" x.
Proof.
  intros Hx. unfold norm. rewrite (os_path_join_app _ _ _ Hx). apply replace_char_app.
Qed.

Lemma match_agent_here_before (b r : string) :
  b <> EmptyString -> match_agent_here b = None ->
  match_agent_here (b ++ "_agent" ++ r) = None.
Proof.
  intros Hne H.
  destruct b as [|c1 [|c2 [|c3 [|c4 [|c5 b]]]]]; [contradiction|..].
  - change (match_agent_here (String c1 ("_agent" ++ r)) = None).
    cbn [match_agent_here append]. destruct (Ascii.eqb c1 "a"); reflexivity.
  - change (match_agent_here (String c1 (String c2 ("_agent" ++ r))) = None).
    cbn [match_agent_here append].
    destruct (Ascii.eqb c1 "a"), (Ascii.eqb c2 "g"); reflexivity.
  - change (match_agent_here (String c1 (String c2 (String c3 ("_agent" ++ r)))) = None).
    cbn [match_agent_here append].
    destruct (Ascii.eqb c1 "a"), (Ascii.eqb c2 "g"), (Ascii.eqb c3 "e"); reflexivity.
  - change (match_agent_here
              (String c1 (String c2 (String c3 (String c4 ("_agent" ++ r))))) = None).
    cbn [match_agent_here append].
    destruct (Ascii.eqb c1 "a"), (Ascii.eqb c2 "g"), (Ascii.eqb c3 "e"), (Ascii.eqb c4 "n");
      reflexivity.
  - change (match_agent_here
              (String c1 (String c2 (String c3 (String c4 (String c5 (b ++ "_agent" ++ r))))))
            = None).
    cbn [match_agent_here] in H |- *.
    destruct (Ascii.eqb c1 "a" && Ascii.eqb c2 "g" && Ascii.eqb c3 "e" && Ascii.eqb c4 "n"
              && Ascii.eqb c5 "t"); [discriminate H|reflexivity].
Qed.

Lemma search_skip (b r : string) :
  re_search_agent b = None ->
  re_search_agent (b ++ "_agent" ++ r) = Some (take_digits r).
Proof.
  induction b as [|c b IH]; intros H; [reflexivity|].
  cbn [re_search_agent] in H.
  destruct (match_agent_here (String c b)) eqn:Em; [discriminate H|].
  change (re_search_agent (String c (b ++ "_agent" ++ r)) = Some (take_digits r)).
  cbn [re_search_agent].
  change (String c (b ++ "_agent" ++ r)) with (String c b ++ "_agent" ++ r) at 1.
  rewrite (match_agent_here_before (String c b) r) by (discriminate || exact Em).
  apply IH, H.
Qed.

Lemma agent_index_generated (b rest : string) (k : Z) :
  re_search_agent b = None -> 1 <= k ->
  agent_index (b ++ "_agent" ++ str_int k ++ "_" ++ rest) = Ok (k - 1).
Proof.
  intros Hb Hk. unfold agent_index. rewrite (search_skip _ _ Hb).
  destruct (str_int_digits k Hk) as (Hd & Hne & Hint).
  rewrite (take_digits_before _ _ Hd), (py_int_digits _ Hd Hne), Hint. reflexivity.
Qed.


(** *** The three kinds of log file *)

Definition is_param (file : string) : bool := ends_with "_LOG.txt" file.
Definition is_scores (file : string) : bool :=
  negb (ends_with "_LOG.txt" file) && ends_with "_scores.txt" file.
Definition is_loss (file : string) : bool :=
  negb (ends_with "_LOG.txt" file) && negb (ends_with "_scores.txt" file)
  && ends_with "loss.txt" file.

(** The last of [l], or [d] when there is none. *)
Definition pick (d : option string) (l : list string) : option string :=
  fold_left (fun _ x => Some x) l d.

Lemma fold_classify (logdir : string) (listing : list string) (st : found) :
  fold_left (classify logdir) listing st
  = Found (pick (paramfile st) (List.filter is_param (map (norm logdir) listing)))
          (pick (scoresfile st) (List.filter is_scores (map (norm logdir) listing)))
          (loss_list st ++ List.filter is_loss (map (norm logdir) listing)).
Proof.
  revert st. induction listing as [|file listing IH]; intros st.
  - cbn. rewrite app_nil_r. destruct st; reflexivity.
  - cbn [fold_left map List.filter]. rewrite IH. unfold classify, is_param, is_scores, is_loss.
    fold (norm logdir file).
    destruct (ends_with "_LOG.txt" (norm logdir file)); cbn [negb andb]; [reflexivity|].
    destruct (ends_with "_scores.txt" (norm logdir file)); cbn [negb andb]; [reflexivity|].
    destruct (ends_with "loss.txt" (norm logdir file)); cbn [paramfile scoresfile loss_list].
    + rewrite <- app_assoc. reflexivity.
    + reflexivity.
Qed.

Lemma filter_perm {A : Type} (P : A -> bool) (l l' : list A) :
  Permutation l l' -> Permutation (List.filter P l) (List.filter P l').
Proof.
  induction 1 as [|x l l' _ IH|x y l|l l' l'' _ IH1 _ IH2]; cbn [List.filter].
  - constructor.
  - destruct (P x); [constructor|]; exact IH.
  - destruct (P x), (P y); try reflexivity. constructor.
  - etransitivity; eassumption.
Qed.

(** The names [Logger(multi_agent, args, save_dir)] creates in its log
    directory for [n] agents, [name] being [self.filename]. *)
Definition generated (name : string) (n : nat) : list string :=
  (name ++ "_LOG.txt") :: (name ++ "_scores.txt")
  :: flat_map (fun idx => map (fun suffix => name ++ suffix) (_get_agentlog_names idx))
              (seq 0 n).

Lemma norm_loss_names (logdir name : string) (idx : nat) :
  map (norm logdir) (map (fun suffix => name ++ suffix) (_get_agentlog_names idx))
  = loss_names (norm logdir name) idx.
Proof.
  unfold loss_names, _get_agentlog_names. cbn [map].
  destruct (str_int_digits (Z.of_nat idx + 1)) as (Hd & _); [lia|].
  rewrite !norm_app by reflexivity.
  rewrite !(replace_char_app _ _ "_agent"), !(replace_char_app _ _ (str_int _)).
  rewrite !(replace_char_digits _ Hd). reflexivity.
Qed.

Lemma norm_generated (logdir name : string) (n : nat) :
  map (norm logdir) (generated name n)
  = (norm logdir name ++ "_LOG.txt") :: (norm logdir name ++ "_scores.txt")
    :: flat_map (loss_names (norm logdir name)) (seq 0 n).
Proof.
  unfold generated. cbn [map]. rewrite !norm_app by reflexivity.
  f_equal. f_equal. generalize (seq 0 n). intros idxs.
  induction idxs as [|idx idxs IH]; [reflexivity|].
  cbn [flat_map]. rewrite map_app, IH, norm_loss_names. reflexivity.
Qed.

Lemma loss_name_kinds (base : string) (idx : nat) (file : string) :
  In file (loss_names base idx) ->
  is_param file = false /\ is_scores file = false /\ is_loss file = true.
Proof.
  unfold loss_names, _get_agentlog_names. cbn [map In].
  unfold is_param, is_scores, is_loss.
  intros [<-|[<-|[]]].
  - replace (base ++ "_agent" ++ str_int (Z.of_nat idx + 1) ++ "_actorloss.txt")
      with ((base ++ "_agent" ++ str_int (Z.of_nat idx + 1)) ++ "_actorloss.txt")
      by (rewrite !append_assoc; reflexivity).
    rewrite !ends_with_app by (cbn; lia). split; [|split]; reflexivity.
  - replace (base ++ "_agent" ++ str_int (Z.of_nat idx + 1) ++ "_criticloss.txt")
      with ((base ++ "_agent" ++ str_int (Z.of_nat idx + 1)) ++ "_criticloss.txt")
      by (rewrite !append_assoc; reflexivity).
    rewrite !ends_with_app by (cbn; lia). split; [|split]; reflexivity.
Qed.

Lemma filter_none {A : Type} (P : A -> bool) (l : list A) :
  (forall x, In x l -> P x = false) -> List.filter P l = [].
Proof.
  induction l as [|x l IH]; intros H; [reflexivity|].
  cbn [List.filter]. rewrite (H x) by (left; reflexivity).
  apply IH. intros y Hy. apply H. right. exact Hy.
Qed.

Lemma filter_all {A : Type} (P : A -> bool) (l : list A) :
  (forall x, In x l -> P x = true) -> List.filter P l = l.
Proof.
  induction l as [|x l IH]; intros H; [reflexivity|].
  cbn [List.filter]. rewrite (H x) by (left; reflexivity).
  f_equal. apply IH. intros y Hy. apply H. right. exact Hy.
Qed.

Lemma in_all_loss_names (base : string) (idxs : list nat) (file : string) :
  In file (flat_map (loss_names base) idxs) ->
  exists idx, In idx idxs /\ In file (loss_names base idx).
Proof.
  intros H. apply in_flat_map in H as (idx & H1 & H2). exists idx. split; assumption.
Qed.

Lemma generated_kinds (base : string) (n : nat) :
  let l := (base ++ "_LOG.txt") :: (base ++ "_scores.txt")
           :: flat_map (loss_names base) (seq 0 n) in
  List.filter is_param l = [base ++ "_LOG.txt"]
  /\ List.filter is_scores l = [base ++ "_scores.txt"]
  /\ List.filter is_loss l = flat_map (loss_names base) (seq 0 n).
Proof.
  cbn zeta.
  assert (Hp : is_param (base ++ "_LOG.txt") = true
               /\ is_scores (base ++ "_LOG.txt") = false
               /\ is_loss (base ++ "_LOG.txt") = false).
  { unfold is_param, is_scores, is_loss. rewrite !ends_with_app by (cbn; lia).
    split; [|split]; reflexivity. }
  assert (Hs : is_param (base ++ "_scores.txt") = false
               /\ is_scores (base ++ "_scores.txt") = true
               /\ is_loss (base ++ "_scores.txt") = false).
  { unfold is_param, is_scores, is_loss. rewrite !ends_with_app by (cbn; lia).
    split; [|split]; reflexivity. }
  destruct Hp as (Hp1 & Hp2 & Hp3). destruct Hs as (Hs1 & Hs2 & Hs3).
  cbn [List.filter]. rewrite Hp1, Hp2, Hp3, Hs1, Hs2, Hs3.
  split; [|split].
  - f_equal. apply filter_none. intros file Hf.
    apply in_all_loss_names in Hf as (idx & _ & Hf).
    apply (loss_name_kinds _ _ _ Hf).
  - f_equal. apply filter_none. intros file Hf.
    apply in_all_loss_names in Hf as (idx & _ & Hf).
    apply (loss_name_kinds _ _ _ Hf).
  - apply filter_all. intros file Hf.
    apply in_all_loss_names in Hf as (idx & _ & Hf).
    apply (loss_name_kinds _ _ _ Hf).
Qed.

(** *** The loss files by agent *)

(** The agent index [graph] reads off a file name. *)
Definition ix (file : string) : Z :=
  match agent_index file with
  | Ok k => k
  | Raise _ => 0
  end.

Lemma each_loss_spec (l : list string) (lf0 : gmap Z (list string)) :
  (forall file, In file l -> agent_index file = Ok (ix file)) ->
  exists lf, each_loss l lf0 = Ok lf
             /\ forall k, default [] (lf !! k)
                          = (default [] (lf0 !! k)
                             ++ List.filter (fun file => ix file =? k) l)%list.
Proof.
  revert lf0. induction l as [|file l IH]; intros lf0 Hl.
  - exists lf0. split; [reflexivity|]. intros k. cbn. rewrite app_nil_r. reflexivity.
  - cbn [each_loss]. unfold file_loss at 1. rewrite (Hl file) by (left; reflexivity).
    cbn [mbind result_bind].
    destruct (IH (<[ix file := (default [] (lf0 !! ix file) ++ [file])%list]> lf0))
      as (lf & Hrun & Hlf); [intros f Hf; apply Hl; right; exact Hf|].
    exists lf. split; [exact Hrun|]. intros k. rewrite Hlf. cbn [List.filter].
    destruct (Z.eqb_spec (ix file) k) as [->|Hne].
    + rewrite lookup_insert_eq. cbn [default]. unfold id. rewrite <- app_assoc. reflexivity.
    + rewrite lookup_insert_ne by exact Hne. reflexivity.
Qed.

Lemma loss_names_index (base : string) (idx : nat) (file : string) :
  re_search_agent base = None -> In file (loss_names base idx) ->
  agent_index file = Ok (Z.of_nat idx).
Proof.
  intros Hb. unfold loss_names, _get_agentlog_names. cbn [map In].
  intros [<-|[<-|[]]].
  - change ("_actorloss.txt") with ("_" ++ "actorloss.txt").
    rewrite (agent_index_generated base "actorloss.txt" (Z.of_nat idx + 1) Hb) by lia.
    f_equal. lia.
  - change ("_criticloss.txt") with ("_" ++ "criticloss.txt").
    rewrite (agent_index_generated base "criticloss.txt" (Z.of_nat idx + 1) Hb) by lia.
    f_equal. lia.
Qed.

Lemma filter_index (base : string) (idx start len : nat) :
  re_search_agent base = None ->
  List.filter (fun file => ix file =? Z.of_nat idx)
              (flat_map (loss_names base) (seq start len))
  = if (start <=? idx)%nat && (idx <? start + len)%nat then loss_names base idx else [].
Proof.
  intros Hb. revert start. induction len as [|len IH]; intros start.
  - cbn [seq flat_map List.filter].
    destruct (Nat.leb_spec start idx), (Nat.ltb_spec idx (start + 0));
      cbn [andb]; try reflexivity; lia.
  - cbn [seq flat_map]. rewrite filter_app, IH.
    assert (Hix : forall file, In file (loss_names base start) -> ix file = Z.of_nat start).
    { intros file Hf. unfold ix. rewrite (loss_names_index base start file Hb Hf).
      reflexivity. }
    destruct (Nat.eq_dec start idx) as [->|Hne].
    + rewrite filter_all
        by (intros file Hf; rewrite (Hix file Hf); apply Z.eqb_refl).
      destruct (Nat.leb_spec (S idx) idx) as [H|_]; [lia|]. cbn [andb].
      rewrite app_nil_r.
      destruct (Nat.leb_spec idx idx) as [_|H]; [|lia].
      destruct (Nat.ltb_spec idx (idx + S len)) as [_|H]; [reflexivity|lia].
    + rewrite filter_none
        by (intros file Hf; rewrite (Hix file Hf); apply Z.eqb_neq; lia).
      cbn [app].
      destruct (Nat.leb_spec (S start) idx), (Nat.leb_spec start idx),
        (Nat.ltb_spec idx (S start + len)), (Nat.ltb_spec idx (start + S len));
        cbn [andb]; try reflexivity; lia.
Qed.

Lemma split_from_length (sep : ascii) (part s : string) :
  (1 <= List.length (split_from sep part s))%nat.
Proof.
  revert part. induction s as [|c s IH]; intros part; cbn [split_from].
  - cbn. lia.
  - destruct (Ascii.eqb c sep); [cbn; lia|apply IH].
Qed.

Lemma split_slash (part s : string) :
  contains "/" s = true -> (2 <= List.length (split_from "/" part s))%nat.
Proof.
  revert part. induction s as [|c s IH]; intros part H; [discriminate H|].
  cbn [split_from]. destruct (Ascii.eqb_spec c "/") as [->|Hne].
  - cbn [List.length]. pose proof (split_from_length "/" EmptyString s). lia.
  - apply IH. cbn [contains String.prefix] in H.
    destruct (ascii_dec "/" c) as [E|_]; [congruence|]. exact H.
Qed.

Lemma second_last_long {A : Type} (l : list A) :
  (2 <= List.length l)%nat -> exists x, second_last l = Ok x.
Proof.
  intros H. unfold second_last. rewrite <- length_rev in H.
  destruct (List.rev l) as [|y [|x r]]; cbn in H; try lia.
  exists x. reflexivity.
Qed.

(** X27: [graph(logdir)] finds again the log files a training run created.
    When [logdir] holds a [/], the directory lists, in any order, the files
    [Logger.__init__] creates for [n] agents, and the path of the log
    directory joined with the run's name has no [agent] in it, [graph]
    returns with the parameter file and the scores file set to the created
    ones and, under every agent's index, the agent's two loss files, in one
    order or the other. *)
Theorem graph_finds_generated (logdir name : string) (n : nat) (listing : list string) :
  contains "/" logdir = true ->
  re_search_agent (norm logdir name) = None ->
  Permutation listing (generated name n) ->
  exists r,
    graph logdir listing ∅ = Ok r
    /\ paramfile (files r) = Some (norm logdir name ++ "_LOG.txt")
    /\ scoresfile (files r) = Some (norm logdir name ++ "_scores.txt")
    /\ forall idx, (idx < n)%nat ->
         exists names, lossfiles r !! Z.of_nat idx = Some names
                       /\ Permutation names (loss_names (norm logdir name) idx).
Proof.
  intros Hslash Hbase Hperm. unfold graph.
  destruct (second_last_long (split "/" logdir)) as [fname ->];
    [apply split_slash, Hslash|].
  cbn [mbind result_bind]. rewrite fold_classify. cbn [paramfile scoresfile loss_list app].
  set (base := norm logdir name) in *.
  assert (Hmap : Permutation (map (norm logdir) listing)
                   ((base ++ "_LOG.txt") :: (base ++ "_scores.txt")
                    :: flat_map (loss_names base) (seq 0 n))).
  { unfold base. rewrite <- norm_generated. apply Permutation_map, Hperm. }
  destruct (generated_kinds base n) as (Kp & Ks & Kl). cbn zeta in Kp, Ks, Kl.
  pose proof (filter_perm is_param _ _ Hmap) as Pp. rewrite Kp in Pp.
  pose proof (filter_perm is_scores _ _ Hmap) as Ps. rewrite Ks in Ps.
  pose proof (filter_perm is_loss _ _ Hmap) as Pl. rewrite Kl in Pl.
  apply Permutation_sym, Permutation_length_1_inv in Pp.
  apply Permutation_sym, Permutation_length_1_inv in Ps.
  rewrite Pp, Ps. cbn [pick fold_left].
  set (losses := List.filter is_loss (map (norm logdir) listing)) in *.
  assert (Hix : forall file, In file losses -> agent_index file = Ok (ix file)).
  { intros file Hf. apply (Permutation_in _ Pl) in Hf.
    apply in_all_loss_names in Hf as (idx & _ & Hf).
    unfold ix. rewrite (loss_names_index base idx file Hbase Hf). reflexivity. }
  destruct (each_loss_spec losses ∅ Hix) as (lf & -> & Hlf).
  cbn [mbind result_bind]. eexists. split; [reflexivity|].
  cbn [files paramfile scoresfile lossfiles].
  split; [reflexivity|]. split; [reflexivity|].
  intros idx Hidx. specialize (Hlf (Z.of_nat idx)).
  rewrite lookup_empty in Hlf. cbn [default app] in Hlf.
  pose proof (filter_perm (fun file => ix file =? Z.of_nat idx) _ _ Pl) as Pi.
  rewrite (filter_index base idx 0 n Hbase) in Pi.
  destruct (Nat.leb_spec 0 idx) as [_|H]; [|lia].
  destruct (Nat.ltb_spec idx (0 + n)) as [_|H]; [|lia]. cbn [andb] in Pi.
  rewrite <- Hlf in Pi.
  destruct (lf !! Z.of_nat idx) as [names|].
  - exists names. split; [reflexivity|exact Pi].
  - cbn [default] in Pi. apply Permutation_nil in Pi. discriminate Pi.
Qed.

Lemma graph_finds_generated_witness :
  exists r,
    graph "saves/MAD4PG_v001/logs"
      ["MAD4PG_v001_agent2_criticloss.txt"; "MAD4PG_v001_scores.txt";
       "MAD4PG_v001_agent1_actorloss.txt"; "MAD4PG_v001_agent2_actorloss.txt";
       "MAD4PG_v001_LOG.txt"; "MAD4PG_v001_agent1_criticloss.txt"] ∅ = Ok r
    /\ paramfile (files r) = Some "saves/MAD4PG_v001/logs/MAD4PG_v001_LOG.txt"
    /\ scoresfile (files r) = Some "saves/MAD4PG_v001/logs/MAD4PG_v001_scores.txt".
Proof.
  destruct (graph_finds_generated "saves/MAD4PG_v001/logs" "MAD4PG_v001" 2
              ["MAD4PG_v001_agent2_criticloss.txt"; "MAD4PG_v001_scores.txt";
               "MAD4PG_v001_agent1_actorloss.txt"; "MAD4PG_v001_agent2_actorloss.txt";
               "MAD4PG_v001_LOG.txt"; "MAD4PG_v001_agent1_criticloss.txt"])
    as (r & Hrun & Hp & Hs & _).
  - reflexivity.
  - reflexivity.
  - unfold generated. cbn [seq flat_map map _get_agentlog_names app].
    change (str_int (Z.of_nat 0 + 1)) with "1". change (str_int (Z.of_nat 1 + 1)) with "2".
    cbn [append].
    apply (Permutation_trans
             (l' := ["MAD4PG_v001_LOG.txt"; "MAD4PG_v001_agent2_criticloss.txt";
                     "MAD4PG_v001_scores.txt"; "MAD4PG_v001_agent1_actorloss.txt";
                     "MAD4PG_v001_agent2_actorloss.txt";
                     "MAD4PG_v001_agent1_criticloss.txt"])).
    { symmetry. apply (Permutation_middle
                         ["MAD4PG_v001_agent2_criticloss.txt"; "MAD4PG_v001_scores.txt";
                          "MAD4PG_v001_agent1_actorloss.txt";
                          "MAD4PG_v001_agent2_actorloss.txt"]). }
    apply perm_skip.
    apply (Permutation_trans
             (l' := ["MAD4PG_v001_scores.txt"; "MAD4PG_v001_agent2_criticloss.txt";
                     "MAD4PG_v001_agent1_actorloss.txt"; "MAD4PG_v001_agent2_actorloss.txt";
                     "MAD4PG_v001_agent1_criticloss.txt"])); [apply perm_swap|].
    apply perm_skip.
    apply (Permutation_trans
             (l' := ["MAD4PG_v001_agent1_actorloss.txt"; "MAD4PG_v001_agent2_criticloss.txt";
                     "MAD4PG_v001_agent2_actorloss.txt";
                     "MAD4PG_v001_agent1_criticloss.txt"])); [apply perm_swap|].
    apply perm_skip.
    apply (Permutation_trans
             (l' := ["MAD4PG_v001_agent1_criticloss.txt"; "MAD4PG_v001_agent2_criticloss.txt";
                     "MAD4PG_v001_agent2_actorloss.txt"])).
    { symmetry. apply (Permutation_middle
                         ["MAD4PG_v001_agent2_criticloss.txt";
                          "MAD4PG_v001_agent2_actorloss.txt"]). }
    apply perm_skip. apply perm_swap.
  - exists r. split; [exact Hrun|]. split; [exact Hp|exact Hs].
Defined.

(** X28: [graph(logdir)] needs a [/] in [logdir]: the run's name is taken
    as the last part but one of the path, and a path of one part has none,
    so [graph] raises [IndexError] before it reads the directory. *)
Theorem graph_needs_two_parts (logdir : string) (listing : list string)
    (lossfiles0 : gmap Z (list string)) :
  contains "/" logdir = false ->
  graph logdir listing lossfiles0 = Raise IndexError.
Proof.
  intros H. unfold graph.
  assert (Hs : forall part, split_from "/" part logdir = [part ++ logdir]).
  { induction logdir as [|c s IH]; intros part.
    - cbn. rewrite append_empty_r. reflexivity.
    - cbn [contains String.prefix] in H. cbn [split_from].
      destruct (Ascii.eqb_spec c "/") as [->|Hne].
      + destruct (ascii_dec "/" "/") as [_|E]; [|contradiction].
        destruct s; discriminate H.
      + destruct (ascii_dec "/" c) as [E|_]; [congruence|].
        rewrite IH by exact H. rewrite append_assoc. reflexivity. }
  unfold split. rewrite Hs. reflexivity.
Qed.

Lemma graph_needs_two_parts_witness :
  graph "logs" ["run_LOG.txt"; "run_scores.txt"] ∅ = Raise IndexError.
Proof.
  apply (graph_needs_two_parts "logs" ["run_LOG.txt"; "run_scores.txt"] ∅). reflexivity.
Defined.

End FoundAgain.

Section TrainingScores.
Import Str Logger Main Run.

Lemma init_scores_created (multi_agent : MultiAgent.t) (a : Args.t) (save_dir : string)
    (params : list string) (fs fs' : files) (L : Logger.t) :
  Logger.__init__ multi_agent a save_dir params fs = (fs', Ok L) -> Args.eval a = false ->
  fs' !! scores_path save_dir = Some (default EmptyString (fs !! scores_path save_dir))
  /\ scoresfile L = scores_path save_dir.
Proof.
  unfold Logger.__init__.
  destruct (Args.print_every a <? 0); [discriminate|].
  cbn [Logger.eval _reset_rewards set_rewards]. intros Hinit Heval. rewrite Heval in Hinit.
  revert Hinit. unfold _init_logs. rewrite generate_logfiles_loop.
  cbn [logs_basename set_logfiles paramfile].
  change (scores_path save_dir)
    with (os_path_join (replace_char "\" "/" (os_path_join save_dir "logs"))
                       (basename save_dir) ++ "_scores.txt").
  set (base := os_path_join (replace_char "\" "/" (os_path_join save_dir "logs"))
                            (basename save_dir)).
  set (text := String.concat EmptyString (map (fun line => line ++ nl) params)).
  destruct (generate_loop_spec base (seq 0 (List.length (MultiAgent.agents multi_agent)))
              (append_file (base ++ "_scores.txt") EmptyString
                 (write_file (base ++ "_LOG.txt") text fs)) ∅) as (_ & _ & H3 & _).
  cbn zeta. intros [= <- <-]. split; [|reflexivity].
  apply H3. rewrite touch_lookup. unfold write_file.
  rewrite lookup_insert_ne by (intros E; apply append_inj_l in E; discriminate E).
  destruct (fs !! (base ++ "_scores.txt")); [reflexivity|].
  destruct (decide (base ++ "_scores.txt" = base ++ "_scores.txt")); [reflexivity|congruence].
Qed.

(** C10: no episode of a training run gets its score into the scores log.
    For a run whose first episode goes through (the logger can be created,
    [log_every] is not zero, every step carries one reward per agent and
    the agents of the start, and the last step, no other, reports a done
    flag), [train] runs [log] at every step and then stops with the
    [AttributeError] of [saver.save(multi_agent)], before [logger.step]:
    the scores file, created empty by the [Logger], is still empty. *)
Theorem training_appends_no_score (str_float : Qc -> string)
    (float : string -> option Qc) (multi_agent : MultiAgent.t) (a : Args.t)
    (save_dir : string) (params : list string) (pre : list env_step) (last : env_step)
    (fs : files) :
  0 <= Args.print_every a -> Args.eval a = false -> Args.log_every a <> 0 ->
  1 <= Args.num_episodes a ->
  Forall (fun s => List.length (rewards s) = MultiAgent.agent_count multi_agent
                   /\ List.length (MultiAgent.agents (Main.multi_agent s))
                      = List.length (MultiAgent.agents multi_agent)) (pre ++ [last]) ->
  none_done pre -> existsb id (dones last) = true ->
  fs !! scores_path save_dir = None ->
  exists fs',
    train str_float float multi_agent a save_dir params (pre ++ [last]) fs
    = (fs', Raised AttributeError)
    /\ fs' !! scores_path save_dir = Some EmptyString.
Proof.
  intros Hpe Heval Hle Hnum Hall Hpre Hlast Hfs.
  destruct (init_training multi_agent a save_dir params fs Hpe Heval)
    as (fs1 & L & Hinit & HLe & HLl & HLr & HLf).
  destruct (init_scores_created _ _ _ _ _ _ _ Hinit Heval) as [Hscores HLs].
  destruct (init_scores_file _ _ _ _ _ _ _ Hinit) as [_ Hspares].
  unfold train. rewrite Hinit.
  destruct (episode_until_done str_float pre last L fs1) as [fs2 Hrun]; try assumption.
  { rewrite HLl. exact Hle. }
  { eapply Forall_impl; [|exact Hall]. intros s [Hr Ha]. split.
    - rewrite HLr. unfold Np.zeros. rewrite repeat_length. exact Hr.
    - intros idx Hidx. exists (loss_names (logs_basename L) idx). split.
      + apply HLf. lia.
      + apply loss_names_named. }
  pose proof (episode_spares str_float (scores_path save_dir) (pre ++ [last]) L fs1 Hspares)
    as Hkeep.
  rewrite Hrun in Hkeep. cbn [fst] in Hkeep.
  unfold episode_numbers.
  destruct (Z.to_nat (Args.num_episodes a)) as [|k] eqn:Ek; [lia|].
  cbn [seq map train_episodes]. rewrite Hrun.
  exists fs2. split; [reflexivity|].
  rewrite Hkeep, Hscores, Hfs. reflexivity.
Qed.

Lemma training_appends_no_score_witness :
  exists fs',
    train str_whole float_whole two_agents training_args "saves/MAD4PG_20240101_v001"
      ["NUM_EPISODES: 1000"] two_steps ∅
    = (fs', Raised AttributeError)
    /\ fs' !! scores_path "saves/MAD4PG_20240101_v001" = Some EmptyString.
Proof.
  apply (training_appends_no_score str_whole float_whole two_agents training_args
           "saves/MAD4PG_20240101_v001" ["NUM_EPISODES: 1000"]
           [Step [Q2Qc (1 # 10); Q2Qc 0] [false; false] two_agents]
           (Step [Q2Qc (1 # 10); Q2Qc (3 # 10)] [false; true] two_agents) ∅).
  - cbn. lia.
  - reflexivity.
  - cbn. lia.
  - cbn. lia.
  - repeat constructor.
  - repeat constructor.
  - reflexivity.
  - apply lookup_empty.
Defined.

End TrainingScores.

(** ** The runs of a day *)

Section RunsOfADay.
Import Str Saver.

(** The name of the [i]-th run of a day. *)
Definition run_name (prefix timestamp : string) (i : Z) : string :=
  base_name_of prefix timestamp ++ format_03d i.

(** The save directory once the first [k] runs of the day have created their
    directories: these [k] names are listed, and no other entry contains the
    base name of the day. *)
Definition holds_runs (prefix timestamp : string) (k : nat) (children : list entry) : Prop :=
  (forall i, 1 <= i <= Z.of_nat k -> In (run_name prefix timestamp i) (os_listdir children))
  /\ (forall f, In f (os_listdir children) ->
                contains (base_name_of prefix timestamp) f = true ->
                exists i, 1 <= i <= Z.of_nat k /\ f = run_name prefix timestamp i).

(** What the specification says of two runs of a day: started one after the
    other against the same, empty save directory, the first [Saver] is named
    [MAD4PG_20240101_v001] and the second [MAD4PG_20240101_v002]. *)
Definition two_savers_claim (agent_count : nat) (c0 c1 : console) : Prop :=
  exists (top1 top2 : option (list entry)) (c0' c1' : console) (first second : Saver.t),
    Saver.__init__ "MAD4PG" agent_count training_args "20240101" (Some []) c0
      = (top1, c0', Ok first)
    /\ filename first = "MAD4PG_20240101_v001"
    /\ Saver.__init__ "MAD4PG" agent_count training_args "20240101" top1 c1
         = (top2, c1', Ok second)
    /\ filename second = "MAD4PG_20240101_v002".

Lemma run_name_read (prefix timestamp : string) (i : Z) :
  re_search_v (prefix ++ "_" ++ timestamp) = None -> 1 <= i ->
  version_read (run_name prefix timestamp i) = Some i.
Proof.
  intros Hp Hi. destruct (format_03d_digits i Hi) as (Hd & Hne & Hv).
  unfold run_name, base_name_of, version_read.
  replace ((prefix ++ "_" ++ timestamp ++ "_v") ++ format_03d i)
    with ((prefix ++ "_" ++ timestamp) ++ "_v" ++ format_03d i)
    by (rewrite !append_assoc; reflexivity).
  rewrite (re_search_v_version _ _ Hp Hd Hne). cbn [option_map]. rewrite Hv. reflexivity.
Qed.

Lemma run_name_inj (prefix timestamp : string) (i j : Z) :
  1 <= i -> 1 <= j -> run_name prefix timestamp i = run_name prefix timestamp j -> i = j.
Proof.
  intros Hi Hj E. unfold run_name in E. apply append_inj_l in E.
  destruct (format_03d_digits i Hi) as (_ & _ & <-).
  destruct (format_03d_digits j Hj) as (_ & _ & <-).
  rewrite E. reflexivity.
Qed.

Lemma next_version_after_runs (prefix timestamp : string) (k : nat) (children : list entry) :
  re_search_v (prefix ++ "_" ++ timestamp) = None ->
  holds_runs prefix timestamp k children ->
  next_version (base_name_of prefix timestamp) (os_listdir children) = Ok (Z.of_nat k + 1).
Proof.
  intros Hp [Hin Hall].
  destruct (next_version_reads (base_name_of prefix timestamp) (os_listdir children))
    as (ver & Hn & _ & Hgt & Hmax & Hone).
  { intros f Hf Hc. destruct (Hall f Hf Hc) as (i & Hi & ->).
    pose proof (run_name_read prefix timestamp i Hp ltac:(lia)) as Hr.
    unfold version_read in Hr.
    destruct (re_search_v (run_name prefix timestamp i)); [eexists; reflexivity|discriminate Hr]. }
  rewrite Hn. f_equal. destruct k as [|k].
  - rewrite Hone; [reflexivity|]. intros f Hf.
    destruct (contains (base_name_of prefix timestamp) f) eqn:Hc; [|reflexivity].
    destruct (Hall f Hf Hc) as (i & Hi & _). lia.
  - assert (Hk : In (run_name prefix timestamp (Z.of_nat (S k))) (os_listdir children))
      by (apply Hin; lia).
    assert (Hck : contains (base_name_of prefix timestamp)
                    (run_name prefix timestamp (Z.of_nat (S k))) = true)
      by apply contains_append.
    pose proof (Hgt _ _ Hk Hck (run_name_read prefix timestamp (Z.of_nat (S k)) Hp ltac:(lia)))
      as Hlt.
    destruct Hmax as (f & v & Hf & Hc & Hv & ->); [eauto|].
    destruct (Hall f Hf Hc) as (i & Hi & ->).
    rewrite (run_name_read prefix timestamp i Hp ltac:(lia)) in Hv. injection Hv as <-.
    lia.
Qed.

(** C2, once the earlier runs have their directories: for a prefix and a
    date without a [_v<digits>] part and a save directory whose entries of
    the day are the directories of its first [k] runs (none for [k = 0], as
    in an empty directory), a fresh [Saver] of a training run is named
    [<prefix>_<date>_v<k+1>], which [generate_savename] returns and the save
    directory does not hold; the [Saver] leaves the save directory as it
    is, and once the directory of that name is created there the save
    directory holds the first [k + 1] runs. *)
Theorem savename_after_runs (prefix timestamp : string) (agent_count : nat) (a : Args.t)
    (k : nat) (children : list entry) (c : console) :
  re_search_v (prefix ++ "_" ++ timestamp) = None ->
  Args.resume a = false -> Args.eval a = false ->
  holds_runs prefix timestamp k children ->
  let name := run_name prefix timestamp (Z.of_nat k + 1) in
  snd (generate_savename prefix (Args.save_dir a) timestamp (Some children))
    = Ok (os_path_join (Args.save_dir a) name, name)
  /\ (exists (c' : console) (s : Saver.t),
        Saver.__init__ prefix agent_count a timestamp (Some children) c
          = (Some children, c', Ok s)
        /\ filename s = name)
  /\ ~ In name (os_listdir children)
  /\ holds_runs prefix timestamp (S k) (check_subdir name children).
Proof.
  intros Hp Hres Hev Hruns name.
  assert (Hg : generate_savename prefix (Args.save_dir a) timestamp (Some children)
               = (children, Ok (os_path_join (Args.save_dir a) name, name))).
  { unfold generate_savename. cbn [check_dir].
    rewrite (next_version_after_runs prefix timestamp k children Hp Hruns). reflexivity. }
  assert (Hfresh : ~ In name (os_listdir children)).
  { intros Hin. destruct Hruns as [_ Hall].
    destruct (Hall name Hin (contains_append _ _)) as (i & Hi & E).
    apply run_name_inj in E; lia. }
  split; [rewrite Hg; reflexivity|]. split; [|split; [exact Hfresh|]].
  - unfold Saver.__init__, _get_agent_file. rewrite Hres, Hev. cbn [orb]. rewrite Hg.
    eexists; eexists. split; reflexivity.
  - destruct Hruns as [Hin Hall].
    destruct (check_subdir_lists name children) as (Hnew & Hold & Hinv).
    split.
    + intros i Hi. destruct (Z.eq_dec i (Z.of_nat k + 1)) as [-> | Hne]; [exact Hnew|].
      assert (Hi' : In (run_name prefix timestamp i) (os_listdir children)) by (apply Hin; lia).
      unfold os_listdir in *. apply in_map_iff in Hi' as (e & He & Hie).
      apply in_map_iff. exists e. split; [exact He|apply Hold, Hie].
    + intros f Hf Hc. unfold os_listdir in Hf. apply in_map_iff in Hf as (e & He & Hie).
      destruct (Hinv e Hie) as [Hie' | ->].
      * destruct (Hall f) as (i & Hi & ->); [apply in_map_iff; eauto|exact Hc|].
        exists i. split; [lia|reflexivity].
      * exists (Z.of_nat k + 1). split; [lia|]. symmetry. exact He.
Qed.

Lemma savename_after_runs_witness :
  let name := run_name "MAD4PG" "20240101" 2 in
  snd (generate_savename "MAD4PG" "saves" "20240101" (Some [Dir "MAD4PG_20240101_v001" []]))
    = Ok (os_path_join "saves" name, name)
  /\ (exists (c' : console) (s : Saver.t),
        Saver.__init__ "MAD4PG" 2 training_args "20240101"
          (Some [Dir "MAD4PG_20240101_v001" []]) (Console [] [])
          = (Some [Dir "MAD4PG_20240101_v001" []], c', Ok s)
        /\ filename s = name)
  /\ ~ In name (os_listdir [Dir "MAD4PG_20240101_v001" []])
  /\ holds_runs "MAD4PG" "20240101" 2 (check_subdir name [Dir "MAD4PG_20240101_v001" []]).
Proof.
  apply (savename_after_runs "MAD4PG" "20240101" 2 training_args 1
           [Dir "MAD4PG_20240101_v001" []] (Console [] [])).
  - reflexivity.
  - reflexivity.
  - reflexivity.
  - split.
    + intros i Hi. assert (i = 1) as -> by lia. left. reflexivity.
    + intros f [<-|[]] _. exists 1. split; [lia|reflexivity].
Defined.

(** The names of the example: on the empty save directory the first name is
    [MAD4PG_20240101_v001], and with the directories of the first and the
    second run in place the third is [MAD4PG_20240101_v003]. *)
Lemma savename_example_names :
  snd (generate_savename "MAD4PG" "saves" "20240101" (Some []))
    = Ok ("saves/MAD4PG_20240101_v001", "MAD4PG_20240101_v001")
  /\ run_name "MAD4PG" "20240101" 2 = "MAD4PG_20240101_v002"
  /\ snd (generate_savename "MAD4PG" "saves" "20240101"
            (Some [Dir "MAD4PG_20240101_v001" []; Dir "MAD4PG_20240101_v002" []]))
     = Ok ("saves/MAD4PG_20240101_v003", "MAD4PG_20240101_v003").
Proof.
  repeat split; vm_compute; reflexivity.
Qed.

(** C2, as stated, fails: a [Saver] creates the save directory only, not the
    directory it names, so a second [Saver] started right after the first
    against the same, empty save directory is named [MAD4PG_20240101_v001]
    again. *)
Lemma second_saver_repeats_name :
  ~ two_savers_claim 2 (Console [] []) (Console [] []).
Proof.
  intros (top1 & top2 & c0' & c1' & first & second & H1 & _ & H2 & Hname).
  vm_compute in H1. injection H1 as <- _ _.
  vm_compute in H2. injection H2 as _ _ <-.
  discriminate Hname.
Qed.

End RunsOfADay.
